(** * SCD Type-2 maintenance of [dim_customers_scd] and the [future_orders] extract

    A shallow embedding of
    - [src/jobs/dim_customers_scd.py]  (the SCD Reconciler),
    - [src/jobs/future_orders.py]      (the Derived Extract Builder),
    - [src/utils/db_utils.py]          ([run_glue_crawler], [cast_to_schema],
                                        the schemas of [get_metadata]),
    together with the properties the specification states about them.

    DataFrames and Delta tables are bags of rows, written as lists; every
    column is nullable (the schemas declare [nullable = True] throughout), so
    a column value is an [option].  Column expressions follow Spark SQL:
    comparisons and connectives are three-valued and a filter keeps the rows
    on which its condition is [Some true]. *)

From Stdlib Require Import ZArith List Bool String Lia Permutation Sorting.Sorted.
Import ListNotations.

Local Open Scope string_scope.
Local Open Scope list_scope.
Local Open Scope Z_scope.

(* ================================================================== *)
(** ** Spark SQL column expressions *)

Module Sql.

(** Types whose values can be stored in a column and compared with [=]. *)
Class Value (A : Type) := {
  val_eqb : A -> A -> bool;
  val_eqb_eq : forall x y, val_eqb x y = true <-> x = y
}.

#[export] Instance Value_Z : Value Z :=
  {| val_eqb := Z.eqb; val_eqb_eq := Z.eqb_eq |}.

#[export] Instance Value_string : Value string :=
  {| val_eqb := String.eqb; val_eqb_eq := String.eqb_eq |}.

#[export] Instance Value_bool : Value bool :=
  {| val_eqb := Bool.eqb; val_eqb_eq := Bool.eqb_true_iff |}.

(** The value of a boolean column expression: [None] is SQL NULL. *)
Definition cond := option bool.

(** [a == b]: NULL as soon as one side is NULL. *)
Definition eq {A} `{Value A} (a b : option A) : cond :=
  match a, b with
  | Some x, Some y => Some (val_eqb x y)
  | _, _ => None
  end.

(** [a != b], that is [NOT (a = b)]. *)
Definition ne {A} `{Value A} (a b : option A) : cond :=
  match a, b with
  | Some x, Some y => Some (negb (val_eqb x y))
  | _, _ => None
  end.

(** [a & b] (Kleene conjunction). *)
Definition and (a b : cond) : cond :=
  match a, b with
  | Some false, _ | _, Some false => Some false
  | Some true, Some true => Some true
  | _, _ => None
  end.

(** [a | b] (Kleene disjunction). *)
Definition or (a b : cond) : cond :=
  match a, b with
  | Some true, _ | _, Some true => Some true
  | Some false, Some false => Some false
  | _, _ => None
  end.

Definition isNull {A} (a : option A) : cond :=
  match a with None => Some true | Some _ => Some false end.

Definition isNotNull {A} (a : option A) : cond :=
  match a with None => Some false | Some _ => Some true end.

(** A filter, a join condition and a merge condition select a row only
    when the condition evaluates to TRUE; NULL behaves as FALSE there. *)
Definition holds (c : cond) : bool :=
  match c with Some true => true | _ => false end.

End Sql.

Export (hints) Sql.

Declare Scope sql_scope.
Delimit Scope sql_scope with sql.
Infix "==" := Sql.eq (at level 70, no associativity) : sql_scope.
Infix "!=" := Sql.ne (at level 70, no associativity) : sql_scope.
Infix "&&&" := Sql.and (at level 40, left associativity) : sql_scope.
Infix "|||" := Sql.or (at level 50, left associativity) : sql_scope.

(* ================================================================== *)
(** ** Dates and timestamps

    Spark stores a [DateType] value as the number of days since 1970-01-01
    and a [TimestampType] value as the number of microseconds since the
    epoch. *)

Definition Date := Z.
Definition Timestamp := Z.

(** Days since the epoch of the civil date [y]-[m]-[d] (proleptic Gregorian
    calendar), the value [to_date] gives for a ["yyyy-MM-dd"] literal. *)
Definition days_from_civil (y m d : Z) : Date :=
  let y' := if m <=? 2 then y - 1 else y in
  let era := y' / 400 in
  let yoe := y' - era * 400 in
  let mp := if 2 <? m then m - 3 else m + 9 in
  let doy := (153 * mp + 2) / 5 + d - 1 in
  let doe := yoe * 365 + yoe / 4 - yoe / 100 + doy in
  era * 146097 + doe - 719468.

(** [to_date(lit("9999-12-31"), "yyyy-MM-dd")]: the "still open" end date. *)
Definition sentinel_end_date : Date := days_from_civil 9999 12 31.

(** A date compared with a timestamp is cast to the timestamp of its
    midnight. *)
Definition timestamp_of_date (d : Date) : Timestamp := d * 86400000000.

(* ================================================================== *)
(** ** The dimension table [dim_customers_scd] *)

(** One row with the schema [get_metadata("dim_customers_scd")]. *)
Record Row := mkRow {
  customer_id : option Z;
  first_name : option string;
  last_name : option string;
  email : option string;
  phone : option string;
  number_of_orders : option Z;
  updated_at : option Timestamp;
  effective_start_date : option Date;
  effective_end_date : option Date;
  is_active : option bool
}.

Definition Table := list Row.

(** A record of the extracted batch, as [collect_customer_data] returns it:
    the seven source columns the job selects. *)
Record Customer := mkCustomer {
  c_customer_id : option Z;
  c_first_name : option string;
  c_last_name : option string;
  c_email : option string;
  c_phone : option string;
  c_number_of_orders : option Z;
  c_updated_at : option Timestamp
}.

(** The integer columns.  [spark.createDataFrame] infers [LongType] for
    a column of Python [int]s, and an [int] that does not fit 64 bits is
    stored as NULL. *)
Definition long_of_int (i : Z) : option Z :=
  if (- 2 ^ 63 <=? i) && (i <? 2 ^ 63) then Some i else None.

Definition long_column (v : option Z) : option Z :=
  match v with
  | Some i => long_of_int i
  | None => None
  end.

(** The cast of a [LongType] value to [IntegerType] (ANSI mode is off):
    the low 32 bits, read as a signed number. *)
Definition int_of_long (n : Z) : Z := (n + 2 ^ 31) mod 2 ^ 32 - 2 ^ 31.

(** The DataFrame [spark.createDataFrame(new_data)] gives for the
    records, once the column types are inferred, with the three columns
    added by [withColumn(..., lit(None))]. *)
Definition new_df (new_data : list Customer) : Table :=
  map (fun c => {| customer_id := long_column (c_customer_id c);
                   first_name := c_first_name c;
                   last_name := c_last_name c;
                   email := c_email c;
                   phone := c_phone c;
                   number_of_orders := long_column (c_number_of_orders c);
                   updated_at := c_updated_at c;
                   effective_start_date := None;
                   effective_end_date := None;
                   is_active := None |}) new_data.

(** The loop of [db_utils.cast_to_schema]: every column is cast to its
    type in the schema of [get_metadata].  [number_of_orders], inferred
    as [LongType], is cast to [IntegerType]; the other columns of the
    batch have their schema type already, the three columns added as
    [lit(None)] are NULL, and a cast leaves NULL as it is. *)
Definition cast_columns (df : Table) : Table :=
  map (fun r => {| customer_id := customer_id r;
                   first_name := first_name r;
                   last_name := last_name r;
                   email := email r;
                   phone := phone r;
                   number_of_orders := option_map int_of_long (number_of_orders r);
                   updated_at := updated_at r;
                   effective_start_date := effective_start_date r;
                   effective_end_date := effective_end_date r;
                   is_active := is_active r |}) df.

(** [delta_table.toDF().filter(col("is_active") == True)]. *)
Definition delta_df (table : Table) : Table :=
  filter (fun r => Sql.holds (is_active r == Some true)%sql) table.

(** *** The left join *)

(** A row of [joined]: the [src] columns and, when some active row
    matched, the [tgt] columns; an unmatched [src] row has every [tgt]
    column NULL. *)
Record Joined := mkJoined { src : Row; tgt : option Row }.

Definition tgt_col {A} (f : Row -> option A) (j : Joined) : option A :=
  match tgt j with Some t => f t | None => None end.

Definition src_col {A} (f : Row -> option A) (j : Joined) : option A :=
  f (src j).

(** The rows one [src] row gives in
    [src.join(tgt, col("tgt.customer_id") == col("src.customer_id"), "left")]. *)
Definition join_row (tgts : Table) (s : Row) : list Joined :=
  match filter (fun t => Sql.holds (customer_id t == customer_id s)%sql) tgts with
  | [] => [ {| src := s; tgt := None |} ]
  | ms => map (fun t => {| src := s; tgt := Some t |}) ms
  end.

Definition left_join (srcs tgts : Table) : list Joined :=
  flat_map (join_row tgts) srcs.

(** *** The three groups of the changeset *)

(** The filter condition of [updated_new_records] and of
    [updated_old_records] (the source writes the same expression twice). *)
Definition change_condition (j : Joined) : Sql.cond :=
  ((tgt_col customer_id j == src_col customer_id j) &&&
   ((tgt_col first_name j != src_col first_name j) |||
    (tgt_col last_name j != src_col last_name j) |||
    (tgt_col email j != src_col email j) |||
    (tgt_col phone j != src_col phone j) |||
    (tgt_col number_of_orders j != src_col number_of_orders j)))%sql.

(** The [select] of [updated_new_records], which is also that of
    [new_records]. *)
Definition select_new_version (current_date_utc : Date) (j : Joined) : Row :=
  {| customer_id := src_col customer_id j;
     first_name := src_col first_name j;
     last_name := src_col last_name j;
     email := src_col email j;
     phone := src_col phone j;
     number_of_orders := src_col number_of_orders j;
     updated_at := src_col updated_at j;
     effective_start_date := Some current_date_utc;
     effective_end_date := Some sentinel_end_date;
     is_active := Some true |}.

(** The [select] of [updated_old_records]. *)
Definition select_closed_version (current_date_utc : Date) (j : Joined) : Row :=
  {| customer_id := tgt_col customer_id j;
     first_name := tgt_col first_name j;
     last_name := tgt_col last_name j;
     email := tgt_col email j;
     phone := tgt_col phone j;
     number_of_orders := tgt_col number_of_orders j;
     updated_at := tgt_col updated_at j;
     effective_start_date := tgt_col effective_start_date j;
     effective_end_date := Some current_date_utc;
     is_active := Some false |}.

Definition updated_new_records (current_date_utc : Date) (joined : list Joined) : Table :=
  map (select_new_version current_date_utc)
      (filter (fun j => Sql.holds (change_condition j)) joined).

Definition updated_old_records (current_date_utc : Date) (joined : list Joined) : Table :=
  map (select_closed_version current_date_utc)
      (filter (fun j => Sql.holds (change_condition j)) joined).

Definition new_key_condition (j : Joined) : Sql.cond :=
  (Sql.isNotNull (src_col customer_id j) &&& Sql.isNull (tgt_col customer_id j))%sql.

Definition new_records (current_date_utc : Date) (joined : list Joined) : Table :=
  map (select_new_version current_date_utc)
      (filter (fun j => Sql.holds (new_key_condition j)) joined).

(** [joined] and
    [updated_old_records.union(updated_new_records).union(new_records)],
    for the cast batch [new_df_casted] against the stored [table]. *)
Definition final_changes (current_date_utc : Date) (table : Table)
    (new_df_casted : Table) : Table :=
  let joined := left_join new_df_casted (delta_df table) in
  updated_old_records current_date_utc joined
    ++ updated_new_records current_date_utc joined
    ++ new_records current_date_utc joined.

(* ================================================================== *)
(** ** The Delta merge *)

(** The merge condition of the job, [tgt] being a stored row and [src] a
    row of the changeset: the natural key and the five tracked
    attributes, compared with SQL [=]. *)
Definition merge_condition (t s : Row) : Sql.cond :=
  ((customer_id t == customer_id s) &&&
   (email t == email s) &&&
   (first_name t == first_name s) &&&
   (last_name t == last_name s) &&&
   (phone t == phone s) &&&
   (number_of_orders t == number_of_orders s))%sql.

Definition matches (t s : Row) : bool := Sql.holds (merge_condition t s).

(** The changeset rows that match the stored row [t]. *)
Definition matching_sources (changes : Table) (t : Row) : list Row :=
  filter (matches t) changes.

(** Does the changeset row [s] match some stored row? *)
Definition matched (table : Table) (s : Row) : bool :=
  existsb (fun t => matches t s) table.

(** [whenMatchedUpdateAll]: a stored row matched by a changeset row takes
    every column of that row. *)
Definition update_all (changes : Table) (t : Row) : Row :=
  match matching_sources changes t with
  | s :: _ => s
  | [] => t
  end.

(** [whenNotMatchedInsertAll]: the changeset rows that match no stored
    row are appended as they are. *)
Definition inserted_rows (table changes : Table) : Table :=
  filter (fun s => negb (matched table s)) changes.

(** [delta_table.merge(changes, condition).whenMatchedUpdateAll()
    .whenNotMatchedInsertAll().execute()].  Delta refuses the whole merge
    ([None]) when more than one changeset row matches the same stored
    row; otherwise every stored row is updated or kept and the unmatched
    changeset rows are inserted, in one commit. *)
Definition merge (table changes : Table) : option Table :=
  if existsb (fun t => (1 <? List.length (matching_sources changes t))%nat) table
  then None
  else Some (map (update_all changes) table ++ inserted_rows table changes).

(* ================================================================== *)
(** ** The [orders] fact table and the [future_orders] extract *)

(** One row with the schema [get_metadata("orders")]; [o_total_price] is
    the unscaled value of the [DecimalType(20, 4)]. *)
Record Order := mkOrder {
  o_order_id : option Z;
  o_order_name : option string;
  o_created_at : option Timestamp;
  o_processed_at : option Timestamp;
  o_updated_at : option Timestamp;
  o_financial_status : option string;
  o_customer_id : option Z;
  o_total_price : option Z;
  o_draft_type : option string;
  o_theme : option string;
  o_flavor : option string;
  o_allergies : option string;
  o_pickup_date : option Timestamp
}.

(** One row with the schema [get_metadata("future_orders")]. *)
Record FutureOrder := mkFutureOrder {
  f_order_name : option string;
  f_first_name : option string;
  f_financial_status : option string;
  f_draft_type : option string;
  f_theme : option string;
  f_flavor : option string;
  f_allergies : option string;
  f_pickup_date : option Timestamp
}.

(** [a > b] on timestamps, NULL when a side is NULL. *)
Definition sql_gt (a b : option Timestamp) : Sql.cond :=
  match a, b with
  | Some x, Some y => Some (y <? x)
  | _, _ => None
  end.

(** [WITH orders AS (SELECT * FROM bmd.orders WHERE pickup_date > current_date)]. *)
Definition orders_cte (current_date : Date) (orders : list Order) : list Order :=
  filter (fun o => Sql.holds (sql_gt (o_pickup_date o)
                                     (Some (timestamp_of_date current_date))))
         orders.

(** [customers AS (SELECT * FROM bmd.dim_customers_scd WHERE is_active = true)]. *)
Definition customers_cte (dim : Table) : Table :=
  filter (fun c => Sql.holds (is_active c == Some true)%sql) dim.

(** The select list of the query. *)
Definition select_future_order (c : Row) (o : Order) : FutureOrder :=
  {| f_order_name := o_order_name o;
     f_first_name := first_name c;
     f_financial_status := o_financial_status o;
     f_draft_type := o_draft_type o;
     f_theme := o_theme o;
     f_flavor := o_flavor o;
     f_allergies := o_allergies o;
     f_pickup_date := o_pickup_date o |}.

(** [customers c JOIN orders o ON c.customer_id = o.customer_id], with the
    select list applied. *)
Definition join_customers_orders (customers : Table) (orders : list Order)
    : list FutureOrder :=
  flat_map (fun c =>
    map (select_future_order c)
        (filter (fun o => Sql.holds (customer_id c == o_customer_id o)%sql) orders))
    customers.

(** The order of [ORDER BY o.pickup_date]: ascending, NULLs last. *)
Definition pickup_leb (a b : FutureOrder) : bool :=
  match f_pickup_date a, f_pickup_date b with
  | Some x, Some y => x <=? y
  | _, None => true
  | None, Some _ => false
  end.

Fixpoint insert_by (leb : FutureOrder -> FutureOrder -> bool)
    (x : FutureOrder) (l : list FutureOrder) : list FutureOrder :=
  match l with
  | [] => [x]
  | y :: l' => if leb x y then x :: l else y :: insert_by leb x l'
  end.

(** A sort for [ORDER BY]; the order among rows of equal [pickup_date] is
    the engine's choice, here the one of a stable insertion sort. *)
Definition order_by (leb : FutureOrder -> FutureOrder -> bool)
    (l : list FutureOrder) : list FutureOrder :=
  fold_right (insert_by leb) [] l.

(** The query of [future_orders_etl_job], evaluated on the two tables of
    the [bmd] schema at the engine's [current_date]. *)
Definition future_orders_query (current_date : Date) (orders : list Order)
    (dim : Table) : list FutureOrder :=
  order_by pickup_leb
    (join_customers_orders (customers_cte dim) (orders_cte current_date orders)).

(* ================================================================== *)
(** ** Jobs: storage, collaborators and effects *)

(** What a run does to the outside, in the order it does it. *)
Inductive Event :=
| Extracted (start_date end_date : string) (new_data : list Customer)
| Printed (line : string)
| Merged (changes : Table)
| Overwritten (rows : list FutureOrder)
| StartCrawler (crawler_name : string).

(** The storage the jobs write, and the trace of the run.  A path that
    holds no Delta table is [None]. *)
Record World := mkWorld {
  dim_customers_scd_table : option Table;
  future_orders_table : option (list FutureOrder);
  events : list Event
}.

(** Python exceptions, as far as the code tells them apart. *)
Inductive Exn :=
| CrawlerRunningException
| Exception (message : string).

Inductive Result (A : Type) :=
| Returned (a : A)
| Raised (e : Exn).
Arguments Returned {A} a.
Arguments Raised {A} e.

(** The collaborators a run reads: the clock, the extract source
    ([get_customers_by_date_range.collect_customer_data]), the Glue client
    of [boto3.client('glue', ...)], and the [bmd] schema the warehouse
    query reads. *)
Record Env := mkEnv {
  utc_today : Date;
  collect_customer_data : string -> string -> list Customer;
  glue_start_crawler : string -> Result string;
  bmd_orders : list Order;
  bmd_dim_customers_scd : Table;
  warehouse_current_date : Date
}.

(** A computation with effects on the [World] that returns or raises. *)
Definition Job (A : Type) : Type := World -> Result A * World.

Definition ret {A} (a : A) : Job A := fun w => (Returned a, w).

Definition bind {A B} (m : Job A) (k : A -> Job B) : Job B :=
  fun w => match m w with
           | (Returned a, w') => k a w'
           | (Raised e, w') => (Raised e, w')
           end.

Definition raise {A} (e : Exn) : Job A := fun w => (Raised e, w).

(** [try: body except ... as e: handler e]. *)
Definition try_except {A} (body : Job A) (handler : Exn -> Job A) : Job A :=
  fun w => match body w with
           | (Returned a, w') => (Returned a, w')
           | (Raised e, w') => handler e w'
           end.

Declare Scope job_scope.
Delimit Scope job_scope with job.
Notation "x <- c ;; k" := (bind c (fun x => k))
  (at level 61, c at next level, right associativity) : job_scope.
Notation "c ;; k" := (bind c (fun _ => k))
  (at level 61, right associativity) : job_scope.

Definition emit (ev : Event) : Job unit :=
  fun w => (Returned tt,
            {| dim_customers_scd_table := dim_customers_scd_table w;
               future_orders_table := future_orders_table w;
               events := events w ++ [ev] |}).

Definition print (line : string) : Job unit := emit (Printed line).

(** [client.start_crawler(Name=crawler_name)]. *)
Definition start_crawler (env : Env) (crawler_name : string) : Job string :=
  fun w => (glue_start_crawler env crawler_name,
            {| dim_customers_scd_table := dim_customers_scd_table w;
               future_orders_table := future_orders_table w;
               events := events w ++ [StartCrawler crawler_name] |}).

(** [db_utils.run_glue_crawler]. *)
Definition run_glue_crawler (env : Env) (crawler_name : string) : Job unit :=
  (try_except
     (response <- start_crawler env crawler_name ;;
      print ("Crawler " ++ crawler_name ++ " started successfully.") ;;
      print response)
     (fun e =>
        match e with
        | CrawlerRunningException =>
            print ("Crawler " ++ crawler_name ++ " is already running.")
        | Exception m =>
            print ("An error occurred: " ++ m)
        end))%job.

(** Does some record hold a value in the column? *)
Definition has_value {A} (column : Customer -> option A)
    (new_data : list Customer) : bool :=
  existsb (fun c => match column c with Some _ => true | None => false end)
          new_data.

(** [spark.createDataFrame(new_data)] is given no schema and infers the
    type of each column from the values of the records; a column that is
    [None] in every record gets no type. *)
Definition types_inferred (new_data : list Customer) : bool :=
  has_value c_customer_id new_data && has_value c_first_name new_data &&
  has_value c_last_name new_data && has_value c_email new_data &&
  has_value c_phone new_data && has_value c_number_of_orders new_data &&
  has_value c_updated_at new_data.

(** [spark.createDataFrame(new_data)]: it raises when the type of some
    column cannot be inferred. *)
Definition createDataFrame (new_data : list Customer) : Job (list Customer) :=
  if types_inferred new_data
  then ret new_data
  else raise (Exception "Some of types cannot be determined after inferring").

(** [db_utils.cast_to_schema]. *)
Definition cast_to_schema (df : Table) : Job Table :=
  (print "Casting dataframe to schema" ;;
   print "Schema Casting is completed." ;;
   ret (cast_columns df))%job.

(** [DeltaTable.isDeltaTable(spark, delta_table_path)] and its [else]
    branch. *)
Definition require_delta_table : Job unit :=
  fun w => match dim_customers_scd_table w with
           | Some _ => ret tt w
           | None => raise (Exception "Delta Table does NOT exists!") w
           end.

Definition extract (env : Env) (start_date end_date : string)
    : Job (list Customer) :=
  (let new_data := collect_customer_data env start_date end_date in
   emit (Extracted start_date end_date new_data) ;;
   ret new_data)%job.

(** The merge of the job: the changeset is computed from the snapshot of
    the table the merge reads (DataFrames are lazy), and the table is
    replaced in one commit or not at all. *)
Definition execute_merge (changeset : Table -> Table) : Job unit :=
  fun w => match dim_customers_scd_table w with
           | None => raise (Exception "Delta Table does NOT exists!") w
           | Some table =>
               match merge table (changeset table) with
               | None =>
                   raise (Exception "DELTA_MULTIPLE_SOURCE_ROW_MATCHING_TARGET_ROW_IN_MERGE") w
               | Some table' =>
                   (Returned tt,
                    {| dim_customers_scd_table := Some table';
                       future_orders_table := future_orders_table w;
                       events := events w ++ [Merged (changeset table)] |})
               end
           end.

(** [dim_customers_scd_etl_job]. *)
Definition dim_customers_scd_etl_job (env : Env) (start_date end_date : string)
    : Job unit :=
  (let current_date_utc := utc_today env in
   require_delta_table ;;
   new_data <- extract env start_date end_date ;;
   match new_data with
   | [] => print "There is no change, hence df is empty. Nothing to write!"
   | _ :: _ =>
       records <- createDataFrame new_data ;;
       new_df_casted <- cast_to_schema (new_df records) ;;
       print "Performing Writing Operation" ;;
       execute_merge (fun table => final_changes current_date_utc table new_df_casted) ;;
       print "writing operation is completed" ;;
       run_glue_crawler env "dimCustomersScdCrawler" ;;
       print "Crawler run is completed"
   end)%job.

(** [future_orders.write.format("delta").mode("overwrite").save(path)]. *)
Definition overwrite (rows : list FutureOrder) : Job unit :=
  fun w => (Returned tt,
            {| dim_customers_scd_table := dim_customers_scd_table w;
               future_orders_table := Some rows;
               events := events w ++ [Overwritten rows] |}).

(** [future_orders_etl_job]. *)
Definition future_orders_etl_job (env : Env) : Job unit :=
  (let future_orders :=
     future_orders_query (warehouse_current_date env) (bmd_orders env)
                         (bmd_dim_customers_scd env) in
   overwrite future_orders ;;
   run_glue_crawler env "weeklyStreamlineOrdersCrawler")%job.

(** Runs of the Reconciler one after the other, each on its own day's
    environment; the sequence stops at the first run that raises. *)
Fixpoint run_sequence (runs : list (Env * string * string)) : Job unit :=
  match runs with
  | [] => ret tt
  | (env, start_date, end_date) :: rest =>
      (dim_customers_scd_etl_job env start_date end_date ;; run_sequence rest)%job
  end.

(* ================================================================== *)
(** ** Vocabulary of the statements *)

(** The row the job builds from a batch record before the join: the row
    of [new_df_casted]. *)
Definition source_row (c : Customer) : Row :=
  {| customer_id := long_column (c_customer_id c);
     first_name := c_first_name c;
     last_name := c_last_name c;
     email := c_email c;
     phone := c_phone c;
     number_of_orders := option_map int_of_long (long_column (c_number_of_orders c));
     updated_at := c_updated_at c;
     effective_start_date := None;
     effective_end_date := None;
     is_active := None |}.

(** The changeset of a run: [final_changes] for the batch [new_data]. *)
Definition changeset (current_date_utc : Date) (table : Table)
    (new_data : list Customer) : Table :=
  final_changes current_date_utc table (cast_columns (new_df new_data)).

(** The tracked attributes of a row, and its merge identity: the natural
    key with the tracked attributes. *)
Definition tracked (r : Row) :=
  (first_name r, last_name r, email r, phone r, number_of_orders r).

Definition identity (r : Row) :=
  (customer_id r, email r, first_name r, last_name r, phone r, number_of_orders r).

(** The column [f] holds two different non-NULL values in [t] and [s]. *)
Definition differs {A} (f : Row -> option A) (t s : Row) : Prop :=
  exists x y, f t = Some x /\ f s = Some y /\ x <> y.

(** Natural key and tracked attributes are all non-NULL. *)
Definition complete (r : Row) : Prop :=
  customer_id r <> None /\ email r <> None /\ first_name r <> None /\
  last_name r <> None /\ phone r <> None /\ number_of_orders r <> None.

Definition active (r : Row) : bool := Sql.holds (is_active r == Some true)%sql.

Definition has_key (k : Z) (r : Row) : bool :=
  Sql.holds (customer_id r == Some k)%sql.

(** The number of active rows stored for the natural key [k]. *)
Definition active_count (k : Z) (table : Table) : nat :=
  List.length (filter (fun r => active r && has_key k r) table).

(** Every natural key present in the table has exactly one active row. *)
Definition single_active (table : Table) : Prop :=
  forall k, In (Some k) (map customer_id table) -> active_count k table = 1%nat.

(** The state the Reconciler keeps: complete rows, no two rows with the
    same natural key and tracked values, one active row per key. *)
Definition consistent (table : Table) : Prop :=
  Forall complete table /\ NoDup (map identity table) /\ single_active table.

(** A batch with complete records and at most one record per key. *)
Definition clean_batch (new_data : list Customer) : Prop :=
  Forall (fun c => complete (source_row c)) new_data /\
  NoDup (map c_customer_id new_data).

(** The natural keys of the batch, as the job reads them: one entry for
    each record whose key is not NULL. *)
Definition batch_keys (new_data : list Customer) : list Z :=
  flat_map (fun c => match customer_id (source_row c) with
                     | Some k => [k]
                     | None => []
                     end) new_data.

(** The closed version of the stored row [t]: its own values, key and
    [effective_start_date], closed on the run date. *)
Definition closed_version (run_date : Date) (t : Row) : Row :=
  {| customer_id := customer_id t;
     first_name := first_name t;
     last_name := last_name t;
     email := email t;
     phone := phone t;
     number_of_orders := number_of_orders t;
     updated_at := updated_at t;
     effective_start_date := effective_start_date t;
     effective_end_date := Some run_date;
     is_active := Some false |}.

(** The new active version with the values of the source row [s], open
    from the run date on. *)
Definition new_version (run_date : Date) (s : Row) : Row :=
  {| customer_id := customer_id s;
     first_name := first_name s;
     last_name := last_name s;
     email := email s;
     phone := phone s;
     number_of_orders := number_of_orders s;
     updated_at := updated_at s;
     effective_start_date := Some run_date;
     effective_end_date := Some sentinel_end_date;
     is_active := Some true |}.

(** The changeset rows one joined pair gives, over the three groups. *)
Definition pair_rows (current_date_utc : Date) (j : Joined) : list Row :=
  (if Sql.holds (change_condition j)
   then [select_closed_version current_date_utc j;
         select_new_version current_date_utc j]
   else [])
  ++ (if Sql.holds (new_key_condition j)
      then [select_new_version current_date_utc j]
      else []).

(** The changeset rows one batch record gives. *)
Definition record_rows (current_date_utc : Date) (tgts : Table) (s : Row)
    : list Row :=
  flat_map (pair_rows current_date_utc) (join_row tgts s).

(** What one complete batch record contributes on a table with one
    active row per key: nothing when the stored values are its own, the
    closed and the new version when they differ, and one new row when its
    key is not stored. *)
Inductive record_case (today : Date) (table : Table) (s : Row) (k : Z)
    : list Row -> Prop :=
| Unchanged (t : Row) :
    In t table -> is_active t = Some true -> customer_id t = Some k ->
    (forall t', In t' table -> is_active t' = Some true ->
                customer_id t' = Some k -> t' = t) ->
    identity t = identity s ->
    record_case today table s k []
| Changed (t : Row) :
    In t table -> is_active t = Some true -> customer_id t = Some k ->
    (forall t', In t' table -> is_active t' = Some true ->
                customer_id t' = Some k -> t' = t) ->
    identity t <> identity s ->
    record_case today table s k [closed_version today t; new_version today s]
| NewKey :
    (forall t, In t table -> customer_id t <> Some k) ->
    record_case today table s k [new_version today s].

(** What [run_glue_crawler] adds to the trace, for each answer of the
    Glue client. *)
Definition crawler_events (env : Env) (crawler_name : string) : list Event :=
  StartCrawler crawler_name ::
  match glue_start_crawler env crawler_name with
  | Returned response =>
      [Printed ("Crawler " ++ crawler_name ++ " started successfully.");
       Printed response]
  | Raised CrawlerRunningException =>
      [Printed ("Crawler " ++ crawler_name ++ " is already running.")]
  | Raised (Exception m) =>
      [Printed ("An error occurred: " ++ m)]
  end.

(** The world with other tables and more events. *)
Definition with_events (w : World) (evs : list Event) : World :=
  {| dim_customers_scd_table := dim_customers_scd_table w;
     future_orders_table := future_orders_table w;
     events := events w ++ evs |}.

(** The table a run leaves when its merge succeeds. *)
Definition reconciled (current_date_utc : Date) (table : Table)
    (new_data : list Customer) : Table :=
  let changes := changeset current_date_utc table new_data in
  map (update_all changes) table ++ inserted_rows table changes.

(** Ascending [pickup_date] between two rows of the extract. *)
Definition pickup_le (a b : FutureOrder) : Prop :=
  exists x y, f_pickup_date a = Some x /\ f_pickup_date b = Some y /\ x <= y.


(* ================================================================== *)
(** ** Concrete tables and batches of the examples *)

Definition day_2024_01_01 : Date := days_from_civil 2024 1 1.
Definition day_2024_06_01 : Date := days_from_civil 2024 6 1.
Definition day_2024_07_01 : Date := days_from_civil 2024 7 1.

(** A batch record of customer [k]. *)
Definition customer (k : Z) (name : string) (phone : option string) (orders : Z)
    : Customer :=
  {| c_customer_id := Some k;
     c_first_name := Some name;
     c_last_name := Some "Liddell";
     c_email := Some "customer@example.com";
     c_phone := phone;
     c_number_of_orders := Some orders;
     c_updated_at := Some 1704067200000000 |}.

(** The active row a first run on [day_2024_01_01] stores for a record. *)
Definition stored (c : Customer) : Row := new_version day_2024_01_01 (source_row c).

(** Customer 1 without a phone number, stored with two orders. *)
Definition alice_no_phone : Customer := customer 1 "Alice" None 2.

(** The same customer, the phone number now known. *)
Definition alice_with_phone : Customer := customer 1 "Alice" (Some "555-0100") 2.

(** The same customer without a phone number, with a third order. *)
Definition alice_no_phone_3 : Customer := customer 1 "Alice" None 3.

(** The scenario of the specification: Alice stored with two orders;
    the batch brings her third order and the new customer Bob. *)
Definition alice_2 : Customer := customer 1 "Alice" (Some "555-0100") 2.
Definition alice_3 : Customer := customer 1 "Alice" (Some "555-0100") 3.
Definition bob_1 : Customer := customer 2 "Bob" (Some "555-0199") 1.

(** A record without natural key. *)
Definition anonymous : Customer :=
  {| c_customer_id := None;
     c_first_name := Some "Nobody";
     c_last_name := None;
     c_email := None;
     c_phone := None;
     c_number_of_orders := Some 0;
     c_updated_at := None |}.

(** A record without natural key, every other column filled in. *)
Definition walk_in : Customer :=
  {| c_customer_id := None;
     c_first_name := Some "Carol";
     c_last_name := Some "Liddell";
     c_email := Some "customer@example.com";
     c_phone := Some "555-0123";
     c_number_of_orders := Some 1;
     c_updated_at := Some 1704067200000000 |}.

(** A Glue client whose [start_crawler] always fails. *)
Definition failing_glue (crawler_name : string) : Result string :=
  Raised (Exception "An error occurred (AccessDeniedException)").

(** An environment around one batch, on the given day. *)
Definition env_with (run_date : Date) (new_data : list Customer) : Env :=
  {| utc_today := run_date;
     collect_customer_data := fun _ _ => new_data;
     glue_start_crawler := failing_glue;
     bmd_orders := [];
     bmd_dim_customers_scd := [];
     warehouse_current_date := run_date |}.

(** A world that holds the dimension table [table] and nothing else. *)
Definition world_with (table : Table) : World :=
  {| dim_customers_scd_table := Some table;
     future_orders_table := None;
     events := [] |}.

(** The table after Alice's third order: her first version closed on
    [day_2024_06_01], the second one active. *)
Definition alice_history : Table :=
  [ closed_version day_2024_06_01 (stored alice_2);
    new_version day_2024_06_01 (source_row alice_3) ].

(** The dates of a run do not matter to the examples. *)
Definition may : string := "2024-05-01".
Definition june : string := "2024-06-01".

(** Two runs: the scenario of the specification, then a run that brings
    Alice's fourth order. *)
Definition two_runs : list (Env * string * string) :=
  [ (env_with day_2024_06_01 [alice_3; bob_1], may, june);
    (env_with day_2024_07_01 [customer 1 "Alice" (Some "555-0100") 4], may, june) ].


(* ================================================================== *)
(** ** Further vocabulary: traces, histories and validity intervals *)

(** The ways a run of the Reconciler ends, with the world it leaves. *)
Inductive reconciler_run (env : Env) (start_date end_date : string) (w : World)
    : Result unit * World -> Prop :=
| NoTable :
    dim_customers_scd_table w = None ->
    reconciler_run env start_date end_date w
      (Raised (Exception "Delta Table does NOT exists!"), w)
| NothingToDo (table : Table) :
    dim_customers_scd_table w = Some table ->
    collect_customer_data env start_date end_date = [] ->
    reconciler_run env start_date end_date w
      (Returned tt,
       with_events w
         [Extracted start_date end_date [];
          Printed "There is no change, hence df is empty. Nothing to write!"])
| Untyped (table : Table) :
    dim_customers_scd_table w = Some table ->
    collect_customer_data env start_date end_date <> [] ->
    types_inferred (collect_customer_data env start_date end_date) = false ->
    reconciler_run env start_date end_date w
      (Raised (Exception "Some of types cannot be determined after inferring"),
       with_events w
         [Extracted start_date end_date
                    (collect_customer_data env start_date end_date)])
| Refused (table : Table) :
    dim_customers_scd_table w = Some table ->
    collect_customer_data env start_date end_date <> [] ->
    types_inferred (collect_customer_data env start_date end_date) = true ->
    merge table (changeset (utc_today env) table
                           (collect_customer_data env start_date end_date)) = None ->
    reconciler_run env start_date end_date w
      (Raised (Exception "DELTA_MULTIPLE_SOURCE_ROW_MATCHING_TARGET_ROW_IN_MERGE"),
       with_events w
         [Extracted start_date end_date
                    (collect_customer_data env start_date end_date);
          Printed "Casting dataframe to schema";
          Printed "Schema Casting is completed.";
          Printed "Performing Writing Operation"])
| Committed (table table' : Table) :
    dim_customers_scd_table w = Some table ->
    collect_customer_data env start_date end_date <> [] ->
    types_inferred (collect_customer_data env start_date end_date) = true ->
    merge table (changeset (utc_today env) table
                           (collect_customer_data env start_date end_date))
    = Some table' ->
    reconciler_run env start_date end_date w
      (Returned tt,
       {| dim_customers_scd_table := Some table';
          future_orders_table := future_orders_table w;
          events := events w ++
            [Extracted start_date end_date
                       (collect_customer_data env start_date end_date);
             Printed "Casting dataframe to schema";
             Printed "Schema Casting is completed.";
             Printed "Performing Writing Operation";
             Merged (changeset (utc_today env) table
                               (collect_customer_data env start_date end_date));
             Printed "writing operation is completed"]
            ++ crawler_events env "dimCustomersScdCrawler"
            ++ [Printed "Crawler run is completed"] |}).

Definition is_merge (ev : Event) : bool :=
  match ev with Merged _ => true | _ => false end.

Definition is_start_crawler (ev : Event) : bool :=
  match ev with StartCrawler _ => true | _ => false end.

(** The rows stored for the natural key [k], active or closed. *)
Definition history (k : Z) (table : Table) : Table := filter (has_key k) table.

(** The rows stored without natural key. *)
Definition keyless (table : Table) : Table :=
  filter (fun r => Sql.holds (Sql.isNull (customer_id r))) table.

(** The batch records with the natural key [k], as the job reads the keys
    (after [createDataFrame] and the cast). *)
Definition records_of (k : Z) (new_data : list Customer) : list Customer :=
  filter (fun c => has_key k (source_row c)) new_data.

(** [is_active] says what [effective_end_date] says: the row is active
    exactly when its end date is the "still open" date. *)
Definition flag_agrees (r : Row) : Prop :=
  is_active r = Some true <-> effective_end_date r = Some sentinel_end_date.

(** The validity interval of the row is well formed and starts no later
    than [day]. *)
Definition interval_until (day : Date) (r : Row) : Prop :=
  exists a b, effective_start_date r = Some a /\ effective_end_date r = Some b /\
              a <= b /\ a <= day.

(** Does some active dimension row carry the customer of the order? *)
Definition has_active_customer (dim : Table) (o : Order) : bool :=
  existsb (fun c => active c && Sql.holds (customer_id c == o_customer_id o)%sql) dim.

(** Does the batch record carry a natural key, as the job reads it (after
    [createDataFrame] and the cast)? *)
Definition keyed (c : Customer) : bool :=
  Sql.holds (Sql.isNotNull (customer_id (source_row c))).

(** A warehouse for the examples of the extract: Alice's history as the
    dimension, and three orders: one of Alice to be picked up after
    [day_2024_07_01], one of an unknown customer, one of Alice in the
    past. *)
Definition order_of (k : Z) (order_name : string) (pickup : Date) : Order :=
  {| o_order_id := Some 1;
     o_order_name := Some order_name;
     o_created_at := None;
     o_processed_at := None;
     o_updated_at := None;
     o_financial_status := Some "paid";
     o_customer_id := Some k;
     o_total_price := Some 250000;
     o_draft_type := None;
     o_theme := None;
     o_flavor := None;
     o_allergies := None;
     o_pickup_date := Some (timestamp_of_date pickup + 36000000000) |}.

Definition extract_env : Env :=
  {| utc_today := day_2024_07_01;
     collect_customer_data := fun _ _ => [];
     glue_start_crawler := failing_glue;
     bmd_orders := [ order_of 1 "#1001" (days_from_civil 2024 8 1);
                     order_of 3 "#1002" (days_from_civil 2024 8 2);
                     order_of 1 "#0999" day_2024_06_01 ];
     bmd_dim_customers_scd := alice_history;
     warehouse_current_date := day_2024_07_01 |}.

(* ================================================================== *)
(** ** [db_utils]: schemas, metadata and the Glue format *)

(** The Spark data types the schemas of [get_metadata] use. *)
Inductive DataType :=
| LongType
| StringType
| TimestampType
| DoubleType
| IntegerType
| DateType
| BooleanType
| DecimalType (precision scale : Z).

(** [StructField(name, dataType, nullable)]. *)
Record StructField := mkStructField {
  field_name : string;
  dataType : DataType;
  nullable : bool
}.

(** [StructType(fields)], by its [fields]. *)
Definition StructType := list StructField.

(** [type(field.dataType).__name__]. *)
Definition type_name (t : DataType) : string :=
  match t with
  | LongType => "LongType"
  | StringType => "StringType"
  | TimestampType => "TimestampType"
  | DoubleType => "DoubleType"
  | IntegerType => "IntegerType"
  | DateType => "DateType"
  | BooleanType => "BooleanType"
  | DecimalType _ _ => "DecimalType"
  end.

(** A Python [dict] with string keys, by its items. *)
Definition Dict (V : Type) := list (string * V).

(** [d.get(key)]: the value of the first item with the key. *)
Fixpoint dict_get {V} (d : Dict V) (key : string) : option V :=
  match d with
  | [] => None
  | (k, v) :: d' => if String.eqb k key then Some v else dict_get d' key
  end.

(** The [type_mapping] of [convert_schema_to_glue_format]. *)
Definition type_mapping : Dict string :=
  [ ("LongType", "bigint");
    ("StringType", "string");
    ("TimestampType", "timestamp");
    ("DoubleType", "double") ].

(** [{'Name': ..., 'Type': ...}]. *)
Record GlueColumn := mkGlueColumn {
  col_Name : string;
  col_Type : string
}.

(** The loop of [convert_schema_to_glue_format]: the fields are visited
    in order, and a field whose type name is a key of [type_mapping]
    appends its column to [glue_schema]. *)
Definition glue_columns (schema : StructType) : list GlueColumn :=
  fold_left
    (fun glue_schema field =>
       let field_type := type_name (dataType field) in
       match dict_get type_mapping field_type with
       | Some glue_type =>
           glue_schema ++ [ {| col_Name := field_name field; col_Type := glue_type |} ]
       | None => glue_schema
       end)
    schema [].

(** What [get_metadata] returns for a table. *)
Record Metadata := mkMetadata {
  schema : StructType;
  delta_table_path : string
}.

Definition dim_customers_scd_schema : StructType :=
  [ mkStructField "customer_id" LongType true;
    mkStructField "first_name" StringType true;
    mkStructField "last_name" StringType true;
    mkStructField "email" StringType true;
    mkStructField "phone" StringType true;
    mkStructField "number_of_orders" IntegerType true;
    mkStructField "updated_at" TimestampType true;
    mkStructField "effective_start_date" DateType true;
    mkStructField "effective_end_date" DateType true;
    mkStructField "is_active" BooleanType true ].

Definition orders_schema : StructType :=
  [ mkStructField "order_id" LongType true;
    mkStructField "order_name" StringType true;
    mkStructField "created_at" TimestampType true;
    mkStructField "processed_at" TimestampType true;
    mkStructField "updated_at" TimestampType true;
    mkStructField "financial_status" StringType true;
    mkStructField "customer_id" LongType true;
    mkStructField "total_price" (DecimalType 20 4) true;
    mkStructField "draft_type" StringType true;
    mkStructField "theme" StringType true;
    mkStructField "flavor" StringType true;
    mkStructField "allergies" StringType true;
    mkStructField "pickup_date" TimestampType true ].

Definition weekly_streamline_orders_schema : StructType :=
  [ mkStructField "order_name" StringType true;
    mkStructField "first_name" StringType true;
    mkStructField "draft_type" StringType true;
    mkStructField "theme" StringType true;
    mkStructField "flavor" StringType true;
    mkStructField "allergies" StringType true;
    mkStructField "pickup_date" TimestampType true ].

Definition future_orders_schema : StructType :=
  [ mkStructField "order_name" StringType true;
    mkStructField "first_name" StringType true;
    mkStructField "financial_status" StringType true;
    mkStructField "draft_type" StringType true;
    mkStructField "theme" StringType true;
    mkStructField "flavor" StringType true;
    mkStructField "allergies" StringType true;
    mkStructField "pickup_date" TimestampType true ].

(** The [metadata] dictionary of [get_metadata]. *)
Definition metadata : Dict Metadata :=
  [ ("dim_customers_scd",
     mkMetadata dim_customers_scd_schema
                "s3a://devbmdanalayticsdata/gold/dim_customers_scd");
    ("orders",
     mkMetadata orders_schema "s3a://devbmdanalayticsdata/silver/orders");
    ("weekly_streamline_orders",
     mkMetadata weekly_streamline_orders_schema
                "s3a://devbmdanalayticsdata/gold/weekly_streamline_orders");
    ("future_orders",
     mkMetadata future_orders_schema
                "s3a://devbmdanalayticsdata/gold/future_orders") ].

(** [get_metadata]: [metadata[table_name]], a [KeyError] for a name that
    is not a key. *)
Definition get_metadata (table_name : string) : Result Metadata :=
  match dict_get metadata table_name with
  | Some m => Returned m
  | None => Raised (Exception ("KeyError: " ++ table_name))
  end.

(** Has the type of the field a Glue type in [type_mapping]? *)
Definition supported (f : StructField) : bool :=
  match dataType f with
  | LongType | StringType | TimestampType | DoubleType => true
  | _ => false
  end.

(** The Glue type of a supported Spark type. *)
Definition glue_type (t : DataType) : string :=
  match t with
  | LongType => "bigint"
  | StringType => "string"
  | TimestampType => "timestamp"
  | DoubleType => "double"
  | _ => ""
  end.

(* ================================================================== *)
(** ** [db_utils]: Delta tables, the session catalog and the Glue catalog *)

(** A Delta table at a path: its schema and its rows, whatever the type
    of a row is. *)
Record DeltaData (R : Type) := mkDeltaData {
  data_schema : StructType;
  data_rows : list R
}.
Arguments mkDeltaData {R} data_schema data_rows.
Arguments data_schema {R} d.
Arguments data_rows {R} d.

(** A line on the console: a text, or a text that ends with the [repr]
    of a schema. *)
Inductive Line :=
| Say (text : string)
| SaySchema (text : string) (schema : StructType).

(** The storage and the session catalog the table utilities work on: the
    paths that hold a Delta table, the tables the catalog knows with
    their locations, the SQL statements run so far and the console. *)
Record Lakehouse (R : Type) := mkLakehouse {
  delta_paths : Dict (DeltaData R);
  spark_catalog : Dict string;
  statements : list string;
  console : list Line
}.
Arguments mkLakehouse {R} delta_paths spark_catalog statements console.
Arguments delta_paths {R} l.
Arguments spark_catalog {R} l.
Arguments statements {R} l.
Arguments console {R} l.

(** The Spark session, as far as it can fail: the error, if any, with
    which it refuses to run a statement. *)
Record Session := mkSession {
  sql_error : string -> option string
}.

(** Computations on a state [S] that return or raise. *)
Definition Eff (S A : Type) : Type := S -> Result A * S.

Definition eff_ret {S A} (a : A) : Eff S A := fun s => (Returned a, s).

Definition eff_bind {S A B} (m : Eff S A) (k : A -> Eff S B) : Eff S B :=
  fun s => match m s with
           | (Returned a, s') => k a s'
           | (Raised e, s') => (Raised e, s')
           end.

Definition eff_raise {S A} (e : Exn) : Eff S A := fun s => (Raised e, s).

(** [try: body except Exception as e: handler e]. *)
Definition eff_try {S A} (body : Eff S A) (handler : Exn -> Eff S A) : Eff S A :=
  fun s => match body s with
           | (Returned a, s') => (Returned a, s')
           | (Raised e, s') => handler e s'
           end.

Declare Scope eff_scope.
Delimit Scope eff_scope with eff.
Notation "x <- c ;; k" := (eff_bind c (fun x => k))
  (at level 61, c at next level, right associativity) : eff_scope.
Notation "c ;; k" := (eff_bind c (fun _ => k))
  (at level 61, right associativity) : eff_scope.

Definition say {R} (line : Line) : Eff (Lakehouse R) unit :=
  fun l => (Returned tt,
            {| delta_paths := delta_paths l;
               spark_catalog := spark_catalog l;
               statements := statements l;
               console := console l ++ [line] |}).

(** The items of a dictionary without the key. *)
Definition dict_remove {V} (d : Dict V) (key : string) : Dict V :=
  filter (fun item => negb (String.eqb (fst item) key)) d.

(** [f"CREATE TABLE IF NOT EXISTS {table_name} USING DELTA LOCATION '{delta_table_path}'"]. *)
Definition create_table_statement (table_name delta_table_path : string) : string :=
  "CREATE TABLE IF NOT EXISTS " ++ table_name ++ " USING DELTA LOCATION '"
    ++ delta_table_path ++ "'".

(** [f"DROP TABLE IF EXISTS {table_name}"]. *)
Definition drop_table_statement (table_name : string) : string :=
  "DROP TABLE IF EXISTS " ++ table_name.

(** [empty_df.write.format("delta").save(delta_table_path)]: the save
    mode is the default one, which refuses a path that holds a Delta
    table already. *)
Definition save_delta {R} (data : DeltaData R) (delta_table_path : string)
    : Eff (Lakehouse R) unit :=
  fun l => match dict_get (delta_paths l) delta_table_path with
           | Some _ =>
               (Raised (Exception ("DELTA_PATH_EXISTS: " ++ delta_table_path)), l)
           | None =>
               (Returned tt,
                {| delta_paths := (delta_table_path, data) :: delta_paths l;
                   spark_catalog := spark_catalog l;
                   statements := statements l;
                   console := console l |})
           end.

(** [spark_session.sql(CREATE TABLE IF NOT EXISTS ... LOCATION ...)]: a
    name the catalog knows is left as it is; a new name is registered at
    the location. *)
Definition sql_create_table {R} (session : Session)
    (table_name delta_table_path : string) : Eff (Lakehouse R) unit :=
  fun l =>
    let statement := create_table_statement table_name delta_table_path in
    match sql_error session statement with
    | Some error => (Raised (Exception error), l)
    | None =>
        (Returned tt,
         {| delta_paths := delta_paths l;
            spark_catalog :=
              match dict_get (spark_catalog l) table_name with
              | Some _ => spark_catalog l
              | None => (table_name, delta_table_path) :: spark_catalog l
              end;
            statements := statements l ++ [statement];
            console := console l |})
    end.

(** [spark_session.sql(DROP TABLE IF EXISTS ...)]: the tables of the
    utilities are registered with a location (external tables), so the
    catalog forgets the name and the files at the location stay. *)
Definition sql_drop_table {R} (session : Session) (table_name : string)
    : Eff (Lakehouse R) unit :=
  fun l =>
    let statement := drop_table_statement table_name in
    match sql_error session statement with
    | Some error => (Raised (Exception error), l)
    | None =>
        (Returned tt,
         {| delta_paths := delta_paths l;
            spark_catalog := dict_remove (spark_catalog l) table_name;
            statements := statements l ++ [statement];
            console := console l |})
    end.

(** [create_delta_table]. *)
Definition create_delta_table {R} (spark_session : Session)
    (delta_table_path table_name : string) (schema : StructType)
    : Eff (Lakehouse R) unit :=
  (say (SaySchema "Creating an empty DataFrame with the schema: " schema) ;;
   let empty_df := mkDeltaData schema (@nil R) in
   say (Say ("Writing the empty DataFrame to Delta format at path: "
             ++ delta_table_path)) ;;
   save_delta empty_df delta_table_path ;;
   say (Say ("Creating Delta table '" ++ table_name ++ "' at location '"
             ++ delta_table_path ++ "'")) ;;
   sql_create_table spark_session table_name delta_table_path ;;
   say (Say ("Delta table '" ++ table_name ++ "' created successfully.")))%eff.

(** [show_create_delta_table]. *)
Definition show_create_delta_table {R} (delta_table_path table_name : string)
    : Eff (Lakehouse R) unit :=
  say (Say (create_table_statement table_name delta_table_path)).

(** [drop_delta_table]; [delta_table_path] is a parameter the body does
    not use. *)
Definition drop_delta_table {R} (spark_session : Session)
    (delta_table_path table_name : string) : Eff (Lakehouse R) unit :=
  (eff_try
     (sql_drop_table spark_session table_name ;;
      say (Say ("Delta table '" ++ table_name ++ "' dropped successfully.")))
     (fun e =>
        say (Say ("An error occurred while dropping the Delta table: "
                  ++ match e with
                     | Exception m => m
                     | CrawlerRunningException => "CrawlerRunningException"
                     end))))%eff.

(** [read_delta_table_by_path]: the table at the path, an error when the
    path holds none. *)
Definition read_delta_table_by_path {R} (path : string)
    : Eff (Lakehouse R) (DeltaData R) :=
  fun l => match dict_get (delta_paths l) path with
           | Some data => (Returned data, l)
           | None => (Raised (Exception ("DELTA_MISSING_DELTA_TABLE: " ++ path)), l)
           end.

(** [convert_schema_to_glue_format]: the loop between its two prints. *)
Definition convert_schema_to_glue_format {R} (schema : StructType)
    : Eff (Lakehouse R) (list GlueColumn) :=
  (say (Say "Starting conversion of Spark StructType to Glue format...") ;;
   let glue_schema := glue_columns schema in
   say (Say "Conversion completed. Resulting Glue schema:") ;;
   eff_ret glue_schema)%eff.

(** The [table_input] of [create_glue_delta_table], by the entries that
    vary: the name, the columns and the location; the formats, the serde,
    the table type and the parameters are constants of the source. *)
Record TableInput := mkTableInput {
  ti_Name : string;
  ti_Columns : list GlueColumn;
  ti_Location : string
}.

(** The Glue client: what [create_table(DatabaseName, TableInput)]
    returns or raises. *)
Record GlueClient := mkGlueClient {
  glue_create_table : string -> TableInput -> Result unit
}.

(** [create_glue_delta_table]. *)
Definition create_glue_delta_table {R} (glue : GlueClient) (database_name : string)
    (schema : StructType) (table_name delta_table_path : string)
    : Eff (Lakehouse R) unit :=
  (glue_schema <- convert_schema_to_glue_format schema ;;
   let table_input := {| ti_Name := table_name;
                         ti_Columns := glue_schema;
                         ti_Location := delta_table_path |} in
   say (Say "Glue table is being created") ;;
   (fun l => (glue_create_table glue database_name table_input, l)) ;;
   say (Say "Glue table is ready."))%eff.

(** A lakehouse with nothing in it, and a session that runs every
    statement. *)
Definition empty_lakehouse : Lakehouse Row :=
  {| delta_paths := []; spark_catalog := []; statements := []; console := [] |}.

Definition willing_session : Session := {| sql_error := fun _ => None |}.

Definition refusing_session : Session :=
  {| sql_error := fun _ => Some "catalog is not reachable" |}.
(* ================================================================== *)
(** ** Three-valued logic *)

Example sentinel_is_9999_12_31 : sentinel_end_date = 2932896.
Proof. reflexivity. Qed.

Section SqlFacts.

Context {A : Type} `{Sql.Value A}.

Lemma holds_eq (a b : option A) :
  Sql.holds (a == b)%sql = true <-> exists x, a = Some x /\ b = Some x.
Proof.
  destruct a as [x|], b as [y|]; simpl; split;
    try discriminate; try (intros [z [? ?]]; discriminate).
  - destruct (Sql.val_eqb x y) eqn:E; [|discriminate].
    apply (proj1 (Sql.val_eqb_eq x y)) in E. subst. intros _. exists y. now split.
  - intros [z [Hx Hy]]. inversion Hx; inversion Hy; subst.
    assert (E : Sql.val_eqb z z = true) by now apply (proj2 (Sql.val_eqb_eq z z)).
    now rewrite E.
Qed.

Lemma holds_ne (a b : option A) :
  Sql.holds (a != b)%sql = true <->
  exists x y, a = Some x /\ b = Some y /\ x <> y.
Proof.
  destruct a as [x|], b as [y|]; simpl; split;
    try discriminate; try (intros (? & ? & ? & ? & ?); discriminate).
  - destruct (Sql.val_eqb x y) eqn:E; [discriminate|].
    intros _. exists x, y. split; [reflexivity|]. split; [reflexivity|].
    intros Hxy. apply (proj2 (Sql.val_eqb_eq x y)) in Hxy. congruence.
  - intros (x' & y' & Hx & Hy & Hne). inversion Hx; inversion Hy; subst.
    destruct (Sql.val_eqb x' y') eqn:E; [|reflexivity].
    apply (proj1 (Sql.val_eqb_eq x' y')) in E. contradiction.
Qed.

Lemma holds_eq_refl (a : option A) :
  a <> None -> Sql.holds (a == a)%sql = true.
Proof.
  intros Ha. apply holds_eq. destruct a as [x|]; [eauto|contradiction].
Qed.

Lemma holds_eq_null_l (b : option A) : Sql.holds (None == b)%sql = false.
Proof. reflexivity. Qed.

Lemma holds_eq_null_r (a : option A) : Sql.holds (a == None)%sql = false.
Proof. now destruct a. Qed.

End SqlFacts.

Lemma holds_and (a b : Sql.cond) :
  Sql.holds (a &&& b)%sql = Sql.holds a && Sql.holds b.
Proof. destruct a as [[|]|], b as [[|]|]; reflexivity. Qed.

Lemma holds_or (a b : Sql.cond) :
  Sql.holds (a ||| b)%sql = Sql.holds a || Sql.holds b.
Proof. destruct a as [[|]|], b as [[|]|]; reflexivity. Qed.

(** The change condition on a matched pair, in two-valued form. *)
Lemma change_condition_matched (s t : Row) :
  Sql.holds (change_condition {| src := s; tgt := Some t |}) =
  Sql.holds (customer_id t == customer_id s)%sql &&
  (Sql.holds (first_name t != first_name s)%sql ||
   Sql.holds (last_name t != last_name s)%sql ||
   Sql.holds (email t != email s)%sql ||
   Sql.holds (phone t != phone s)%sql ||
   Sql.holds (number_of_orders t != number_of_orders s)%sql).
Proof.
  unfold change_condition, tgt_col, src_col; simpl.
  now rewrite holds_and, !holds_or.
Qed.

Lemma change_condition_unmatched (s : Row) :
  Sql.holds (change_condition {| src := s; tgt := None |}) = false.
Proof.
  reflexivity.
Qed.

Lemma new_key_condition_matched (s t : Row) :
  customer_id t <> None ->
  Sql.holds (new_key_condition {| src := s; tgt := Some t |}) = false.
Proof.
  intros Ht. unfold new_key_condition, tgt_col, src_col; simpl.
  rewrite holds_and. destruct (customer_id t); [|contradiction].
  apply andb_false_r.
Qed.

Lemma new_key_condition_unmatched (s : Row) :
  Sql.holds (new_key_condition {| src := s; tgt := None |}) =
  match customer_id s with Some _ => true | None => false end.
Proof.
  unfold new_key_condition, tgt_col, src_col; simpl.
  now destruct (customer_id s).
Qed.

(* ================================================================== *)
(** ** The join and the changeset *)

Lemma cast_new_df (new_data : list Customer) :
  cast_columns (new_df new_data) = map source_row new_data.
Proof. unfold cast_columns, new_df. now rewrite map_map. Qed.

(** A value that [createDataFrame] keeps is the value of the record. *)
Lemma long_of_int_Some (i k : Z) :
  long_of_int i = Some k <-> i = k /\ - 2 ^ 63 <= k < 2 ^ 63.
Proof.
  unfold long_of_int.
  destruct (- 2 ^ 63 <=? i) eqn:E1; destruct (i <? 2 ^ 63) eqn:E2; simpl;
    (split; [try discriminate; intros [= <-] | intros [<- H]]);
    try (split; [reflexivity|]); try reflexivity; lia.
Qed.

Lemma long_column_Some (v : option Z) (k : Z) :
  long_column v = Some k <-> v = Some k /\ - 2 ^ 63 <= k < 2 ^ 63.
Proof.
  destruct v as [i|]; simpl.
  - rewrite long_of_int_Some. split; intros [H1 H2]; (split; [congruence|exact H2]).
  - split; [discriminate|]. intros [H _]. discriminate.
Qed.

Lemma source_row_key (c : Customer) (k : Z) :
  customer_id (source_row c) = Some k -> c_customer_id c = Some k.
Proof. simpl. intros H. now apply long_column_Some in H. Qed.

(** The two conversions on the values that mark their range. *)
Example integer_columns_at_the_limits :
  long_of_int (2 ^ 63 - 1) = Some 9223372036854775807 /\
  long_of_int (2 ^ 63) = None /\
  long_of_int (- 2 ^ 63) = Some (-9223372036854775808) /\
  long_of_int (- 2 ^ 63 - 1) = None /\
  int_of_long 2147483647 = 2147483647 /\
  int_of_long 2147483648 = -2147483648 /\
  int_of_long (2 ^ 32 + 2) = 2.
Proof. repeat split. Qed.

(** The cast to [IntegerType] leaves a value of 32 bits as it is. *)
Lemma int_of_long_small (n : Z) :
  - 2 ^ 31 <= n < 2 ^ 31 -> int_of_long n = n.
Proof.
  intros H. unfold int_of_long.
  rewrite Z.mod_small; lia.
Qed.

Lemma join_row_unmatched (tgts : Table) (s : Row) :
  (forall t, In t tgts -> Sql.holds (customer_id t == customer_id s)%sql = false) ->
  join_row tgts s = [ {| src := s; tgt := None |} ].
Proof.
  intros Hno. unfold join_row.
  destruct (filter _ tgts) as [|t ms] eqn:E; [reflexivity|].
  assert (Ht : In t (filter (fun t => Sql.holds (customer_id t == customer_id s)%sql) tgts))
    by (rewrite E; now left).
  apply filter_In in Ht. destruct Ht as [Hin Hk].
  rewrite (Hno t Hin) in Hk. discriminate.
Qed.

(** The rows of the left join for one source row: either the row alone,
    when no target has its key, or one pair per target with its key. *)
Lemma In_join_row (tgts : Table) (s : Row) (j : Joined) :
  In j (join_row tgts s) <->
  src j = s /\
  match tgt j with
  | Some t => In t tgts /\ Sql.holds (customer_id t == customer_id s)%sql = true
  | None => forall t, In t tgts ->
                      Sql.holds (customer_id t == customer_id s)%sql = false
  end.
Proof.
  unfold join_row.
  destruct (filter _ tgts) as [|t0 ms] eqn:E.
  - split.
    + intros [<-|[]]. split; [reflexivity|]. simpl. intros t Hin.
      destruct (Sql.holds (customer_id t == customer_id s)%sql) eqn:Hk; [|reflexivity].
      assert (Hf : In t (filter (fun t => Sql.holds (customer_id t == customer_id s)%sql) tgts))
        by (apply filter_In; now split).
      rewrite E in Hf. destruct Hf.
    + destruct j as [s' [t|]]; simpl; intros [-> Hj].
      * destruct Hj as [Hin Hk].
        assert (Hf : In t (filter (fun t => Sql.holds (customer_id t == customer_id s)%sql) tgts))
          by (apply filter_In; now split).
        rewrite E in Hf. destruct Hf.
      * now left.
  - rewrite <- E. rewrite in_map_iff. split.
    + intros [t [<- Hin]]. apply filter_In in Hin. now simpl.
    + destruct j as [s' [t|]]; simpl; intros [-> Hj].
      * exists t. split; [reflexivity|]. now apply filter_In.
      * assert (Hin : In t0 (filter (fun t => Sql.holds (customer_id t == customer_id s)%sql) tgts))
          by (rewrite E; now left).
        apply filter_In in Hin. destruct Hin as [Hin Hk].
        rewrite (Hj t0 Hin) in Hk. discriminate.
Qed.

Lemma flat_map_flat_map {X Y W : Type} (f : Y -> list W) (g : X -> list Y)
    (l : list X) :
  flat_map f (flat_map g l) = flat_map (fun x => flat_map f (g x)) l.
Proof.
  induction l as [|x l IH]; simpl; [reflexivity|].
  now rewrite flat_map_app, IH.
Qed.

(** The union of the three groups holds, pair by pair, the rows of
    [pair_rows]. *)
Lemma changeset_by_pairs (today : Date) (joined : list Joined) :
  Permutation
    (updated_old_records today joined
       ++ updated_new_records today joined ++ new_records today joined)
    (flat_map (pair_rows today) joined).
Proof.
  unfold updated_old_records, updated_new_records, new_records.
  induction joined as [|j l IH]; simpl; [constructor|].
  unfold pair_rows at 1.
  destruct (Sql.holds (change_condition j)), (Sql.holds (new_key_condition j));
    simpl.
  - apply perm_skip. etransitivity; [|apply perm_skip, perm_skip, IH].
    etransitivity; [symmetry; apply Permutation_middle|]. apply perm_skip.
    rewrite app_assoc.
    etransitivity; [symmetry; apply Permutation_middle|].
    now rewrite <- app_assoc.
  - apply perm_skip. etransitivity; [|apply perm_skip, IH].
    symmetry. apply Permutation_middle.
  - etransitivity; [|apply perm_skip, IH].
    rewrite app_assoc.
    etransitivity; [symmetry; apply Permutation_middle|].
    now rewrite <- app_assoc.
  - exact IH.
Qed.

(** The changeset, record by record of the batch. *)
Lemma changeset_by_records (today : Date) (table : Table)
    (new_data : list Customer) :
  Permutation (changeset today table new_data)
              (flat_map (fun c => record_rows today (delta_df table) (source_row c))
                        new_data).
Proof.
  unfold changeset, final_changes. rewrite cast_new_df.
  etransitivity; [apply changeset_by_pairs|].
  unfold left_join, record_rows.
  rewrite flat_map_flat_map, flat_map_concat_map, map_map, <- flat_map_concat_map.
  reflexivity.
Qed.

Lemma In_changeset (today : Date) (table : Table)
    (new_data : list Customer) (r : Row) :
  In r (changeset today table new_data) <->
  exists c j, In c new_data /\
              In j (join_row (delta_df table) (source_row c)) /\
              In r (pair_rows today j).
Proof.
  split.
  - intros Hr.
    apply (Permutation_in _ (changeset_by_records today table new_data)) in Hr.
    apply in_flat_map in Hr. destruct Hr as [c [Hc Hr]].
    apply in_flat_map in Hr. destruct Hr as [j [Hj Hr]]. eauto.
  - intros (c & j & Hc & Hj & Hr).
    apply (Permutation_in _
             (Permutation_sym (changeset_by_records today table new_data))).
    apply in_flat_map. exists c. split; [assumption|].
    apply in_flat_map. eauto.
Qed.

Lemma In_delta_df (table : Table) (t : Row) :
  In t (delta_df table) <-> In t table /\ is_active t = Some true.
Proof.
  unfold delta_df. rewrite filter_In. split; intros [Hin Ha]; split; try assumption.
  - apply holds_eq in Ha. destruct Ha as [x [Ha Hx]]. congruence.
  - apply holds_eq. exists true. now split.
Qed.

(* ================================================================== *)
(** ** The merge *)

Lemma matches_iff (t s : Row) :
  matches t s = true <-> complete t /\ identity t = identity s.
Proof.
  unfold matches, merge_condition, complete, identity.
  rewrite !holds_and, !andb_true_iff, !holds_eq. split.
  - intros [[[[[[k [-> ->]] [e [-> ->]]] [f [-> ->]]] [l [-> ->]]] [p [-> ->]]] [n [-> ->]]].
    repeat split; discriminate.
  - intros [(Hk & He & Hf & Hl & Hp & Hn) Hid]. inversion Hid.
    destruct (customer_id t) as [k|]; [|contradiction].
    destruct (email t) as [e|]; [|contradiction].
    destruct (first_name t) as [f|]; [|contradiction].
    destruct (last_name t) as [l|]; [|contradiction].
    destruct (phone t) as [p|]; [|contradiction].
    destruct (number_of_orders t) as [n|]; [|contradiction].
    repeat split; eauto.
Qed.

Lemma matches_same_key (t s : Row) :
  matches t s = true -> customer_id t = customer_id s.
Proof. intros H. apply matches_iff in H. destruct H as [_ H]. now inversion H. Qed.

Lemma merge_nil (table : Table) : merge table [] = Some table.
Proof.
  unfold merge, matching_sources, inserted_rows; simpl.
  assert (E : existsb (fun _ : Row => (1 <? 0)%nat) table = false)
    by (induction table; simpl; auto).
  rewrite E, app_nil_r. f_equal.
  induction table as [|t l IH]; simpl; [reflexivity|]. now rewrite IH.
Qed.

Lemma merge_Some (table changes table' : Table) :
  merge table changes = Some table' ->
  table' = map (update_all changes) table ++ inserted_rows table changes /\
  forall t, In t table -> (List.length (matching_sources changes t) <= 1)%nat.
Proof.
  unfold merge.
  destruct (existsb _ table) eqn:E; [discriminate|].
  intros [= <-]. split; [reflexivity|]. intros t Hin.
  destruct (Nat.ltb_spec 1 (List.length (matching_sources changes t))) as [Hlt|Hle];
    [|assumption].
  assert (Hex : existsb (fun t => (1 <? List.length (matching_sources changes t))%nat)
                        table = true).
  { apply existsb_exists. exists t. split; [assumption|]. now apply Nat.ltb_lt. }
  congruence.
Qed.

Lemma merge_succeeds (table changes : Table) :
  (forall t, In t table -> (List.length (matching_sources changes t) <= 1)%nat) ->
  merge table changes =
  Some (map (update_all changes) table ++ inserted_rows table changes).
Proof.
  intros Hle. unfold merge.
  destruct (existsb _ table) eqn:E; [|reflexivity].
  apply existsb_exists in E. destruct E as [t [Hin Hlt]].
  apply Nat.ltb_lt in Hlt. specialize (Hle t Hin). lia.
Qed.

Lemma In_inserted_rows (table changes : Table) (r : Row) :
  In r (inserted_rows table changes) <->
  In r changes /\ forall t, In t table -> matches t r = false.
Proof.
  unfold inserted_rows, matched. rewrite filter_In, negb_true_iff. split.
  - intros [Hin Hno]. split; [assumption|]. intros t Ht.
    destruct (matches t r) eqn:E; [|reflexivity].
    assert (Hex : existsb (fun t => matches t r) table = true)
      by (apply existsb_exists; eauto).
    congruence.
  - intros [Hin Hno]. split; [assumption|].
    destruct (existsb _ table) eqn:E; [|reflexivity].
    apply existsb_exists in E. destruct E as [t [Ht Hm]].
    rewrite (Hno t Ht) in Hm. discriminate.
Qed.

(** Lists without duplicates whose elements are all the same. *)
Lemma NoDup_constant_length {X Y : Type} (f : X -> Y) (y : Y) (l : list X) :
  NoDup (map f l) -> (forall x, In x l -> f x = y) -> (List.length l <= 1)%nat.
Proof.
  destruct l as [|a [|b l]]; simpl; intros Hnd Hall; try lia.
  inversion Hnd as [|? ? Hnotin _]; subst. exfalso. apply Hnotin. left.
  rewrite (Hall a), (Hall b); auto.
Qed.

Lemma NoDup_map_filter {X Y : Type} (f : X -> Y) (p : X -> bool) (l : list X) :
  NoDup (map f l) -> NoDup (map f (filter p l)).
Proof.
  induction l as [|a l IH]; simpl; intros Hnd; [constructor|].
  inversion Hnd as [|? ? Hnotin Hnd']; subst.
  destruct (p a); simpl; [|auto]. constructor; [|auto].
  intros Hin. apply Hnotin. apply in_map_iff in Hin.
  destruct Hin as [x [Hx Hin]]. apply filter_In in Hin.
  apply in_map_iff. exists x. tauto.
Qed.

Lemma NoDup_map_injective {X Y : Type} (f : X -> Y) (l : list X) (a b : X) :
  NoDup (map f l) -> In a l -> In b l -> f a = f b -> a = b.
Proof.
  induction l as [|x l IH]; simpl; intros Hnd Ha Hb Hf; [contradiction|].
  inversion Hnd as [|? ? Hnotin Hnd']; subst.
  destruct Ha as [->|Ha], Hb as [->|Hb]; auto.
  - exfalso. apply Hnotin. rewrite Hf. now apply in_map.
  - exfalso. apply Hnotin. rewrite <- Hf. now apply in_map.
Qed.

Section MergeDistinct.

(** A changeset whose rows have pairwise different merge identities. *)
Variables (table changes : Table).
Hypothesis changes_distinct : NoDup (map identity changes).

Lemma matching_sources_at_most_one (t : Row) :
  (List.length (matching_sources changes t) <= 1)%nat.
Proof.
  unfold matching_sources.
  apply (NoDup_constant_length identity (identity t)).
  - now apply NoDup_map_filter.
  - intros s Hs. apply filter_In in Hs. destruct Hs as [_ Hm].
    apply matches_iff in Hm. symmetry. tauto.
Qed.

Lemma update_all_matched (t s : Row) :
  In s changes -> matches t s = true -> update_all changes t = s.
Proof.
  intros Hin Hm. unfold update_all.
  pose proof (matching_sources_at_most_one t) as Hle.
  assert (Hs : In s (matching_sources changes t)) by (apply filter_In; now split).
  destruct (matching_sources changes t) as [|a [|b l]]; simpl in *.
  - contradiction.
  - now destruct Hs.
  - lia.
Qed.

Lemma update_all_unmatched (t : Row) :
  (forall s, In s changes -> matches t s = false) -> update_all changes t = t.
Proof.
  intros Hno. unfold update_all.
  destruct (matching_sources changes t) as [|a l] eqn:E; [reflexivity|].
  assert (Ha : In a (matching_sources changes t)) by (rewrite E; now left).
  apply filter_In in Ha. destruct Ha as [Hin Hm].
  rewrite (Hno a Hin) in Hm. discriminate.
Qed.

Lemma update_all_cases (t : Row) :
  (update_all changes t = t /\ forall s, In s changes -> matches t s = false) \/
  (In (update_all changes t) changes /\ matches t (update_all changes t) = true).
Proof.
  unfold update_all.
  destruct (matching_sources changes t) as [|a l] eqn:E.
  - left. split; [reflexivity|]. intros s Hs.
    destruct (matches t s) eqn:Hm; [|reflexivity].
    assert (Hf : In s (matching_sources changes t)) by (apply filter_In; now split).
    rewrite E in Hf. destruct Hf.
  - right. assert (Ha : In a (matching_sources changes t)) by (rewrite E; now left).
    now apply filter_In in Ha.
Qed.

Lemma update_all_identity (t : Row) :
  identity (update_all changes t) = identity t.
Proof.
  destruct (update_all_cases t) as [[-> _]|[_ Hm]]; [reflexivity|].
  apply matches_iff in Hm. symmetry. tauto.
Qed.

Lemma merge_distinct :
  merge table changes =
  Some (map (update_all changes) table ++ inserted_rows table changes).
Proof.
  apply merge_succeeds. intros t _. apply matching_sources_at_most_one.
Qed.

Hypothesis table_complete : Forall complete table.

(** The merged table: the changeset, and the stored rows whose identity
    no changeset row carries. *)
Lemma In_merged (r : Row) :
  In r (map (update_all changes) table ++ inserted_rows table changes) <->
  In r changes \/
  (In r table /\ forall s, In s changes -> identity s <> identity r).
Proof.
  rewrite in_app_iff, in_map_iff, In_inserted_rows. split.
  - intros [[t [<- Ht]]|[Hin _]]; [|now left].
    destruct (update_all_cases t) as [[-> Hno]|[Hin _]]; [|now left].
    right. split; [assumption|]. intros s Hs Hid.
    assert (Hm : matches t s = true).
    { apply matches_iff. split; [|now symmetry].
      rewrite Forall_forall in table_complete. auto. }
    rewrite (Hno s Hs) in Hm. discriminate.
  - intros [Hin|[Hin Hno]].
    + destruct (existsb (fun t => matches t r) table) eqn:E.
      * apply existsb_exists in E. destruct E as [t [Ht Hm]].
        left. exists t. split; [|assumption]. now apply update_all_matched.
      * right. split; [assumption|]. intros t Ht.
        destruct (matches t r) eqn:Hm; [|reflexivity].
        assert (Hex : existsb (fun t => matches t r) table = true)
          by (apply existsb_exists; eauto).
        congruence.
    + left. exists r. split; [|assumption]. apply update_all_unmatched.
      intros s Hs. destruct (matches r s) eqn:Hm; [|reflexivity].
      apply matches_iff in Hm. destruct Hm as [_ Hid].
      exfalso. apply (Hno s Hs). now symmetry.
Qed.

Hypothesis table_distinct : NoDup (map identity table).

Lemma merged_distinct :
  NoDup (map identity
             (map (update_all changes) table ++ inserted_rows table changes)).
Proof.
  rewrite map_app. apply NoDup_app.
  - rewrite map_map.
    rewrite (map_ext _ identity update_all_identity). assumption.
  - unfold inserted_rows. now apply NoDup_map_filter.
  - intros i Hi Hins. rewrite map_map in Hi.
    rewrite (map_ext _ identity update_all_identity) in Hi.
    apply in_map_iff in Hi. destruct Hi as [t [<- Ht]].
    apply in_map_iff in Hins. destruct Hins as [r [Hid Hr]].
    apply In_inserted_rows in Hr. destruct Hr as [_ Hno].
    assert (Hm : matches t r = true).
    { apply matches_iff. split; [|now symmetry].
      rewrite Forall_forall in table_complete. auto. }
    rewrite (Hno t Ht) in Hm. discriminate.
Qed.

End MergeDistinct.

(* ================================================================== *)
(** ** Change detection *)

Lemma change_condition_iff (s t : Row) :
  Sql.holds (change_condition {| src := s; tgt := Some t |}) = true <->
  (exists k, customer_id t = Some k /\ customer_id s = Some k) /\
  (differs first_name t s \/ differs last_name t s \/ differs email t s \/
   differs phone t s \/ differs number_of_orders t s).
Proof.
  rewrite change_condition_matched, andb_true_iff, !orb_true_iff.
  rewrite holds_eq, !holds_ne. unfold differs. tauto.
Qed.

(** On complete rows with the same key the condition says that the
    merge identities differ. *)
Lemma change_condition_complete (s t : Row) :
  complete s -> complete t -> customer_id t = customer_id s ->
  (Sql.holds (change_condition {| src := s; tgt := Some t |}) = true <->
   identity t <> identity s).
Proof.
  intros (Hk & He & Hf & Hl & Hp & Hn) (Hk' & He' & Hf' & Hl' & Hp' & Hn') Hkey.
  rewrite change_condition_matched. unfold identity. rewrite Hkey.
  destruct (customer_id s) as [k|]; [|contradiction].
  destruct (email s) as [e|]; [|contradiction].
  destruct (first_name s) as [f|]; [|contradiction].
  destruct (last_name s) as [l|]; [|contradiction].
  destruct (phone s) as [p|]; [|contradiction].
  destruct (number_of_orders s) as [n|]; [|contradiction].
  destruct (email t) as [e'|]; [|contradiction].
  destruct (first_name t) as [f'|]; [|contradiction].
  destruct (last_name t) as [l'|]; [|contradiction].
  destruct (phone t) as [p'|]; [|contradiction].
  destruct (number_of_orders t) as [n'|]; [|contradiction].
  simpl. rewrite Z.eqb_refl. simpl.
  destruct (String.eqb_spec f' f), (String.eqb_spec l' l), (String.eqb_spec e' e),
    (String.eqb_spec p' p), (Z.eqb_spec n' n); simpl; split;
    solve [ congruence | intros _; congruence | intros H; exfalso; apply H; congruence ].
Qed.

(* ================================================================== *)
(** ** The changeset on a consistent table *)

Lemma filter_filter_andb {X : Type} (f g : X -> bool) (l : list X) :
  filter f (filter g l) = filter (fun x => g x && f x) l.
Proof.
  induction l as [|x l IH]; simpl; [reflexivity|].
  destruct (g x); simpl; [|assumption]. destruct (f x); now rewrite IH.
Qed.

Lemma join_filter_active (table : Table) (s : Row) (k : Z) :
  customer_id s = Some k ->
  filter (fun t => Sql.holds (customer_id t == customer_id s)%sql) (delta_df table)
  = filter (fun r => active r && has_key k r) table.
Proof.
  intros Hk. unfold delta_df. rewrite filter_filter_andb.
  apply filter_ext. intros r. unfold active, has_key. now rewrite Hk.
Qed.

Lemma has_key_iff (k : Z) (r : Row) : has_key k r = true <-> customer_id r = Some k.
Proof.
  unfold has_key. rewrite holds_eq. split.
  - intros [x [Hr Hx]]. congruence.
  - intros ->. now exists k.
Qed.

Lemma active_iff (r : Row) : active r = true <-> is_active r = Some true.
Proof.
  unfold active. rewrite holds_eq. split.
  - intros [x [Hr Hx]]. congruence.
  - intros ->. now exists true.
Qed.

Lemma select_closed_version_eq (today : Date) (s t : Row) :
  select_closed_version today {| src := s; tgt := Some t |} = closed_version today t.
Proof. reflexivity. Qed.

Lemma select_new_version_eq (today : Date) (j : Joined) :
  select_new_version today j = new_version today (src j).
Proof. reflexivity. Qed.

Lemma identity_closed_version (today : Date) (t : Row) :
  identity (closed_version today t) = identity t.
Proof. reflexivity. Qed.

Lemma identity_new_version (today : Date) (s : Row) :
  identity (new_version today s) = identity s.
Proof. reflexivity. Qed.

Lemma identity_key (r r' : Row) :
  identity r = identity r' -> customer_id r = customer_id r'.
Proof. unfold identity. now intros [= -> _ _ _ _ _]. Qed.

Lemma record_rows_cases (today : Date) (table : Table) (s : Row) (k : Z) :
  consistent table -> complete s -> customer_id s = Some k ->
  record_case today table s k (record_rows today (delta_df table) s).
Proof.
  intros (Hc & _ & Hone) Hs Hk. rewrite Forall_forall in Hc.
  unfold record_rows, join_row.
  rewrite (join_filter_active table s k Hk).
  destruct (filter (fun r => active r && has_key k r) table) as [|t ms] eqn:E.
  - (* no active row with this key: the key is not stored at all *)
    simpl. rewrite app_nil_r. unfold pair_rows.
    rewrite change_condition_unmatched, new_key_condition_unmatched, Hk. simpl.
    rewrite select_new_version_eq. simpl. apply NewKey.
    intros t Ht Htk.
    assert (Hcount : active_count k table = 1%nat).
    { apply Hone. rewrite <- Htk. now apply in_map. }
    unfold active_count in Hcount. rewrite E in Hcount. discriminate.
  - assert (Ht : In t (filter (fun r => active r && has_key k r) table))
      by (rewrite E; now left).
    apply filter_In in Ht. destruct Ht as [Hin Hak].
    apply andb_true_iff in Hak. destruct Hak as [Ha Hkt].
    apply active_iff in Ha. apply has_key_iff in Hkt.
    assert (Hcount : active_count k table = 1%nat).
    { apply Hone. rewrite <- Hkt. now apply in_map. }
    unfold active_count in Hcount. rewrite E in Hcount.
    destruct ms as [|? ?]; [|discriminate].
    assert (Huniq : forall t', In t' table -> is_active t' = Some true ->
                               customer_id t' = Some k -> t' = t).
    { intros t' Hin' Ha' Hk'.
      assert (Hf : In t' (filter (fun r => active r && has_key k r) table)).
      { apply filter_In. split; [assumption|]. apply andb_true_iff.
        split; [now apply active_iff | now apply has_key_iff]. }
      rewrite E in Hf. destruct Hf as [->|[]]. reflexivity. }
    simpl. rewrite app_nil_r. unfold pair_rows.
    rewrite new_key_condition_matched by (rewrite Hkt; discriminate).
    rewrite app_nil_r.
    assert (Hkey : customer_id t = customer_id s) by congruence.
    pose proof (change_condition_complete s t Hs (Hc t Hin) Hkey) as Hch.
    destruct (Sql.holds (change_condition {| src := s; tgt := Some t |})).
    + rewrite select_closed_version_eq, select_new_version_eq. simpl.
      apply (Changed today table s k t); auto. now apply Hch.
    + apply (Unchanged today table s k t); auto.
      destruct (identity t) as [[[[[a b] c] d] e] f] eqn:Hit.
      destruct (identity s) as [[[[[a' b'] c'] d'] e'] f'] eqn:His.
      unfold complete in Hs. pose proof (Hc t Hin) as Hct. unfold complete in Hct.
      unfold identity in Hit, His. inversion Hit; inversion His; subst.
      clear Hit His.
      destruct (customer_id s) as [ks|]; [|tauto].
      destruct (email s) as [es|]; [|tauto].
      destruct (first_name s) as [fs|]; [|tauto].
      destruct (last_name s) as [ls|]; [|tauto].
      destruct (phone s) as [ps|]; [|tauto].
      destruct (number_of_orders s) as [ns|]; [|tauto].
      destruct (customer_id t) as [kt|]; [|tauto].
      destruct (email t) as [et|]; [|tauto].
      destruct (first_name t) as [ft|]; [|tauto].
      destruct (last_name t) as [lt|]; [|tauto].
      destruct (phone t) as [pt|]; [|tauto].
      destruct (number_of_orders t) as [nt|]; [|tauto].
      destruct (Z.eq_dec kt ks), (string_dec et es), (string_dec ft fs),
        (string_dec lt ls), (string_dec pt ps), (Z.eq_dec nt ns);
        subst; try reflexivity;
        exfalso; assert (Hf : false = true) by (apply Hch; congruence);
        discriminate.
Qed.

Lemma record_case_rows (today : Date) (table : Table) (s : Row) (k : Z)
    (rows : list Row) :
  Forall complete table -> complete s -> customer_id s = Some k ->
  record_case today table s k rows ->
  NoDup (map identity rows) /\
  forall r, In r rows -> customer_id r = Some k /\ complete r.
Proof.
  intros Hc Hs Hk Hcase. rewrite Forall_forall in Hc.
  destruct Hcase as [t Hin Ha Hkt Huniq Hid | t Hin Ha Hkt Huniq Hid | Hno].
  - split; [constructor|]. intros r [].
  - split.
    + simpl. rewrite identity_closed_version, identity_new_version.
      constructor; [|constructor; [intros []|constructor]].
      intros [Heq|[]]. apply Hid. now symmetry.
    + intros r [<-|[<-|[]]]; simpl.
      * split; [assumption|]. exact (Hc t Hin).
      * split; [assumption|]. exact Hs.
  - split; [simpl; constructor; [intros []|constructor]|].
    intros r [<-|[]]. split; [assumption|]. exact Hs.
Qed.

Lemma length_one_unique {X : Type} (l : list X) (r : X) :
  NoDup l -> In r l -> (forall x, In x l -> x = r) -> List.length l = 1%nat.
Proof.
  destruct l as [|a [|b l]]; simpl; intros Hnd Hin Hall.
  - contradiction.
  - reflexivity.
  - inversion Hnd as [|? ? Hnotin _]; subst. exfalso. apply Hnotin. left.
    rewrite (Hall a), (Hall b); auto.
Qed.

(** Counting the active rows of a key, on a table without duplicates. *)
Lemma active_count_one (k : Z) (table : Table) :
  NoDup (map identity table) ->
  (active_count k table = 1%nat <->
   exists r, In r table /\ is_active r = Some true /\ customer_id r = Some k /\
             forall r', In r' table -> is_active r' = Some true ->
                        customer_id r' = Some k -> r' = r).
Proof.
  intros Hnd. unfold active_count. split.
  - intros Hlen.
    destruct (filter (fun r => active r && has_key k r) table) as [|r [|? ?]] eqn:E;
      try discriminate.
    assert (Hr : In r (filter (fun r => active r && has_key k r) table))
      by (rewrite E; now left).
    apply filter_In in Hr. destruct Hr as [Hin Hak].
    apply andb_true_iff in Hak. destruct Hak as [Ha Hk].
    exists r. split; [assumption|].
    split; [now apply active_iff|]. split; [now apply has_key_iff|].
    intros r' Hin' Ha' Hk'.
    assert (Hf : In r' (filter (fun r => active r && has_key k r) table)).
    { apply filter_In. split; [assumption|]. apply andb_true_iff.
      split; [now apply active_iff | now apply has_key_iff]. }
    rewrite E in Hf. now destruct Hf as [->|[]].
  - intros (r & Hin & Ha & Hk & Huniq).
    apply (length_one_unique _ r).
    + apply NoDup_filter. exact (NoDup_map_inv _ _ Hnd).
    + apply filter_In. split; [assumption|]. apply andb_true_iff.
      split; [now apply active_iff | now apply has_key_iff].
    + intros x Hx. apply filter_In in Hx. destruct Hx as [Hx Hak].
      apply andb_true_iff in Hak. destruct Hak as [Hax Hkx].
      apply Huniq; [assumption | now apply active_iff | now apply has_key_iff].
Qed.

Lemma option_Z_eq_dec (a b : option Z) : {a = b} + {a <> b}.
Proof. decide equality. apply Z.eq_dec. Qed.

Lemma clean_batch_cons (c : Customer) (new_data : list Customer) :
  clean_batch (c :: new_data) ->
  complete (source_row c) /\ ~ In (c_customer_id c) (map c_customer_id new_data) /\
  clean_batch new_data.
Proof.
  intros [Hc Hnd]. inversion Hc; subst. inversion Hnd; subst.
  unfold clean_batch. tauto.
Qed.

Lemma complete_key (r : Row) : complete r -> exists k, customer_id r = Some k.
Proof.
  intros [Hk _]. destruct (customer_id r) as [k|]; [eauto|contradiction].
Qed.

(** The rows a clean batch gives on a consistent table carry pairwise
    different merge identities. *)
Lemma records_distinct (today : Date) (table : Table) (new_data : list Customer) :
  consistent table -> clean_batch new_data ->
  NoDup (map identity
             (flat_map (fun c => record_rows today (delta_df table) (source_row c))
                       new_data)).
Proof.
  intros Hcons. induction new_data as [|c l IH]; intros Hclean; simpl; [constructor|].
  apply clean_batch_cons in Hclean. destruct Hclean as (Hc & Hnotin & Hl).
  destruct (complete_key _ Hc) as [k Hk].
  pose proof (record_rows_cases today table _ k Hcons Hc Hk) as Hcase.
  destruct (record_case_rows today table _ k _ (proj1 Hcons) Hc Hk Hcase)
    as [Hnd Hrows].
  rewrite map_app. apply NoDup_app; [assumption | now apply IH |].
  intros i Hi Hi'.
  apply in_map_iff in Hi. destruct Hi as [r [<- Hr]].
  apply in_map_iff in Hi'. destruct Hi' as [r' [Hid Hr']].
  apply in_flat_map in Hr'. destruct Hr' as [c' [Hc' Hr']].
  destruct Hl as [Hlc _]. rewrite Forall_forall in Hlc.
  destruct (complete_key _ (Hlc c' Hc')) as [k' Hk'].
  pose proof (record_rows_cases today table _ k' Hcons (Hlc c' Hc') Hk') as Hcase'.
  destruct (record_case_rows today table _ k' _ (proj1 Hcons) (Hlc c' Hc') Hk' Hcase')
    as [_ Hrows'].
  apply identity_key in Hid.
  rewrite (proj1 (Hrows r Hr)), (proj1 (Hrows' r' Hr')) in Hid.
  apply Hnotin. apply source_row_key in Hk, Hk'. rewrite Hk, <- Hid, <- Hk'.
  now apply in_map.
Qed.

Lemma complete_source_key (c : Customer) (k : Z) :
  complete (source_row c) -> c_customer_id c = Some k ->
  customer_id (source_row c) = Some k.
Proof.
  intros Hc Hk. destruct (complete_key _ Hc) as [k' Hk'].
  pose proof (source_row_key _ _ Hk') as Hraw. congruence.
Qed.

Section ReconcileStep.

(** One run on a consistent table with a clean batch. *)
Variables (today : Date) (table : Table) (new_data : list Customer).
Hypothesis table_consistent : consistent table.
Hypothesis batch_clean : clean_batch new_data.

Local Abbreviation changes := (changeset today table new_data).
Local Abbreviation merged := (reconciled today table new_data).

Lemma batch_record_case (c : Customer) :
  In c new_data ->
  exists k, c_customer_id c = Some k /\
            record_case today table (source_row c) k
                        (record_rows today (delta_df table) (source_row c)).
Proof.
  intros Hc. destruct batch_clean as [Hall _]. rewrite Forall_forall in Hall.
  destruct (complete_key _ (Hall c Hc)) as [k Hk]. exists k.
  split; [now apply source_row_key|].
  now apply record_rows_cases; [|apply Hall|].
Qed.

Lemma In_changes (r : Row) :
  In r changes <->
  exists c, In c new_data /\
            In r (record_rows today (delta_df table) (source_row c)).
Proof.
  split.
  - intros Hr.
    apply (Permutation_in _ (changeset_by_records today table new_data)) in Hr.
    now apply in_flat_map in Hr.
  - intros Hr.
    apply (Permutation_in _
             (Permutation_sym (changeset_by_records today table new_data))).
    now apply in_flat_map.
Qed.

Lemma same_key_same_record (c c' : Customer) :
  In c new_data -> In c' new_data -> c_customer_id c = c_customer_id c' -> c = c'.
Proof.
  destruct batch_clean as [_ Hnd]. now apply NoDup_map_injective.
Qed.

Lemma changes_origin (r : Row) :
  In r changes ->
  exists c k, In c new_data /\ c_customer_id c = Some k /\
              In r (record_rows today (delta_df table) (source_row c)) /\
              customer_id r = Some k /\ complete r.
Proof.
  intros Hr. apply In_changes in Hr. destruct Hr as [c [Hc Hr]].
  destruct (batch_record_case c Hc) as [k [Hk Hcase]].
  destruct batch_clean as [Hall _]. rewrite Forall_forall in Hall.
  destruct (record_case_rows today table _ k _ (proj1 table_consistent)
              (Hall c Hc) (complete_source_key _ _ (Hall c Hc) Hk) Hcase)
    as [_ Hrows].
  exists c, k. repeat split; try assumption; now apply Hrows.
Qed.

Lemma changes_complete : Forall complete changes.
Proof.
  apply Forall_forall. intros r Hr.
  destruct (changes_origin r Hr) as (c & k & _ & _ & _ & _ & Hc). exact Hc.
Qed.

Lemma changes_distinct : NoDup (map identity changes).
Proof.
  eapply Permutation_NoDup;
    [apply Permutation_map, Permutation_sym, changeset_by_records|].
  now apply records_distinct.
Qed.

Lemma reconcile_merge : merge table changes = Some merged.
Proof. apply merge_distinct. exact changes_distinct. Qed.

Lemma In_merged_table (r : Row) :
  In r merged <->
  In r changes \/ (In r table /\ forall s, In s changes -> identity s <> identity r).
Proof.
  apply In_merged; [exact changes_distinct | exact (proj1 table_consistent)].
Qed.

Lemma merged_complete : Forall complete merged.
Proof.
  apply Forall_forall. intros r Hr. apply In_merged_table in Hr.
  destruct Hr as [Hr|[Hr _]].
  - pose proof changes_complete as Hc. rewrite Forall_forall in Hc. auto.
  - destruct table_consistent as [Hc _]. rewrite Forall_forall in Hc. auto.
Qed.

Lemma merged_table_distinct : NoDup (map identity merged).
Proof.
  apply merged_distinct;
    [exact changes_distinct | exact (proj1 table_consistent)
     | exact (proj1 (proj2 table_consistent))].
Qed.

(** The rows of the changeset with the key of a batch record are the
    rows of that record. *)
Lemma changes_of_key (c : Customer) (k : Z) (r : Row) :
  In c new_data -> c_customer_id c = Some k ->
  In r changes -> customer_id r = Some k ->
  In r (record_rows today (delta_df table) (source_row c)).
Proof.
  intros Hc Hk Hr Hrk.
  destruct (changes_origin r Hr) as (c' & k' & Hc' & Hk' & Hrows & Hrk' & _).
  assert (c' = c) by (apply same_key_same_record; congruence).
  now subst.
Qed.

(** After the merge, the key of a batch record has one active row, and
    that row carries the values of the record: the stored row when they
    did not change, the new version otherwise. *)
Lemma active_row_of_record (c : Customer) (k : Z) :
  In c new_data -> c_customer_id c = Some k ->
  exists r, In r merged /\ is_active r = Some true /\ customer_id r = Some k /\
            identity r = identity (source_row c) /\
            (forall r', In r' merged -> is_active r' = Some true ->
                        customer_id r' = Some k -> r' = r) /\
            (In r (delta_df table) \/ r = new_version today (source_row c)).
Proof.
  intros Hc Hk.
  destruct (batch_record_case c Hc) as [k' [Hk' Hcase]].
  assert (k' = k) by congruence. subst k'. clear Hk'.
  assert (Hsk : customer_id (source_row c) = Some k).
  { apply complete_source_key; [|exact Hk].
    destruct batch_clean as [Hall _]. rewrite Forall_forall in Hall. now apply Hall. }
  assert (Hrows : forall r, In r changes -> customer_id r = Some k ->
                            In r (record_rows today (delta_df table) (source_row c)))
    by (intros r; now apply changes_of_key).
  assert (Hmine : forall r, In r (record_rows today (delta_df table) (source_row c)) ->
                            In r changes)
    by (intros r Hr; apply In_changes; eauto).
  inversion Hcase as [t Hin Ha Hkt Huniq Hid E | t Hin Ha Hkt Huniq Hid E | Hno E];
    rewrite <- E in Hrows, Hmine.
  - exists t. repeat split; try assumption.
    + apply In_merged_table. right. split; [assumption|].
      intros s Hs Heq. apply (Hrows s Hs). apply identity_key in Heq. congruence.
    + intros r' Hr' Ha' Hk'. apply In_merged_table in Hr'.
      destruct Hr' as [Hr'|[Hr' _]]; [destruct (Hrows r' Hr' Hk')|auto].
    + left. now apply In_delta_df.
  - exists (new_version today (source_row c)). repeat split; try assumption.
    + apply In_merged_table. left. apply Hmine. simpl. auto.
    + intros r' Hr' Ha' Hk'. apply In_merged_table in Hr'.
      destruct Hr' as [Hr'|[Hr' Hfree]].
      * destruct (Hrows r' Hr' Hk') as [<-|[<-|[]]]; [discriminate|reflexivity].
      * exfalso. rewrite (Huniq r' Hr' Ha' Hk') in Hfree.
        apply (Hfree (closed_version today t)); [|reflexivity].
        apply Hmine. simpl. auto.
    + now right.
  - exists (new_version today (source_row c)). repeat split; try assumption.
    + apply In_merged_table. left. apply Hmine. simpl. auto.
    + intros r' Hr' Ha' Hk'. apply In_merged_table in Hr'.
      destruct Hr' as [Hr'|[Hr' _]].
      * now destruct (Hrows r' Hr' Hk') as [<-|[]].
      * destruct (Hno r' Hr' Hk').
    + now right.
Qed.

(** The rows of a key that is not in the batch are left as they are. *)
Lemma untouched_key (k : Z) (r : Row) :
  ~ In (Some k) (map c_customer_id new_data) -> customer_id r = Some k ->
  (In r merged <-> In r table).
Proof.
  intros Hnotin Hk.
  assert (Hfree : forall s, In s changes -> customer_id s <> Some k).
  { intros s Hs Hsk.
    destruct (changes_origin s Hs) as (c & k' & Hc & Hk' & _ & Hsk' & _).
    apply Hnotin. apply in_map_iff. exists c. split; [congruence|assumption]. }
  rewrite In_merged_table. split.
  - intros [Hr|[Hr _]]; [destruct (Hfree r Hr Hk)|assumption].
  - intros Hr. right. split; [assumption|]. intros s Hs Heq.
    apply (Hfree s Hs). apply identity_key in Heq. congruence.
Qed.

Lemma merged_single_active : single_active merged.
Proof.
  intros k Hk. apply active_count_one; [exact merged_table_distinct|].
  destruct (in_dec option_Z_eq_dec (Some k) (map c_customer_id new_data))
    as [Hin|Hnotin].
  - apply in_map_iff in Hin. destruct Hin as [c [Hck Hc]].
    destruct (active_row_of_record c k Hc Hck) as (r & Hr & Ha & Hrk & _ & Huniq & _).
    exists r. auto.
  - apply in_map_iff in Hk. destruct Hk as [r0 [Hk0 Hr0]].
    apply (untouched_key k r0 Hnotin Hk0) in Hr0.
    destruct table_consistent as (_ & Hnd & Hone).
    assert (Hcount : active_count k table = 1%nat).
    { apply Hone. rewrite <- Hk0. now apply in_map. }
    apply (active_count_one k table Hnd) in Hcount.
    destruct Hcount as (r & Hr & Ha & Hrk & Huniq).
    exists r. split; [now apply (untouched_key k r Hnotin Hrk)|].
    split; [assumption|]. split; [assumption|].
    intros r' Hr' Ha' Hk'. apply Huniq; try assumption.
    now apply (untouched_key k r' Hnotin Hk').
Qed.

Lemma merged_consistent : consistent merged.
Proof.
  split; [exact merged_complete|].
  split; [exact merged_table_distinct | exact merged_single_active].
Qed.

(** A changed record closes the stored row and opens the new version,
    which is then the one active row of the key. *)
Lemma changed_record (c : Customer) (t : Row) (k : Z) :
  In c new_data -> c_customer_id c = Some k ->
  In t table -> is_active t = Some true -> customer_id t = Some k ->
  identity t <> identity (source_row c) ->
  In (closed_version today t) merged /\ ~ In t merged /\
  In (new_version today (source_row c)) merged /\
  (forall r, In r merged -> is_active r = Some true -> customer_id r = Some k ->
             r = new_version today (source_row c)).
Proof.
  intros Hc Hk Ht Ha Hkt Hid.
  destruct (batch_record_case c Hc) as [k' [Hk' Hcase]].
  assert (k' = k) by congruence. subst k'. clear Hk'.
  assert (Hrows : record_rows today (delta_df table) (source_row c)
                  = [closed_version today t; new_version today (source_row c)]).
  { inversion Hcase as [t' Hin' Ha' Hkt' Huniq Hid' E
                       | t' Hin' Ha' Hkt' Huniq Hid' E | Hno E].
    - exfalso. apply Hid. now rewrite (Huniq t Ht Ha Hkt).
    - now rewrite (Huniq t Ht Ha Hkt).
    - destruct (Hno t Ht Hkt). }
  assert (Hclosed : In (closed_version today t) changes).
  { apply In_changes. exists c. split; [assumption|]. rewrite Hrows. now left. }
  assert (Hnew : In (new_version today (source_row c)) changes).
  { apply In_changes. exists c. split; [assumption|]. rewrite Hrows. right. now left. }
  split; [apply In_merged_table; now left|].
  split; [|split; [apply In_merged_table; now left|]].
  - intros Hin. apply In_merged_table in Hin. destruct Hin as [Hin|[_ Hfree]].
    + pose proof (changes_of_key c k t Hc Hk Hin Hkt) as Hr. rewrite Hrows in Hr.
      destruct Hr as [Hr|[Hr|[]]].
      * rewrite <- Hr in Ha. discriminate.
      * apply Hid. now rewrite <- Hr.
    + now apply (Hfree (closed_version today t)).
  - intros r Hr Har Hkr. apply In_merged_table in Hr.
    destruct Hr as [Hr|[Hr Hfree]].
    + pose proof (changes_of_key c k r Hc Hk Hr Hkr) as Hr'. rewrite Hrows in Hr'.
      destruct Hr' as [Hr'|[Hr'|[]]]; [|now symmetry].
      rewrite <- Hr' in Har. discriminate.
    + exfalso. destruct table_consistent as (_ & Hnd & Hone).
      assert (Hcount : active_count k table = 1%nat).
      { apply Hone. rewrite <- Hkt. now apply in_map. }
      apply (active_count_one k table Hnd) in Hcount.
      destruct Hcount as (a & _ & _ & _ & Huniq).
      rewrite (Huniq r Hr Har Hkr), <- (Huniq t Ht Ha Hkt) in Hfree.
      now apply (Hfree (closed_version today t)).
Qed.

End ReconcileStep.

(* ================================================================== *)
(** ** The runs *)

Lemma run_glue_crawler_eq (env : Env) (crawler_name : string) (w : World) :
  run_glue_crawler env crawler_name w =
  (Returned tt, with_events w (crawler_events env crawler_name)).
Proof.
  unfold run_glue_crawler, try_except, bind, start_crawler, print, emit,
    with_events, crawler_events.
  destruct (glue_start_crawler env crawler_name) as [response|[|m]]; simpl;
    rewrite <- ?app_assoc; reflexivity.
Qed.

(** The ways a run of the Reconciler ends. *)
Lemma dim_customers_scd_etl_job_cases (env : Env) (start_date end_date : string)
    (w : World) :
  let new_data := collect_customer_data env start_date end_date in
  match dim_customers_scd_table w with
  | None =>
      dim_customers_scd_etl_job env start_date end_date w =
      (Raised (Exception "Delta Table does NOT exists!"), w)
  | Some table =>
      match new_data with
      | [] =>
          dim_customers_scd_etl_job env start_date end_date w =
          (Returned tt,
           with_events w
             [Extracted start_date end_date [];
              Printed "There is no change, hence df is empty. Nothing to write!"])
      | _ :: _ =>
          if types_inferred new_data then
            let changes := changeset (utc_today env) table new_data in
            match merge table changes with
            | None =>
                dim_customers_scd_etl_job env start_date end_date w =
                (Raised (Exception "DELTA_MULTIPLE_SOURCE_ROW_MATCHING_TARGET_ROW_IN_MERGE"),
                 with_events w
                   [Extracted start_date end_date new_data;
                    Printed "Casting dataframe to schema";
                    Printed "Schema Casting is completed.";
                    Printed "Performing Writing Operation"])
            | Some table' =>
                dim_customers_scd_etl_job env start_date end_date w =
                (Returned tt,
                 {| dim_customers_scd_table := Some table';
                    future_orders_table := future_orders_table w;
                    events := events w ++
                      [Extracted start_date end_date new_data;
                       Printed "Casting dataframe to schema";
                       Printed "Schema Casting is completed.";
                       Printed "Performing Writing Operation";
                       Merged changes;
                       Printed "writing operation is completed"]
                      ++ crawler_events env "dimCustomersScdCrawler"
                      ++ [Printed "Crawler run is completed"] |})
            end
          else
            dim_customers_scd_etl_job env start_date end_date w =
            (Raised (Exception "Some of types cannot be determined after inferring"),
             with_events w [Extracted start_date end_date new_data])
      end
  end.
Proof.
  unfold dim_customers_scd_etl_job, bind, require_delta_table, extract,
    createDataFrame, cast_to_schema, bind, print, emit, ret, raise,
    execute_merge, with_events, changeset.
  destruct w as [[table|] extract_table trace];
    cbn -[run_glue_crawler merge final_changes types_inferred cast_columns new_df]; [|reflexivity].
  destruct (collect_customer_data env start_date end_date) as [|c cs] eqn:Hb;
    cbn -[run_glue_crawler merge final_changes types_inferred cast_columns new_df].
  - rewrite <- app_assoc. reflexivity.
  - destruct (types_inferred (c :: cs)); [|reflexivity].
    cbn -[run_glue_crawler merge final_changes cast_columns new_df].
    destruct (merge table
                (final_changes (utc_today env) table
                               (cast_columns (new_df (c :: cs)))))
      as [table'|] eqn:Hm.
    + rewrite run_glue_crawler_eq. unfold with_events.
      cbn -[crawler_events final_changes cast_columns new_df]. rewrite <- !app_assoc. reflexivity.
    + rewrite <- !app_assoc. reflexivity.
Qed.

(* ================================================================== *)
(** ** The properties of the specification *)

(** *** Change detection *)

(** C3, as stated, fails: the stored row has no phone number and the
    batch record brings one, every other tracked value being the same;
    the tracked attributes differ, yet the pair is not classified as
    changed. *)
Lemma null_against_value_is_not_a_change :
  customer_id (stored alice_no_phone) = customer_id (source_row alice_with_phone) /\
  phone (stored alice_no_phone) = None /\
  phone (source_row alice_with_phone) = Some "555-0100" /\
  tracked (stored alice_no_phone) <> tracked (source_row alice_with_phone) /\
  Sql.holds (change_condition {| src := source_row alice_with_phone;
                                 tgt := Some (stored alice_no_phone) |}) = false.
Proof. repeat split; try reflexivity. discriminate. Qed.

(** C3, amended: a batch record and the active row with its natural key
    are classified as changed if and only if at least one tracked attribute
    (first_name, last_name, email, phone, number_of_orders) holds two
    different non-NULL values on the two sides; the classification depends
    on the key and the tracked attributes only, so [updated_at] and the
    validity columns play no part; and an attribute that is NULL on one
    side is never a difference by itself. *)
Theorem change_detection_predicate (s t s' t' : Row) (k : Z) :
  customer_id s = Some k -> customer_id t = Some k ->
  (Sql.holds (change_condition {| src := s; tgt := Some t |}) = true <->
   differs first_name t s \/ differs last_name t s \/ differs email t s \/
   differs phone t s \/ differs number_of_orders t s) /\
  (customer_id s' = customer_id s -> tracked s' = tracked s ->
   customer_id t' = customer_id t -> tracked t' = tracked t ->
   change_condition {| src := s'; tgt := Some t' |} =
   change_condition {| src := s; tgt := Some t |}) /\
  ((first_name t = None \/ first_name s = None \/ first_name t = first_name s) ->
   (last_name t = None \/ last_name s = None \/ last_name t = last_name s) ->
   (email t = None \/ email s = None \/ email t = email s) ->
   (phone t = None \/ phone s = None \/ phone t = phone s) ->
   (number_of_orders t = None \/ number_of_orders s = None \/
    number_of_orders t = number_of_orders s) ->
   Sql.holds (change_condition {| src := s; tgt := Some t |}) = false).
Proof.
  intros Hs Ht. split; [|split].
  - rewrite change_condition_iff. split; [tauto|]. intros H. split; [eauto|exact H].
  - unfold tracked, change_condition, tgt_col, src_col; simpl.
    intros -> [= -> -> -> -> ->] -> [= -> -> -> -> ->]. reflexivity.
  - intros Hf Hl He Hp Hn.
    destruct (Sql.holds (change_condition {| src := s; tgt := Some t |})) eqn:E;
      [|reflexivity].
    apply change_condition_iff in E. destruct E as [_ E]. exfalso.
    unfold differs in E.
    destruct E as [E|[E|[E|[E|E]]]]; destruct E as (x & y & Hx & Hy & Hne);
      [ destruct Hf as [H|[H|H]] | destruct Hl as [H|[H|H]]
      | destruct He as [H|[H|H]] | destruct Hp as [H|[H|H]]
      | destruct Hn as [H|[H|H]] ]; congruence.
Qed.

Lemma change_detection_predicate_witness :
  (Sql.holds (change_condition {| src := source_row alice_3;
                                  tgt := Some (stored alice_2) |}) = true <->
   differs first_name (stored alice_2) (source_row alice_3) \/
   differs last_name (stored alice_2) (source_row alice_3) \/
   differs email (stored alice_2) (source_row alice_3) \/
   differs phone (stored alice_2) (source_row alice_3) \/
   differs number_of_orders (stored alice_2) (source_row alice_3)).
Proof.
  exact (proj1 (change_detection_predicate
                  (source_row alice_3) (stored alice_2)
                  (source_row alice_3) (stored alice_2) 1 eq_refl eq_refl)).
Defined.

(** *** The rows of the changeset *)

Lemma In_left_join (srcs tgts : Table) (j : Joined) :
  In j (left_join srcs tgts) <-> exists s, In s srcs /\ In j (join_row tgts s).
Proof. unfold left_join. apply in_flat_map. Qed.

(** C4, as stated, fails: customer 1 is stored without phone number and
    the batch brings the phone number, nothing else being different.  The
    key of the record matches the active row and the tracked attributes
    changed, yet the pair gives no row: the changeset is empty, with
    neither a closed version nor a new version. *)
Lemma added_phone_gives_no_rows :
  In alice_with_phone [alice_with_phone] /\
  In (stored alice_no_phone) [stored alice_no_phone] /\
  is_active (stored alice_no_phone) = Some true /\
  customer_id (stored alice_no_phone) = Some 1 /\
  customer_id (source_row alice_with_phone) = Some 1 /\
  tracked (stored alice_no_phone) <> tracked (source_row alice_with_phone) /\
  In {| src := source_row alice_with_phone; tgt := Some (stored alice_no_phone) |}
     (left_join (cast_columns (new_df [alice_with_phone]))
                (delta_df [stored alice_no_phone])) /\
  pair_rows day_2024_06_01
            {| src := source_row alice_with_phone;
               tgt := Some (stored alice_no_phone) |} = [] /\
  changeset day_2024_06_01 [stored alice_no_phone] [alice_with_phone] = [].
Proof. repeat split; try reflexivity; try (now left). discriminate. Qed.

(** C4, amended: a batch record whose natural key matches an active
    stored row and that holds, in at least one tracked attribute, a
    non-NULL value different from the non-NULL stored value (the values
    of the record taken as the job compares them, after
    [createDataFrame] and the cast to the schema) gives exactly two
    rows of the changeset for that pair: the closed version, with the
    stored values, the stored [updated_at] and [effective_start_date],
    [effective_end_date] the run date and [is_active] false; and the new
    version, with the values of the record, [number_of_orders] as cast
    to a 32-bit integer, [effective_start_date] the run date,
    [effective_end_date] 9999-12-31 and [is_active] true.  The key of
    the new version is the key of the record, and its
    [number_of_orders] is the one of the record when that fits 32
    bits. *)
Theorem changed_pair_gives_two_rows (today : Date) (table : Table)
    (new_data : list Customer) (c : Customer) (t : Row) (k : Z) :
  In c new_data -> In t table -> is_active t = Some true ->
  customer_id t = Some k -> customer_id (source_row c) = Some k ->
  differs first_name t (source_row c) \/ differs last_name t (source_row c) \/
  differs email t (source_row c) \/ differs phone t (source_row c) \/
  differs number_of_orders t (source_row c) ->
  let joined := left_join (cast_columns (new_df new_data)) (delta_df table) in
  let pair := {| src := source_row c; tgt := Some t |} in
  In pair joined /\
  Permutation (changeset today table new_data)
              (flat_map (pair_rows today) joined) /\
  pair_rows today pair =
  [ {| customer_id := customer_id t;
       first_name := first_name t;
       last_name := last_name t;
       email := email t;
       phone := phone t;
       number_of_orders := number_of_orders t;
       updated_at := updated_at t;
       effective_start_date := effective_start_date t;
       effective_end_date := Some today;
       is_active := Some false |};
    {| customer_id := Some k;
       first_name := c_first_name c;
       last_name := c_last_name c;
       email := c_email c;
       phone := c_phone c;
       number_of_orders :=
         option_map int_of_long (long_column (c_number_of_orders c));
       updated_at := c_updated_at c;
       effective_start_date := Some today;
       effective_end_date := Some (days_from_civil 9999 12 31);
       is_active := Some true |} ] /\
  c_customer_id c = Some k /\
  (forall n, c_number_of_orders c = Some n -> - 2 ^ 31 <= n < 2 ^ 31 ->
             option_map int_of_long (long_column (c_number_of_orders c)) = Some n).
Proof.
  intros Hc Ht Ha Hkt Hkc Hdiff. cbv zeta.
  assert (Hkey : Sql.holds (customer_id t == customer_id (source_row c))%sql = true)
    by (apply holds_eq; eauto).
  assert (Hch : Sql.holds (change_condition {| src := source_row c; tgt := Some t |})
                = true)
    by (apply change_condition_iff; split; [eauto|exact Hdiff]).
  split; [|split; [|split; [|split]]].
  - rewrite cast_new_df. apply In_left_join.
    exists (source_row c). split; [now apply in_map|].
    apply In_join_row. simpl. split; [reflexivity|].
    split; [now apply In_delta_df | exact Hkey].
  - apply changeset_by_pairs.
  - unfold pair_rows. rewrite Hch.
    rewrite new_key_condition_matched by (rewrite Hkt; discriminate).
    unfold select_closed_version, select_new_version, tgt_col, src_col.
    cbn [src tgt app]. rewrite Hkc. reflexivity.
  - now apply source_row_key.
  - intros n Hn Hrange. rewrite Hn. cbn [long_column].
    rewrite (proj2 (long_of_int_Some n n)) by lia.
    cbn [option_map]. now rewrite int_of_long_small.
Qed.

Lemma changed_pair_gives_two_rows_witness :
  pair_rows day_2024_06_01
            {| src := source_row alice_3; tgt := Some (stored alice_2) |} =
  [ closed_version day_2024_06_01 (stored alice_2);
    new_version day_2024_06_01 (source_row alice_3) ].
Proof.
  refine (proj1 (proj2 (proj2 (changed_pair_gives_two_rows
                         day_2024_06_01 [stored alice_2] [alice_3; bob_1]
                         alice_3 (stored alice_2) 1
                         (or_introl eq_refl) (or_introl eq_refl)
                         eq_refl eq_refl eq_refl _)))).
  do 4 right. exists 2, 3. repeat split; discriminate.
Defined.

Lemma filter_left_join_skip (p : Joined -> bool) (tgts before after : Table)
    (s : Row) :
  filter p (join_row tgts s) = [] ->
  filter p (left_join (before ++ s :: after) tgts) =
  filter p (left_join (before ++ after) tgts).
Proof.
  intros Hs. unfold left_join. rewrite !flat_map_app, !filter_app. simpl.
  now rewrite filter_app, Hs.
Qed.

(** C10, as stated, fails: the one record of the batch has no natural
    key, every other column holds a value, and the run does report an
    error: [createDataFrame] cannot infer the type of the key column and
    raises, before any join. *)
Lemma all_null_keys_fail_the_run :
  c_customer_id walk_in = None /\
  dim_customers_scd_etl_job (env_with day_2024_06_01 [walk_in]) may june
                            (world_with [stored alice_2])
  = (Raised (Exception "Some of types cannot be determined after inferring"),
     with_events (world_with [stored alice_2]) [Extracted may june [walk_in]]).
Proof. split; reflexivity. Qed.

(** C10, amended: a batch record whose natural key is NULL (in the
    batch, or because it does not fit 64 bits) joins no active row,
    passes the filter of none of the three groups, and leaves the
    changeset as it is without the record; when every column of the
    batch holds a value in some record, so that [createDataFrame] can
    type it, the run ends as the other records of the batch decide: it
    merges their changeset, inserting and updating nothing for the
    record, and it raises only if that merge is refused. *)
Theorem null_key_record_is_dropped (today : Date) (table : Table)
    (before after : list Customer) (c : Customer) :
  customer_id (source_row c) = None ->
  join_row (delta_df table) (source_row c)
  = [ {| src := source_row c; tgt := None |} ] /\
  Sql.holds (change_condition {| src := source_row c; tgt := None |}) = false /\
  Sql.holds (new_key_condition {| src := source_row c; tgt := None |}) = false /\
  changeset today table (before ++ c :: after)
  = changeset today table (before ++ after) /\
  (forall env start_date end_date w,
      dim_customers_scd_table w = Some table ->
      utc_today env = today ->
      collect_customer_data env start_date end_date = before ++ c :: after ->
      types_inferred (before ++ c :: after) = true ->
      match merge table (changeset today table (before ++ after)) with
      | Some table' =>
          fst (dim_customers_scd_etl_job env start_date end_date w) = Returned tt /\
          dim_customers_scd_table
            (snd (dim_customers_scd_etl_job env start_date end_date w)) = Some table'
      | None =>
          fst (dim_customers_scd_etl_job env start_date end_date w)
          = Raised (Exception "DELTA_MULTIPLE_SOURCE_ROW_MATCHING_TARGET_ROW_IN_MERGE") /\
          dim_customers_scd_table
            (snd (dim_customers_scd_etl_job env start_date end_date w)) = Some table
      end).
Proof.
  intros Hnull.
  assert (Hjoin : join_row (delta_df table) (source_row c)
                  = [ {| src := source_row c; tgt := None |} ]).
  { apply join_row_unmatched. intros t _. rewrite Hnull.
    apply holds_eq_null_r. }
  assert (Hnew : Sql.holds (new_key_condition {| src := source_row c; tgt := None |})
                 = false).
  { rewrite new_key_condition_unmatched. cbn [src]. now rewrite Hnull. }
  assert (Hdrop : changeset today table (before ++ c :: after)
                  = changeset today table (before ++ after)).
  { unfold changeset, final_changes. rewrite !cast_new_df, !map_app. simpl map.
    unfold updated_old_records, updated_new_records, new_records.
    rewrite !(filter_left_join_skip _ _ _ _ (source_row c)); try reflexivity;
      rewrite Hjoin; simpl;
      rewrite ?change_condition_unmatched, ?Hnew; reflexivity. }
  split; [exact Hjoin|]. split; [apply change_condition_unmatched|].
  split; [exact Hnew|]. split; [exact Hdrop|].
  intros env start_date end_date w Hw Htoday Hbatch Htypes.
  pose proof (dim_customers_scd_etl_job_cases env start_date end_date w) as Hrun.
  cbv zeta in Hrun. rewrite Hw, Hbatch, Htoday, Htypes, Hdrop in Hrun.
  destruct (before ++ c :: after) as [|c0 cs] eqn:Hnonempty;
    [now destruct before|].
  destruct (merge table (changeset today table (before ++ after))) as [table'|];
    rewrite Hrun; now split.
Qed.

Lemma null_key_record_is_dropped_witness :
  changeset day_2024_06_01 [stored alice_2] ([alice_3] ++ anonymous :: [bob_1])
  = changeset day_2024_06_01 [stored alice_2] ([alice_3] ++ [bob_1]) /\
  fst (dim_customers_scd_etl_job
         (env_with day_2024_06_01 ([alice_3] ++ anonymous :: [bob_1])) may june
         (world_with [stored alice_2])) = Returned tt /\
  dim_customers_scd_table
    (snd (dim_customers_scd_etl_job
            (env_with day_2024_06_01 ([alice_3] ++ anonymous :: [bob_1])) may june
            (world_with [stored alice_2])))
  = Some [ closed_version day_2024_06_01 (stored alice_2);
           new_version day_2024_06_01 (source_row alice_3);
           new_version day_2024_06_01 (source_row bob_1) ].
Proof.
  destruct (null_key_record_is_dropped day_2024_06_01 [stored alice_2]
                                       [alice_3] [bob_1] anonymous eq_refl)
    as (_ & _ & _ & Hsame & Hrun).
  split; [exact Hsame|].
  exact (Hrun (env_with day_2024_06_01 ([alice_3] ++ anonymous :: [bob_1])) may june
              (world_with [stored alice_2]) eq_refl eq_refl eq_refl eq_refl).
Defined.

(** *** The empty batch *)

(** C5: a run that extracts the empty batch returns right after the
    extraction: the trace of the run holds the extraction and the
    "nothing to write" report and nothing else (no join, no merge, no
    crawler), both tables are what they were, and the run returns
    normally. *)
Theorem empty_batch_is_a_noop (env : Env) (start_date end_date : string)
    (w : World) :
  (exists evs,
      events (snd (dim_customers_scd_etl_job env start_date end_date w))
      = events w ++ evs /\
      In (Extracted start_date end_date []) evs) ->
  let after := snd (dim_customers_scd_etl_job env start_date end_date w) in
  fst (dim_customers_scd_etl_job env start_date end_date w) = Returned tt /\
  dim_customers_scd_table after = dim_customers_scd_table w /\
  future_orders_table after = future_orders_table w /\
  events after =
  events w ++ [Extracted start_date end_date [];
               Printed "There is no change, hence df is empty. Nothing to write!"].
Proof.
  intros [evs [Hevs Hin]] after. unfold after. clear after.
  pose proof (dim_customers_scd_etl_job_cases env start_date end_date w) as Hrun.
  simpl in Hrun.
  destruct (dim_customers_scd_table w) as [table|] eqn:Hw.
  - destruct (collect_customer_data env start_date end_date) as [|c cs] eqn:Hb.
    + rewrite Hrun. simpl. repeat split; assumption.
    + exfalso. destruct (types_inferred (c :: cs)).
      * destruct (merge table (changeset (utc_today env) table (c :: cs)));
          rewrite Hrun in Hevs; simpl in Hevs; apply app_inv_head in Hevs;
          subst evs; unfold crawler_events in Hin;
          destruct (glue_start_crawler env "dimCustomersScdCrawler") as [?|[|?]];
          simpl in Hin; intuition discriminate.
      * rewrite Hrun in Hevs. simpl in Hevs. apply app_inv_head in Hevs.
        subst evs. simpl in Hin. intuition discriminate.
  - exfalso. rewrite Hrun in Hevs. simpl in Hevs.
    rewrite <- (app_nil_r (events w)) in Hevs at 1.
    apply app_inv_head in Hevs. subst evs. destruct Hin.
Qed.

Lemma empty_batch_is_a_noop_witness :
  fst (dim_customers_scd_etl_job (env_with day_2024_06_01 [])
                                 "2024-05-01" "2024-06-01"
                                 (world_with [stored alice_2])) = Returned tt /\
  dim_customers_scd_table
    (snd (dim_customers_scd_etl_job (env_with day_2024_06_01 [])
                                    "2024-05-01" "2024-06-01"
                                    (world_with [stored alice_2])))
  = Some [stored alice_2].
Proof.
  destruct (empty_batch_is_a_noop
              (env_with day_2024_06_01 []) "2024-05-01" "2024-06-01"
              (world_with [stored alice_2])
              (ex_intro _
                 [Extracted "2024-05-01" "2024-06-01" [];
                  Printed "There is no change, hence df is empty. Nothing to write!"]
                 (conj eq_refl (or_introl eq_refl))))
    as (Hreturned & Htable & _).
  split; [exact Hreturned | exact Htable].
Defined.

(** *** The catalog refresh *)



(* ================================================================== *)
(** ** The extract *)

Lemma insert_by_perm (leb : FutureOrder -> FutureOrder -> bool) (x : FutureOrder)
    (l : list FutureOrder) :
  Permutation (insert_by leb x l) (x :: l).
Proof.
  induction l as [|y l IH]; simpl; [reflexivity|].
  destruct (leb x y); [reflexivity|].
  etransitivity; [apply perm_skip, IH|]. apply perm_swap.
Qed.

Lemma order_by_perm (leb : FutureOrder -> FutureOrder -> bool)
    (l : list FutureOrder) :
  Permutation (order_by leb l) l.
Proof.
  induction l as [|x l IH]; simpl; [constructor|].
  etransitivity; [apply insert_by_perm|]. now apply perm_skip.
Qed.

Lemma pickup_leb_le (a b : FutureOrder) :
  f_pickup_date a <> None -> f_pickup_date b <> None ->
  (pickup_leb a b = true -> pickup_le a b) /\
  (pickup_leb a b = false -> pickup_le b a).
Proof.
  unfold pickup_leb, pickup_le. intros Ha Hb.
  destruct (f_pickup_date a) as [x|]; [|contradiction].
  destruct (f_pickup_date b) as [y|]; [|contradiction].
  split; intros H.
  - exists x, y. repeat split. now apply Z.leb_le.
  - exists y, x. repeat split. apply Z.leb_gt in H. lia.
Qed.

Lemma insert_by_sorted (x : FutureOrder) (l : list FutureOrder) :
  f_pickup_date x <> None -> Forall (fun y => f_pickup_date y <> None) l ->
  Sorted pickup_le l -> Sorted pickup_le (insert_by pickup_leb x l).
Proof.
  intros Hx Hl Hs. induction Hs as [|y l Hs IH Hhd]; simpl.
  - constructor; constructor.
  - inversion Hl as [|? ? Hy Hl']; subst.
    destruct (pickup_leb_le x y Hx Hy) as [Hle Hgt].
    destruct (pickup_leb x y) eqn:E.
    + constructor; [now constructor|]. constructor. now apply Hle.
    + constructor; [now apply IH|].
      destruct l as [|z l]; simpl.
      * constructor. now apply Hgt.
      * destruct (pickup_leb x z); constructor;
          [now apply Hgt | now inversion Hhd].
Qed.

Lemma order_by_sorted (l : list FutureOrder) :
  Forall (fun y => f_pickup_date y <> None) l ->
  Sorted pickup_le (order_by pickup_leb l).
Proof.
  induction l as [|x l IH]; simpl; intros Hl; [constructor|].
  inversion Hl as [|? ? Hx Hl']; subst.
  apply insert_by_sorted; [assumption| |now apply IH].
  apply Forall_forall. intros y Hy. rewrite Forall_forall in Hl'. apply Hl'.
  exact (Permutation_in _ (order_by_perm pickup_leb l) Hy).
Qed.

Lemma pickup_le_trans (a b c : FutureOrder) :
  pickup_le a b -> pickup_le b c -> pickup_le a c.
Proof.
  intros (x & y & Hx & Hy & Hxy) (y' & z & Hy' & Hz & Hyz).
  exists x, z. repeat split; try assumption. rewrite Hy in Hy'. inversion Hy'. lia.
Qed.

Lemma sql_gt_iff (a b : option Timestamp) :
  Sql.holds (sql_gt a b) = true <-> exists x y, a = Some x /\ b = Some y /\ y < x.
Proof.
  destruct a as [x|], b as [y|]; simpl; split;
    try discriminate; try (intros (? & ? & ? & ? & ?); discriminate).
  - destruct (Z.ltb_spec y x); [|discriminate]. intros _. exists x, y. now repeat split.
  - intros (x' & y' & [= <-] & [= <-] & Hlt).
    destruct (Z.ltb_spec y x); [reflexivity|lia].
Qed.

Lemma In_join_customers_orders (customers : Table) (orders : list Order)
    (f : FutureOrder) :
  In f (join_customers_orders customers orders) <->
  exists c o, In c customers /\ In o orders /\
              (exists k, customer_id c = Some k /\ o_customer_id o = Some k) /\
              f = select_future_order c o.
Proof.
  unfold join_customers_orders. rewrite in_flat_map. split.
  - intros [c [Hc Hf]]. apply in_map_iff in Hf. destruct Hf as [o [<- Ho]].
    apply filter_In in Ho. destruct Ho as [Ho Hk]. apply holds_eq in Hk.
    exists c, o. repeat split; assumption.
  - intros (c & o & Hc & Ho & Hk & ->). exists c. split; [assumption|].
    apply in_map. apply filter_In. split; [assumption|]. now apply holds_eq.
Qed.

(** C8: every run of the Extract Builder stores, in place of whatever the
    target held, the rows of the inner join on the natural key of the
    fact rows whose [pickup_date] is strictly after the engine's current
    date with the dimension rows whose [is_active] is true, projected on
    order_name, first_name, financial_status, draft_type, theme, flavor,
    allergies and pickup_date, in ascending order of [pickup_date]; the
    result does not depend on the stored extract and the dimension table
    is not written. *)
Theorem future_orders_is_rebuilt (env : Env) (w : World) :
  let rows := future_orders_query (warehouse_current_date env) (bmd_orders env)
                                  (bmd_dim_customers_scd env) in
  let after := snd (future_orders_etl_job env w) in
  fst (future_orders_etl_job env w) = Returned tt /\
  future_orders_table after = Some rows /\
  dim_customers_scd_table after = dim_customers_scd_table w /\
  In (Overwritten rows) (events after) /\
  (forall f, In f rows <->
     exists c o,
       In c (bmd_dim_customers_scd env) /\ In o (bmd_orders env) /\
       is_active c = Some true /\
       (exists p, o_pickup_date o = Some p /\
                  timestamp_of_date (warehouse_current_date env) < p) /\
       (exists k, customer_id c = Some k /\ o_customer_id o = Some k) /\
       f = {| f_order_name := o_order_name o;
              f_first_name := first_name c;
              f_financial_status := o_financial_status o;
              f_draft_type := o_draft_type o;
              f_theme := o_theme o;
              f_flavor := o_flavor o;
              f_allergies := o_allergies o;
              f_pickup_date := o_pickup_date o |}) /\
  Permutation rows
    (join_customers_orders (customers_cte (bmd_dim_customers_scd env))
                           (orders_cte (warehouse_current_date env) (bmd_orders env))) /\
  StronglySorted pickup_le rows.
Proof.
  intros rows after.
  assert (Hperm : Permutation rows
            (join_customers_orders (customers_cte (bmd_dim_customers_scd env))
               (orders_cte (warehouse_current_date env) (bmd_orders env))))
    by apply order_by_perm.
  assert (Hin : forall f, In f rows <->
     exists c o,
       In c (bmd_dim_customers_scd env) /\ In o (bmd_orders env) /\
       is_active c = Some true /\
       (exists p, o_pickup_date o = Some p /\
                  timestamp_of_date (warehouse_current_date env) < p) /\
       (exists k, customer_id c = Some k /\ o_customer_id o = Some k) /\
       f = select_future_order c o).
  { intros f. split.
    - intros Hf. apply (Permutation_in _ Hperm) in Hf.
      apply In_join_customers_orders in Hf.
      destruct Hf as (c & o & Hc & Ho & Hk & ->).
      apply In_delta_df in Hc. destruct Hc as [Hc Ha].
      apply filter_In in Ho. destruct Ho as [Ho Hp]. apply sql_gt_iff in Hp.
      destruct Hp as (p & y & Hp & [= <-] & Hlt).
      exists c, o. repeat split; eauto.
    - intros (c & o & Hc & Ho & Ha & (p & Hp & Hlt) & Hk & ->).
      apply (Permutation_in _ (Permutation_sym Hperm)).
      apply In_join_customers_orders. exists c, o.
      split; [now apply In_delta_df|]. split; [|now split].
      apply filter_In. split; [assumption|]. apply sql_gt_iff.
      exists p, (timestamp_of_date (warehouse_current_date env)). now repeat split. }
  split; [|split; [|split; [|split; [|split; [|split]]]]].
  - unfold future_orders_etl_job, bind, overwrite.
    now rewrite run_glue_crawler_eq.
  - unfold after, future_orders_etl_job, bind, overwrite.
    now rewrite run_glue_crawler_eq.
  - unfold after, future_orders_etl_job, bind, overwrite.
    now rewrite run_glue_crawler_eq.
  - unfold after, future_orders_etl_job, bind, overwrite.
    rewrite run_glue_crawler_eq. simpl.
    apply in_app_iff. left. apply in_app_iff. right. now left.
  - exact Hin.
  - exact Hperm.
  - apply Sorted_StronglySorted; [intros a b c; apply pickup_le_trans|].
    apply order_by_sorted. apply Forall_forall. intros f Hf.
    apply (Permutation_in _ (Permutation_sym Hperm)) in Hf.
    apply Hin in Hf. destruct Hf as (c & o & _ & _ & _ & (p & Hp & _) & _ & ->).
    simpl. rewrite Hp. discriminate.
Qed.

(* ================================================================== *)
(** ** The single-active invariant *)

Lemma reconciled_nil (today : Date) (table : Table) :
  reconciled today table [] = table.
Proof.
  pose proof (merge_nil table) as Hm. unfold merge in Hm.
  destruct (existsb _ table); [discriminate|]. now injection Hm.
Qed.

(** One run on a consistent table with a clean batch leaves a consistent
    table.  It returns normally exactly when the batch is empty or gives
    every column a type, and the table is then the reconciled one. *)
Lemma consistent_run (env : Env) (start_date end_date : string) (w : World)
    (table : Table) :
  dim_customers_scd_table w = Some table -> consistent table ->
  clean_batch (collect_customer_data env start_date end_date) ->
  (exists table',
      dim_customers_scd_table
        (snd (dim_customers_scd_etl_job env start_date end_date w)) = Some table' /\
      consistent table') /\
  (fst (dim_customers_scd_etl_job env start_date end_date w) = Returned tt <->
   collect_customer_data env start_date end_date = [] \/
   types_inferred (collect_customer_data env start_date end_date) = true) /\
  (fst (dim_customers_scd_etl_job env start_date end_date w) = Returned tt ->
   dim_customers_scd_table (snd (dim_customers_scd_etl_job env start_date end_date w))
   = Some (reconciled (utc_today env) table
                      (collect_customer_data env start_date end_date))).
Proof.
  intros Hw Hcons Hclean.
  pose proof (dim_customers_scd_etl_job_cases env start_date end_date w) as Hrun.
  cbv zeta in Hrun. rewrite Hw in Hrun.
  pose proof (reconcile_merge (utc_today env) table _ Hcons Hclean) as Hm.
  pose proof (merged_consistent (utc_today env) table _ Hcons Hclean) as Hc'.
  destruct (collect_customer_data env start_date end_date) as [|c cs] eqn:Hb.
  - rewrite Hrun. cbn [fst snd with_events dim_customers_scd_table].
    rewrite reconciled_nil. split; [eauto|]. split; [|auto].
    split; [now left|reflexivity].
  - destruct (types_inferred (c :: cs)).
    + rewrite Hm in Hrun. rewrite Hrun. cbn [fst snd dim_customers_scd_table].
      split; [eauto|]. split; [|auto]. split; [now right|reflexivity].
    + rewrite Hrun. cbn [fst snd with_events dim_customers_scd_table].
      split; [eauto|]. split; [|discriminate].
      split; [discriminate|]. intros [H|H]; discriminate.
Qed.

Lemma consistent_run_sequence (runs : list (Env * string * string)) :
  forall (w : World) (table : Table),
  dim_customers_scd_table w = Some table -> consistent table ->
  Forall (fun run => clean_batch (collect_customer_data (fst (fst run))
                                                       (snd (fst run)) (snd run)))
         runs ->
  exists table', dim_customers_scd_table (snd (run_sequence runs w)) = Some table' /\
                 consistent table'.
Proof.
  induction runs as [|[[env start_date] end_date] rest IH]; intros w table Hw Hc Hall.
  - simpl. eauto.
  - inversion Hall as [|? ? Hclean Hrest]; subst. simpl in Hclean.
    destruct (consistent_run env start_date end_date w table Hw Hc Hclean)
      as [(table' & Htab & Hc') _].
    simpl. unfold bind.
    destruct (dim_customers_scd_etl_job env start_date end_date w) as [[[]|e] w'];
      simpl in Htab.
    + exact (IH w' table' Htab Hc' Hrest).
    + simpl. eauto.
Qed.

(** C1, as stated, fails: the table holds one active row for customer 1,
    who has no phone number, and one for customer 2; the batch brings the
    third order of customer 1.  The run returns normally, and the table
    then holds two active rows for customer 1: the closed version matched
    no stored row and was inserted, the stored row was left active. *)
Lemma null_attribute_leaves_two_active_rows :
  single_active [stored alice_no_phone; stored bob_1] /\
  dim_customers_scd_table
    (snd (dim_customers_scd_etl_job (env_with day_2024_01_01 [alice_no_phone; bob_1])
                                    may june (world_with [])))
  = Some [stored alice_no_phone; stored bob_1] /\
  fst (dim_customers_scd_etl_job (env_with day_2024_06_01 [alice_no_phone_3; bob_1])
                                 may june
                                 (world_with [stored alice_no_phone; stored bob_1]))
  = Returned tt /\
  dim_customers_scd_table
    (snd (dim_customers_scd_etl_job (env_with day_2024_06_01 [alice_no_phone_3; bob_1])
                                    may june
                                    (world_with [stored alice_no_phone; stored bob_1])))
  = Some [ stored alice_no_phone;
           stored bob_1;
           closed_version day_2024_06_01 (stored alice_no_phone);
           new_version day_2024_06_01 (source_row alice_no_phone_3) ] /\
  active_count 1 [ stored alice_no_phone;
                   stored bob_1;
                   closed_version day_2024_06_01 (stored alice_no_phone);
                   new_version day_2024_06_01 (source_row alice_no_phone_3) ]
  = 2%nat.
Proof.
  split; [|repeat split; reflexivity].
  intros k [[= <-]|[[= <-]|[]]]; reflexivity.
Qed.

(** C1, amended: on a table whose rows have non-NULL natural key and
    tracked attributes, where no two rows share key and tracked values and
    every key present has exactly one active row, any sequence of runs
    whose batches have non-NULL keys and tracked attributes and at most
    one record per key leaves such a table again: every natural key
    present has exactly one row with [is_active] true.  In particular a
    run that returns normally and processes a changed record for a key
    replaces the stored active row by its closed version and stores the
    new version as the one active row of that key.  The values of a
    batch record are the ones the job works with, [source_row]: the key
    and [number_of_orders] are NULL when they do not fit 64 bits, and
    [number_of_orders] is cast to a 32-bit integer; a record is changed
    when these values differ from the stored ones. *)
Theorem single_active_is_preserved (runs : list (Env * string * string))
    (env : Env) (start_date end_date : string) (w : World) (table : Table) :
  dim_customers_scd_table w = Some table -> consistent table ->
  Forall (fun run => clean_batch (collect_customer_data (fst (fst run))
                                                       (snd (fst run)) (snd run)))
         runs ->
  clean_batch (collect_customer_data env start_date end_date) ->
  (exists table', dim_customers_scd_table (snd (run_sequence runs w)) = Some table' /\
                  Forall complete table' /\ NoDup (map identity table') /\
                  forall k, In (Some k) (map customer_id table') ->
                            active_count k table' = 1%nat) /\
  (types_inferred (collect_customer_data env start_date end_date) = true ->
   fst (dim_customers_scd_etl_job env start_date end_date w) = Returned tt) /\
  (fst (dim_customers_scd_etl_job env start_date end_date w) = Returned tt ->
   exists table',
     dim_customers_scd_table (snd (dim_customers_scd_etl_job env start_date end_date w))
     = Some table' /\
     forall c t k,
       In c (collect_customer_data env start_date end_date) ->
       c_customer_id c = Some k ->
       In t table -> is_active t = Some true -> customer_id t = Some k ->
       tracked t <> tracked (source_row c) ->
       In (closed_version (utc_today env) t) table' /\ ~ In t table' /\
       In (new_version (utc_today env) (source_row c)) table' /\
       active_count k table' = 1%nat /\
       forall r, In r table' -> is_active r = Some true -> customer_id r = Some k ->
                 r = new_version (utc_today env) (source_row c)).
Proof.
  intros Hw Hcons Hruns Hclean. split; [|split].
  - destruct (consistent_run_sequence runs w table Hw Hcons Hruns)
      as (table' & Htab & Hc' & Hnd' & Hone').
    exists table'. auto.
  - intros Htypes.
    apply (proj1 (proj2 (consistent_run env start_date end_date w table
                           Hw Hcons Hclean))).
    now right.
  - intros Hret.
    destruct (consistent_run env start_date end_date w table Hw Hcons Hclean)
      as (_ & _ & Htab).
    specialize (Htab Hret). eexists. split; [exact Htab|].
    intros c t k Hc Hk Ht Ha Hkt Hdiff.
    assert (Hid : identity t <> identity (source_row c)).
    { intros Hid. apply Hdiff. unfold identity in Hid. unfold tracked.
      injection Hid as _ He Hf Hl Hp Hn. now rewrite He, Hf, Hl, Hp, Hn. }
    destruct (changed_record (utc_today env) table _ Hcons Hclean c t k
                Hc Hk Ht Ha Hkt Hid) as (H1 & H2 & H3 & H4).
    repeat split; try assumption.
    destruct (merged_consistent (utc_today env) table _ Hcons Hclean)
      as (_ & _ & Hone).
    apply Hone. apply in_map_iff.
    exists (new_version (utc_today env) (source_row c)).
    split; [|exact H3].
    apply (complete_source_key c k); [|exact Hk].
    destruct Hclean as [Hall _]. rewrite Forall_forall in Hall. now apply Hall.
Qed.

Lemma stored_alice_consistent : consistent [stored alice_2].
Proof.
  split; [|split].
  - repeat constructor; discriminate.
  - simpl. constructor; [intros []|constructor].
  - intros k [[= <-]|[]]. reflexivity.
Defined.

Lemma scenario_batch_clean : clean_batch [alice_3; bob_1].
Proof.
  split.
  - repeat constructor; discriminate.
  - simpl. constructor; [intros [H|[]]; discriminate|].
    constructor; [intros []|constructor].
Defined.

Lemma two_runs_clean :
  Forall (fun run => clean_batch (collect_customer_data (fst (fst run))
                                                       (snd (fst run)) (snd run)))
         two_runs.
Proof.
  constructor; [exact scenario_batch_clean|]. constructor; [|constructor].
  split.
  - repeat constructor; discriminate.
  - simpl. constructor; [intros []|constructor].
Defined.

Lemma single_active_is_preserved_witness :
  (exists table',
      dim_customers_scd_table (snd (run_sequence two_runs (world_with [stored alice_2])))
      = Some table' /\
      forall k, In (Some k) (map customer_id table') -> active_count k table' = 1%nat) /\
  fst (dim_customers_scd_etl_job (env_with day_2024_06_01 [alice_3; bob_1])
                                 may june (world_with [stored alice_2]))
  = Returned tt.
Proof.
  destruct (single_active_is_preserved
              two_runs (env_with day_2024_06_01 [alice_3; bob_1]) may june
              (world_with [stored alice_2]) [stored alice_2]
              eq_refl stored_alice_consistent two_runs_clean scenario_batch_clean)
    as [(table' & Htable & _ & _ & Hone) [Hrun _]].
  split; [|exact (Hrun eq_refl)].
  exists table'. split; [exact Htable | exact Hone].
Defined.

(* ================================================================== *)
(** ** Merge routing *)

Lemma update_all_sole_match (changes : Table) (t s : Row) :
  (List.length (matching_sources changes t) <= 1)%nat ->
  In s changes -> matches t s = true -> update_all changes t = s.
Proof.
  intros Hle Hin Hm. unfold update_all.
  assert (Hs : In s (matching_sources changes t)) by (apply filter_In; now split).
  destruct (matching_sources changes t) as [|a [|b l]]; simpl in *.
  - contradiction.
  - now destruct Hs.
  - lia.
Qed.

(** C2, as stated, fails: Alice's first version (two orders) was closed
    when her third order came; now one order is cancelled and the batch
    brings her with two orders again.  The new-version row carries the key
    and the tracked values of the closed first version, matches that
    stored row and is applied as an update: nothing is inserted, and the
    first version's history row is overwritten. *)
Lemma new_version_can_match_a_closed_row :
  dim_customers_scd_table
    (snd (run_sequence
            [ (env_with day_2024_01_01 [alice_2], may, june);
              (env_with day_2024_06_01 [alice_3], may, june) ]
            (world_with [])))
  = Some alice_history /\
  changeset day_2024_07_01 alice_history [alice_2]
  = [ closed_version day_2024_07_01 (new_version day_2024_06_01 (source_row alice_3));
      new_version day_2024_07_01 (source_row alice_2) ] /\
  In (new_version day_2024_07_01 (source_row alice_2))
     (updated_new_records day_2024_07_01
        (left_join (cast_columns (new_df [alice_2])) (delta_df alice_history))) /\
  matches (closed_version day_2024_06_01 (stored alice_2))
          (new_version day_2024_07_01 (source_row alice_2)) = true /\
  inserted_rows alice_history (changeset day_2024_07_01 alice_history [alice_2])
  = [] /\
  merge alice_history (changeset day_2024_07_01 alice_history [alice_2])
  = Some [ new_version day_2024_07_01 (source_row alice_2);
           closed_version day_2024_07_01
                          (new_version day_2024_06_01 (source_row alice_3)) ].
Proof. repeat split; try reflexivity. now left. Qed.

(** C2, amended: the merge condition compares the natural key and every
    tracked attribute (email, first_name, last_name, phone,
    number_of_orders) with SQL equality, so a NULL on either side never
    matches.  In a merge that succeeds, the closed version of a stored row
    whose key and tracked attributes are non-NULL matches that row, which
    takes its columns (an update), and it matches only stored rows with
    that key and those values; the new version of a changed pair never
    matches the row it supersedes; every row of the changeset, be it a
    closed version, a new version or the row of a new key, that matches a
    stored row is applied to it as an update (the stored row takes its
    columns and the row is not inserted); and a row of the changeset is
    inserted exactly when no stored row, active or closed, carries its
    key and tracked values without NULL.  Either way the row is in the
    table after the merge. *)
Theorem merge_routing (table changes table' : Table) :
  merge table changes = Some table' ->
  (forall t s,
      matches t s = true <->
      (exists k, customer_id t = Some k /\ customer_id s = Some k) /\
      (exists e, email t = Some e /\ email s = Some e) /\
      (exists f, first_name t = Some f /\ first_name s = Some f) /\
      (exists l, last_name t = Some l /\ last_name s = Some l) /\
      (exists p, phone t = Some p /\ phone s = Some p) /\
      (exists n, number_of_orders t = Some n /\ number_of_orders s = Some n)) /\
  table' = map (update_all changes) table ++ inserted_rows table changes /\
  (forall today t,
      In t table -> complete t -> In (closed_version today t) changes ->
      matches t (closed_version today t) = true /\
      update_all changes t = closed_version today t /\
      ~ In (closed_version today t) (inserted_rows table changes)) /\
  (forall today t r,
      matches r (closed_version today t) = true -> identity r = identity t) /\
  (forall today s t,
      Sql.holds (change_condition {| src := s; tgt := Some t |}) = true ->
      matches t (new_version today s) = false) /\
  (forall r t,
      In r changes -> In t table -> matches t r = true ->
      update_all changes t = r /\
      ~ In r (inserted_rows table changes)) /\
  (forall r t,
      matches t r = true <-> complete t /\ identity t = identity r) /\
  (forall r,
      In r (inserted_rows table changes) <->
      In r changes /\
      forall t, In t table -> ~ (complete t /\ identity t = identity r)) /\
  (forall r, In r changes -> In r table').
Proof.
  intros Hm. destruct (merge_Some _ _ _ Hm) as [Htable Hle].
  assert (Hupdate : forall r t,
             In r changes -> In t table -> matches t r = true ->
             update_all changes t = r /\ ~ In r (inserted_rows table changes)).
  { intros r t Hr Ht Hmatch. split.
    - now apply update_all_sole_match; [apply Hle| |].
    - intros Hins. apply In_inserted_rows in Hins. destruct Hins as [_ Hno].
      rewrite (Hno t Ht) in Hmatch. discriminate. }
  split; [|split; [exact Htable|split; [|split; [|split; [|split; [|split; [|split]]]]]]].
  - intros t s. unfold matches, merge_condition.
    rewrite !holds_and, !andb_true_iff, !holds_eq. tauto.
  - intros today t Ht Hc Hin.
    assert (Hmatch : matches t (closed_version today t) = true)
      by (apply matches_iff; now split).
    split; [exact Hmatch|]. now apply Hupdate.
  - intros today t r Hmatch. apply matches_iff in Hmatch. tauto.
  - intros today s t Hch.
    destruct (matches t (new_version today s)) eqn:E; [|reflexivity].
    apply matches_iff in E. destruct E as [_ Hid].
    apply change_condition_iff in Hch. destruct Hch as [_ Hd]. exfalso.
    unfold identity in Hid. simpl in Hid. injection Hid as _ He Hf Hl Hp Hn.
    unfold differs in Hd.
    destruct Hd as [Hd|[Hd|[Hd|[Hd|Hd]]]]; destruct Hd as (x & y & Hx & Hy & Hne);
      congruence.
  - exact Hupdate.
  - intros r t. apply matches_iff.
  - intros r. rewrite In_inserted_rows. split; intros [Hin Hno]; (split; [exact Hin|]).
    + intros t Ht Hboth. apply matches_iff in Hboth.
      rewrite (Hno t Ht) in Hboth. discriminate.
    + intros t Ht. destruct (matches t r) eqn:E; [|reflexivity].
      apply matches_iff in E. destruct (Hno t Ht E).
  - intros r Hr. rewrite Htable. apply in_app_iff.
    destruct (matched table r) eqn:E.
    + left. unfold matched in E. apply existsb_exists in E.
      destruct E as [t [Ht Hmatch]]. apply in_map_iff. exists t.
      split; [|exact Ht]. now apply Hupdate.
    + right. unfold inserted_rows. apply filter_In. split; [exact Hr|].
      now rewrite E.
Qed.

Lemma merge_routing_witness :
  matches (closed_version day_2024_06_01 (stored alice_2))
          (new_version day_2024_07_01 (source_row alice_2)) = true /\
  update_all (changeset day_2024_07_01 alice_history [alice_2])
             (closed_version day_2024_06_01 (stored alice_2))
  = new_version day_2024_07_01 (source_row alice_2) /\
  ~ In (new_version day_2024_07_01 (source_row alice_2))
       (inserted_rows alice_history
          (changeset day_2024_07_01 alice_history [alice_2])).
Proof.
  split; [reflexivity|].
  exact (proj1 (proj2 (proj2 (proj2 (proj2 (proj2
    (merge_routing alice_history
       (changeset day_2024_07_01 alice_history [alice_2])
       [ new_version day_2024_07_01 (source_row alice_2);
         closed_version day_2024_07_01
                        (new_version day_2024_06_01 (source_row alice_3)) ]
       eq_refl))))))
    (new_version day_2024_07_01 (source_row alice_2))
    (closed_version day_2024_06_01 (stored alice_2))
    (or_intror (or_introl eq_refl)) (or_introl eq_refl) eq_refl).
Defined.

(* ================================================================== *)
(** ** Unchanged records and new keys *)

Lemma flat_map_all_nil {X Y : Type} (f : X -> list Y) (l : list X) :
  (forall x, In x l -> f x = []) -> flat_map f l = [].
Proof.
  induction l as [|x l IH]; simpl; intros Hall; [reflexivity|].
  rewrite (Hall x) by now left. apply IH. intros y Hy. apply Hall. now right.
Qed.

Lemma In_pair_rows (today : Date) (j : Joined) (r : Row) :
  In r (pair_rows today j) ->
  (Sql.holds (change_condition j) = true /\
   (r = select_closed_version today j \/ r = select_new_version today j)) \/
  (Sql.holds (new_key_condition j) = true /\ r = select_new_version today j).
Proof.
  unfold pair_rows. intros Hr. apply in_app_iff in Hr. destruct Hr as [Hr|Hr].
  - destruct (Sql.holds (change_condition j)); [|destruct Hr].
    left. split; [reflexivity|]. destruct Hr as [<-|[<-|[]]]; auto.
  - destruct (Sql.holds (new_key_condition j)); [|destruct Hr].
    right. destruct Hr as [<-|[]]; auto.
Qed.

(** The rows one record gives: the closed and the new version for each
    active row with its key that it changes, or the new version alone
    when no active row has its key. *)
Lemma In_record_rows (today : Date) (tgts : Table) (s r : Row) :
  In r (record_rows today tgts s) <->
  (exists t, In t tgts /\
             Sql.holds (change_condition {| src := s; tgt := Some t |}) = true /\
             (r = closed_version today t \/ r = new_version today s)) \/
  ((forall t, In t tgts -> Sql.holds (customer_id t == customer_id s)%sql = false) /\
   customer_id s <> None /\ r = new_version today s).
Proof.
  unfold record_rows. rewrite in_flat_map. split.
  - intros [j [Hj Hr]]. apply In_join_row in Hj. destruct Hj as [Hs Hj].
    destruct j as [s' [t|]]; simpl in Hs, Hj; subst s'.
    + destruct Hj as [Ht Hk]. apply In_pair_rows in Hr.
      destruct Hr as [[Hch Hr]|[Hnk _]].
      * left. exists t. repeat split; assumption.
      * rewrite new_key_condition_matched in Hnk; [discriminate|].
        apply holds_eq in Hk. destruct Hk as [k [-> _]]. discriminate.
    + apply In_pair_rows in Hr. destruct Hr as [[Hch _]|[Hnk ->]].
      * rewrite change_condition_unmatched in Hch. discriminate.
      * right. split; [exact Hj|]. split; [|reflexivity].
        rewrite new_key_condition_unmatched in Hnk. cbn [src] in Hnk.
        destruct (customer_id s); [discriminate|discriminate].
  - intros [(t & Ht & Hch & Hr)|(Hno & Hs & ->)].
    + exists {| src := s; tgt := Some t |}. split.
      * apply In_join_row. cbn [src tgt]. split; [reflexivity|].
        split; [exact Ht|]. apply change_condition_iff in Hch.
        destruct Hch as [[k [Hk Hk']] _]. apply holds_eq. eauto.
      * unfold pair_rows. rewrite Hch. apply in_app_iff. left.
        destruct Hr as [->| ->]; [now left | right; now left].
    + exists {| src := s; tgt := None |}. split.
      * apply In_join_row. cbn [src tgt]. now split.
      * unfold pair_rows. rewrite change_condition_unmatched.
        rewrite new_key_condition_unmatched. cbn [src app].
        destruct (customer_id s); [now left|contradiction].
Qed.

(** Every row a record gives carries the key of the record, which is not
    NULL, and its active rows are the new version. *)
Lemma record_rows_shape (today : Date) (tgts : Table) (s r : Row) :
  In r (record_rows today tgts s) ->
  customer_id r = customer_id s /\ customer_id s <> None /\
  (is_active r = Some true -> r = new_version today s).
Proof.
  intros Hr. apply In_record_rows in Hr.
  destruct Hr as [(t & _ & Hch & Hr)|(_ & Hs & ->)].
  - apply change_condition_iff in Hch. destruct Hch as [[k [Hk Hk']] _].
    destruct Hr as [->| ->]; cbn [customer_id closed_version new_version is_active].
    + rewrite Hk, Hk'. split; [reflexivity|]. split; [discriminate|discriminate].
    + rewrite Hk'. split; [reflexivity|]. split; [discriminate|reflexivity].
  - split; [reflexivity|]. split; [exact Hs|reflexivity].
Qed.

(** The new version of a record is not a change for the record. *)
Lemma new_version_not_changed (today : Date) (s : Row) :
  Sql.holds (change_condition {| src := s; tgt := Some (new_version today s) |})
  = false.
Proof.
  destruct (Sql.holds (change_condition _)) eqn:E; [|reflexivity].
  apply change_condition_iff in E. destruct E as [_ Hd]. exfalso.
  unfold differs in Hd. cbn [new_version first_name last_name email phone
                             number_of_orders] in Hd.
  destruct Hd as [Hd|[Hd|[Hd|[Hd|Hd]]]]; destruct Hd as (x & y & Hx & Hy & Hne);
    congruence.
Qed.

Lemma batch_keys_In (new_data : list Customer) (c : Customer) (k : Z) :
  In c new_data -> customer_id (source_row c) = Some k -> In k (batch_keys new_data).
Proof.
  intros Hc Hk. unfold batch_keys. apply in_flat_map. exists c.
  split; [exact Hc|]. rewrite Hk. now left.
Qed.

(** With at most one record per natural key, a key names its record. *)
Lemma batch_keys_unique (new_data : list Customer) (c c' : Customer) (k : Z) :
  NoDup (batch_keys new_data) -> In c new_data -> In c' new_data ->
  customer_id (source_row c) = Some k -> customer_id (source_row c') = Some k ->
  c = c'.
Proof.
  induction new_data as [|a l IH]; intros Hnd Hc Hc' Hk Hk'; [destruct Hc|].
  unfold batch_keys in Hnd. cbn [flat_map] in Hnd. fold (batch_keys l) in Hnd.
  destruct Hc as [->|Hc], Hc' as [->|Hc'].
  - reflexivity.
  - exfalso. rewrite Hk in Hnd. cbn [app] in Hnd.
    inversion Hnd as [|? ? Hnotin _]; subst. apply Hnotin.
    now apply (batch_keys_In l c').
  - exfalso. rewrite Hk' in Hnd. cbn [app] in Hnd.
    inversion Hnd as [|? ? Hnotin _]; subst. apply Hnotin.
    now apply (batch_keys_In l c).
  - apply IH; try assumption.
    destruct (customer_id (source_row a)); [|exact Hnd].
    cbn [app] in Hnd. now inversion Hnd.
Qed.

Section Rerun.

(** A run that merged, on a table of complete rows, a batch with at most
    one record per natural key. *)
Variables (today : Date) (table table' : Table) (new_data : list Customer).
Hypothesis table_complete : Forall complete table.
Hypothesis one_record_per_key : NoDup (batch_keys new_data).
Hypothesis merged : merge table (changeset today table new_data) = Some table'.

Local Abbreviation changes := (changeset today table new_data).

Lemma In_changes_rows (r : Row) :
  In r changes <->
  exists c, In c new_data /\
            In r (record_rows today (delta_df table) (source_row c)).
Proof.
  split.
  - intros Hr.
    apply (Permutation_in _ (changeset_by_records today table new_data)) in Hr.
    now apply in_flat_map in Hr.
  - intros Hr.
    apply (Permutation_in _
             (Permutation_sym (changeset_by_records today table new_data))).
    now apply in_flat_map.
Qed.

(** The rows of the changeset with the key of a record are rows of that
    record. *)
Lemma changes_with_key (c : Customer) (k : Z) (r : Row) :
  In c new_data -> customer_id (source_row c) = Some k ->
  In r changes -> customer_id r = Some k ->
  In r (record_rows today (delta_df table) (source_row c)).
Proof.
  intros Hc Hk Hr Hrk. apply In_changes_rows in Hr. destruct Hr as [c' [Hc' Hr]].
  destruct (record_rows_shape _ _ _ _ Hr) as (Hkey & _ & _).
  assert (c = c') by (apply (batch_keys_unique new_data c c' k); congruence).
  now subst.
Qed.

(** A row of the changeset is in the table after the merge. *)
Lemma changes_stored (r : Row) : In r changes -> In r table'.
Proof.
  intros Hr. destruct (merge_Some _ _ _ merged) as [-> Hle]. apply in_app_iff.
  destruct (matched table r) eqn:E.
  - left. unfold matched in E. apply existsb_exists in E.
    destruct E as [t [Ht Hmatch]]. apply in_map_iff. exists t.
    split; [|exact Ht]. now apply update_all_sole_match; [apply Hle| |].
  - right. unfold inserted_rows. apply filter_In. split; [exact Hr|].
    now rewrite E.
Qed.

(** After the merge, an active row with the key of a record is the new
    version of the record or a stored row the record does not change. *)
Lemma active_rows_agree (c : Customer) (r : Row) :
  In c new_data -> In r table' -> is_active r = Some true ->
  Sql.holds (customer_id r == customer_id (source_row c))%sql = true ->
  Sql.holds (change_condition {| src := source_row c; tgt := Some r |}) = false.
Proof.
  intros Hc Hr Ha Hkey. apply holds_eq in Hkey. destruct Hkey as [k [Hrk Hk]].
  assert (Hnew : In r changes ->
    Sql.holds (change_condition {| src := source_row c; tgt := Some r |}) = false).
  { intros Hin. pose proof (changes_with_key c k r Hc Hk Hin Hrk) as Hrows.
    destruct (record_rows_shape _ _ _ _ Hrows) as (_ & _ & Hactive).
    rewrite (Hactive Ha). apply new_version_not_changed. }
  destruct (merge_Some _ _ _ merged) as [Htable Hle]. rewrite Htable in Hr.
  apply in_app_iff in Hr. destruct Hr as [Hr|Hr].
  - apply in_map_iff in Hr. destruct Hr as [t [Hupd Ht]].
    destruct (update_all_cases changes t) as [[Hsame Hno]|[Hin _]].
    + rewrite Hsame in Hupd. subst t.
      destruct (Sql.holds (change_condition _)) eqn:Hch; [|reflexivity].
      exfalso.
      assert (Hclosed : In (closed_version today r) changes).
      { apply In_changes_rows. exists c. split; [exact Hc|].
        apply In_record_rows. left. exists r.
        split; [now apply In_delta_df|]. split; [exact Hch|now left]. }
      rewrite Forall_forall in table_complete.
      assert (Hmatch : matches r (closed_version today r) = true)
        by (apply matches_iff; split; [now apply table_complete|reflexivity]).
      rewrite (Hno _ Hclosed) in Hmatch. discriminate.
    + rewrite Hupd in Hin. now apply Hnew.
  - apply In_inserted_rows in Hr. destruct Hr as [Hin _]. now apply Hnew.
Qed.

(** After the merge, the key of every keyed record has an active row. *)
Lemma active_row_exists (c : Customer) (k : Z) :
  In c new_data -> customer_id (source_row c) = Some k ->
  exists r, In r table' /\ is_active r = Some true /\ customer_id r = Some k.
Proof.
  intros Hc Hk.
  assert (Hnew : In (new_version today (source_row c))
                    (record_rows today (delta_df table) (source_row c)) ->
                 exists r, In r table' /\ is_active r = Some true /\
                           customer_id r = Some k).
  { intros Hin. exists (new_version today (source_row c)).
    split; [|split; [reflexivity|exact Hk]].
    apply changes_stored. apply In_changes_rows. eauto. }
  destruct (filter (fun t => Sql.holds (customer_id t == customer_id (source_row c))%sql)
                   (delta_df table)) as [|t ts] eqn:Ematch.
  - apply Hnew. apply In_record_rows. right.
    split; [|split; [rewrite Hk; discriminate|reflexivity]].
    intros t Ht.
    destruct (Sql.holds (customer_id t == customer_id (source_row c))%sql) eqn:E;
      [|reflexivity].
    assert (Hf : In t (filter (fun t => Sql.holds (customer_id t ==
                                          customer_id (source_row c))%sql)
                              (delta_df table)))
      by (apply filter_In; now split).
    rewrite Ematch in Hf. destruct Hf.
  - destruct (existsb (fun t => Sql.holds (change_condition
                                  {| src := source_row c; tgt := Some t |}))
                      (delta_df table)) eqn:Echanged.
    + apply existsb_exists in Echanged. destruct Echanged as [t' [Ht' Hch]].
      apply Hnew. apply In_record_rows. left. exists t'.
      split; [exact Ht'|]. split; [exact Hch|now right].
    + assert (Ht : In t (filter (fun t => Sql.holds (customer_id t ==
                                            customer_id (source_row c))%sql)
                                (delta_df table)))
        by (rewrite Ematch; now left).
      apply filter_In in Ht. destruct Ht as [Ht Hkey].
      assert (Htk : customer_id t = Some k).
      { apply holds_eq in Hkey. destruct Hkey as [k' [Htk Hck]]. congruence. }
      assert (Hnone : forall r, ~ In r (record_rows today (delta_df table)
                                                    (source_row c))).
      { intros r Hr. apply In_record_rows in Hr.
        destruct Hr as [(t' & Ht' & Hch & _)|(Hno & _)].
        - assert (Hex : existsb (fun t => Sql.holds (change_condition
                                      {| src := source_row c; tgt := Some t |}))
                                (delta_df table) = true)
            by (apply existsb_exists; eauto).
          congruence.
        - rewrite (Hno t Ht) in Hkey. discriminate. }
      exists t. apply In_delta_df in Ht. destruct Ht as [Ht Ha].
      split; [|split; [exact Ha|exact Htk]].
      destruct (merge_Some _ _ _ merged) as [-> _]. apply in_app_iff. left.
      apply in_map_iff. exists t. split; [|exact Ht].
      destruct (update_all_cases changes t) as [[Hsame _]|[Hin Hmatch]];
        [exact Hsame|].
      exfalso. apply (Hnone (update_all changes t)).
      apply (changes_with_key c k); try assumption.
      apply matches_same_key in Hmatch. congruence.
Qed.

(** On the table the run left, no record of the batch gives a row. *)
Lemma rerun_record (today' : Date) (c : Customer) :
  In c new_data -> record_rows today' (delta_df table') (source_row c) = [].
Proof.
  intros Hc.
  destruct (record_rows today' (delta_df table') (source_row c)) as [|r l] eqn:E;
    [reflexivity|].
  exfalso.
  assert (Hr : In r (record_rows today' (delta_df table') (source_row c)))
    by (rewrite E; now left).
  apply In_record_rows in Hr. destruct Hr as [(t & Ht & Hch & _)|(Hno & Hs & _)].
  - apply In_delta_df in Ht. destruct Ht as [Ht Ha].
    rewrite (active_rows_agree c t Hc Ht Ha) in Hch; [discriminate|].
    apply change_condition_iff in Hch. destruct Hch as [[k [Hk Hk']] _].
    apply holds_eq. eauto.
  - destruct (customer_id (source_row c)) as [k|] eqn:Hk; [|contradiction].
    destruct (active_row_exists c k Hc Hk) as (r' & Hr' & Ha & Hrk).
    assert (Hin : In r' (delta_df table')) by now apply In_delta_df.
    specialize (Hno r' Hin).
    assert (Hyes : Sql.holds (customer_id r' == Some k)%sql = true)
      by (apply holds_eq; eauto).
    congruence.
Qed.

(** A second run with the same batch finds nothing to change. *)
Lemma rerun_changeset (today' : Date) : changeset today' table' new_data = [].
Proof.
  apply Permutation_nil. symmetry.
  etransitivity; [apply changeset_by_records|].
  rewrite flat_map_all_nil; [constructor|].
  intros c Hc. now apply rerun_record.
Qed.

End Rerun.




(** C7, as stated, fails: the first record of the batch has no natural
    key and no active row matches it (the table is empty), yet the
    changeset holds no row for it: its one row is the row of the other
    record, and the run stores that row alone. *)
Lemma null_key_gives_no_new_row :
  c_customer_id anonymous = None /\
  delta_df [] = [] /\
  record_rows day_2024_06_01 (delta_df []) (source_row anonymous) = [] /\
  changeset day_2024_06_01 [] [anonymous; bob_1]
  = [new_version day_2024_06_01 (source_row bob_1)] /\
  fst (dim_customers_scd_etl_job (env_with day_2024_06_01 [anonymous; bob_1])
                                 may june (world_with [])) = Returned tt /\
  dim_customers_scd_table
    (snd (dim_customers_scd_etl_job (env_with day_2024_06_01 [anonymous; bob_1])
                                    may june (world_with [])))
  = Some [new_version day_2024_06_01 (source_row bob_1)].
Proof. repeat split; reflexivity. Qed.

(** C7, amended: a batch record whose natural key is not NULL (it is
    given and fits 64 bits) and matches no active stored row gives
    exactly one row of the changeset, with all its source attributes
    ([number_of_orders] as cast to a 32-bit integer, the record's own
    value when that fits 32 bits), [is_active] true,
    [effective_start_date] the run date and [effective_end_date]
    9999-12-31; when no stored row, active or closed, carries its key
    and its tracked values without NULL, in particular when no stored
    row carries its key, the row matches no stored row and a merge that
    succeeds inserts it as a new row. *)
Theorem new_key_is_inserted (today : Date) (table : Table)
    (new_data : list Customer) (c : Customer) (k : Z) :
  In c new_data -> customer_id (source_row c) = Some k ->
  (forall t, In t table -> is_active t = Some true -> customer_id t <> Some k) ->
  let row := {| customer_id := Some k;
                first_name := c_first_name c;
                last_name := c_last_name c;
                email := c_email c;
                phone := c_phone c;
                number_of_orders :=
                  option_map int_of_long (long_column (c_number_of_orders c));
                updated_at := c_updated_at c;
                effective_start_date := Some today;
                effective_end_date := Some (days_from_civil 9999 12 31);
                is_active := Some true |} in
  let changes := changeset today table new_data in
  record_rows today (delta_df table) (source_row c) = [row] /\
  Permutation changes
    (flat_map (fun c' => record_rows today (delta_df table) (source_row c')) new_data) /\
  In row (new_records today
            (left_join (cast_columns (new_df new_data)) (delta_df table))) /\
  c_customer_id c = Some k /\ - 2 ^ 63 <= k < 2 ^ 63 /\
  (forall n, c_number_of_orders c = Some n -> - 2 ^ 31 <= n < 2 ^ 31 ->
             number_of_orders row = Some n) /\
  ((forall t, In t table -> ~ (complete t /\ identity t = identity row)) ->
   (forall t, In t table -> matches t row = false) /\
   In row (inserted_rows table changes) /\
   forall table', merge table changes = Some table' -> In row table') /\
  ((forall t, In t table -> customer_id t <> Some k) ->
   forall t, In t table -> ~ (complete t /\ identity t = identity row)).
Proof.
  intros Hc Hk Hno. cbv zeta.
  set (row := {| customer_id := Some k;
                 first_name := c_first_name c;
                 last_name := c_last_name c;
                 email := c_email c;
                 phone := c_phone c;
                 number_of_orders :=
                   option_map int_of_long (long_column (c_number_of_orders c));
                 updated_at := c_updated_at c;
                 effective_start_date := Some today;
                 effective_end_date := Some (days_from_civil 9999 12 31);
                 is_active := Some true |}).
  assert (Hrow : row = new_version today (source_row c)).
  { unfold row, new_version. rewrite Hk. reflexivity. }
  assert (Hjoin : join_row (delta_df table) (source_row c)
                  = [ {| src := source_row c; tgt := None |} ]).
  { apply join_row_unmatched. intros t Ht. apply In_delta_df in Ht.
    destruct Ht as [Ht Ha].
    destruct (Sql.holds (customer_id t == customer_id (source_row c))%sql) eqn:E;
      [|reflexivity].
    apply holds_eq in E. destruct E as [k' [Htk Hck]].
    exfalso. apply (Hno t Ht Ha). congruence. }
  assert (Hnk : Sql.holds (new_key_condition {| src := source_row c; tgt := None |})
                = true).
  { rewrite new_key_condition_unmatched. cbn [src]. now rewrite Hk. }
  assert (Hrows : record_rows today (delta_df table) (source_row c) = [row]).
  { unfold record_rows. rewrite Hjoin. cbn [flat_map]. rewrite app_nil_r.
    unfold pair_rows. rewrite change_condition_unmatched, Hnk, Hrow. reflexivity. }
  assert (Hnew : In row (new_records today
            (left_join (cast_columns (new_df new_data)) (delta_df table)))).
  { unfold new_records. rewrite cast_new_df, Hrow.
    change (new_version today (source_row c))
      with (select_new_version today {| src := source_row c; tgt := None |}).
    apply in_map. apply filter_In. split; [|exact Hnk].
    apply In_left_join. exists (source_row c). split; [now apply in_map|].
    rewrite Hjoin. now left. }
  assert (Hchanges : In row (changeset today table new_data)).
  { unfold changeset, final_changes. apply in_app_iff. right.
    apply in_app_iff. now right. }
  pose proof (proj1 (long_column_Some _ _) Hk) as [Hraw Hrange].
  split; [exact Hrows|]. split; [apply changeset_by_records|].
  split; [exact Hnew|]. split; [exact Hraw|]. split; [exact Hrange|].
  split; [|split].
  - intros n Hn Hsmall. unfold row. cbn [number_of_orders]. rewrite Hn.
    cbn [long_column]. rewrite (proj2 (long_of_int_Some n n)) by lia.
    cbn [option_map]. now rewrite int_of_long_small.
  - intros Habsent.
    assert (Hfree : forall t, In t table -> matches t row = false).
    { intros t Ht. destruct (matches t row) eqn:E; [|reflexivity].
      apply matches_iff in E. destruct (Habsent t Ht E). }
    split; [exact Hfree|]. split.
    + apply In_inserted_rows. now split.
    + intros table' Hm. apply merge_Some in Hm. destruct Hm as [-> _].
      apply in_app_iff. right. apply In_inserted_rows. now split.
  - intros Habsent t Ht [_ Hid]. apply identity_key in Hid.
    apply (Habsent t Ht). exact Hid.
Qed.

Lemma new_key_is_inserted_witness :
  record_rows day_2024_06_01 (delta_df [stored alice_2]) (source_row bob_1)
  = [new_version day_2024_06_01 (source_row bob_1)] /\
  In (new_version day_2024_06_01 (source_row bob_1))
     (inserted_rows [stored alice_2]
        (changeset day_2024_06_01 [stored alice_2] [alice_3; bob_1])).
Proof.
  assert (Hactive : forall t, In t [stored alice_2] -> is_active t = Some true ->
                              customer_id t <> Some 2)
    by (intros t [<-|[]] _; discriminate).
  assert (Habsent : forall t, In t [stored alice_2] -> customer_id t <> Some 2)
    by (intros t [<-|[]]; discriminate).
  destruct (new_key_is_inserted day_2024_06_01 [stored alice_2] [alice_3; bob_1]
              bob_1 2 (or_intror (or_introl eq_refl)) eq_refl Hactive)
    as (Hrows & _ & _ & _ & _ & _ & Hinsert & Hkey).
  split; [exact Hrows|]. exact (proj1 (proj2 (Hinsert (Hkey Habsent)))).
Defined.

(* ================================================================== *)
(** ** Further properties of the Reconciler *)

Arguments crawler_events : simpl never.

Lemma run_is_outcome (env : Env) (start_date end_date : string) (w : World) :
  reconciler_run env start_date end_date w
    (dim_customers_scd_etl_job env start_date end_date w).
Proof.
  pose proof (dim_customers_scd_etl_job_cases env start_date end_date w) as Hrun.
  cbv zeta in Hrun.
  destruct (dim_customers_scd_table w) as [table|] eqn:Hw.
  - destruct (collect_customer_data env start_date end_date) as [|c cs] eqn:Hb.
    + rewrite Hrun. now apply (NothingToDo env start_date end_date w table).
    + assert (Hne : collect_customer_data env start_date end_date <> [])
        by (rewrite Hb; discriminate).
      destruct (types_inferred (c :: cs)) eqn:Ht.
      * destruct (merge table (changeset (utc_today env) table (c :: cs)))
          as [table'|] eqn:Hm; rewrite Hrun, <- Hb.
        -- apply (Committed env start_date end_date w table table');
             try assumption; now rewrite Hb.
        -- apply (Refused env start_date end_date w table);
             try assumption; now rewrite Hb.
      * rewrite Hrun, <- Hb.
        apply (Untyped env start_date end_date w table); try assumption.
        now rewrite Hb.
  - rewrite Hrun. now apply NoTable.
Qed.

Lemma crawler_events_no_merge (env : Env) (crawler_name : string) :
  filter is_merge (crawler_events env crawler_name) = [].
Proof.
  unfold crawler_events.
  now destruct (glue_start_crawler env crawler_name) as [response|[|m]].
Qed.

Lemma crawler_events_one_start (env : Env) (crawler_name : string) :
  filter is_start_crawler (crawler_events env crawler_name)
  = [StartCrawler crawler_name].
Proof.
  unfold crawler_events.
  now destruct (glue_start_crawler env crawler_name) as [response|[|m]].
Qed.

(** X1: a run of the Reconciler writes the dimension table in one merge
    or not at all.  Without a Delta table it raises at once and leaves the
    world as it is, nothing extracted; in every case the extract table is
    not written and the trace only grows; the run executes at most one
    merge; when it executes none the dimension table is what it was; and
    a run that raises has executed none. *)
Theorem reconciler_merges_once_or_not_at_all (env : Env)
    (start_date end_date : string) (w : World) :
  let run := dim_customers_scd_etl_job env start_date end_date w in
  (dim_customers_scd_table w = None ->
   run = (Raised (Exception "Delta Table does NOT exists!"), w)) /\
  future_orders_table (snd run) = future_orders_table w /\
  exists evs,
    events (snd run) = events w ++ evs /\
    (List.length (filter is_merge evs) <= 1)%nat /\
    (filter is_merge evs = [] ->
     dim_customers_scd_table (snd run) = dim_customers_scd_table w) /\
    (forall e, fst run = Raised e -> filter is_merge evs = []) /\
    (forall changes, In (Merged changes) evs ->
       exists table,
         dim_customers_scd_table w = Some table /\
         changes = changeset (utc_today env) table
                             (collect_customer_data env start_date end_date) /\
         merge table changes = dim_customers_scd_table (snd run)).
Proof.
  intros run. unfold run. clear run.
  pose proof (run_is_outcome env start_date end_date w) as Hout.
  destruct Hout as [Hw | table Hw Hb | table Hw Hne Ht
                   | table Hw Hne Ht Hm | table table' Hw Hne Ht Hm];
    cbn [fst snd with_events future_orders_table events dim_customers_scd_table].
  - split; [reflexivity|]. split; [reflexivity|]. exists [].
    rewrite app_nil_r. repeat split; auto. intros changes [].
  - rewrite Hw. split; [discriminate|]. split; [reflexivity|]. eexists.
    split; [reflexivity|]. simpl. repeat split; auto.
    intros changes [H|[H|[]]]; discriminate.
  - rewrite Hw. split; [discriminate|]. split; [reflexivity|]. eexists.
    split; [reflexivity|]. simpl. repeat split; auto.
    intros changes [H|[]]; discriminate.
  - rewrite Hw. split; [discriminate|]. split; [reflexivity|]. eexists.
    split; [reflexivity|]. simpl. repeat split; auto.
    intros changes [H|[H|[H|[H|[]]]]]; discriminate.
  - rewrite Hw. split; [discriminate|]. split; [reflexivity|]. eexists.
    split; [reflexivity|].
    cbn [app filter is_merge].
    rewrite filter_app, crawler_events_no_merge. cbn [app filter is_merge List.length].
    split; [lia|]. split; [discriminate|]. split; [discriminate|].
    intros changes Hin. exists table. split; [reflexivity|].
    destruct Hin as [H|[H|[H|[H|[H|[H|Hin]]]]]]; try discriminate.
    + injection H as <-. now split.
    + exfalso. apply in_app_iff in Hin.
      assert (Hf : In (Merged changes)
                      (filter is_merge (crawler_events env "dimCustomersScdCrawler"
                                        ++ [Printed "Crawler run is completed"])))
        by (apply filter_In; split; [now apply in_app_iff|reflexivity]).
      rewrite filter_app, crawler_events_no_merge in Hf. destruct Hf.
Qed.

Lemma reconciler_merges_once_or_not_at_all_witness :
  dim_customers_scd_etl_job (env_with day_2024_06_01 [alice_3; bob_1]) may june
    {| dim_customers_scd_table := None; future_orders_table := None; events := [] |}
  = (Raised (Exception "Delta Table does NOT exists!"),
     {| dim_customers_scd_table := None; future_orders_table := None; events := [] |}).
Proof.
  exact (proj1 (reconciler_merges_once_or_not_at_all
                  (env_with day_2024_06_01 [alice_3; bob_1]) may june
                  {| dim_customers_scd_table := None;
                     future_orders_table := None;
                     events := [] |})
               eq_refl).
Defined.

(** X2: the Reconciler asks for the catalog refresh exactly when its merge
    committed: the trace of a run holds a [start_crawler] call if and only
    if it holds a merge; there is then one call, for the crawler
    [dimCustomersScdCrawler], after the merge; and this happens exactly
    in the runs that return normally on a batch that is not empty. *)
Theorem crawler_runs_iff_merge_committed (env : Env)
    (start_date end_date : string) (w : World) :
  let run := dim_customers_scd_etl_job env start_date end_date w in
  exists evs,
    events (snd run) = events w ++ evs /\
    filter is_start_crawler evs
    = map (fun _ => StartCrawler "dimCustomersScdCrawler") (filter is_merge evs) /\
    (forall before after,
        evs = before ++ StartCrawler "dimCustomersScdCrawler" :: after ->
        exists changes, In (Merged changes) before) /\
    (filter is_merge evs <> [] <->
     fst run = Returned tt /\
     collect_customer_data env start_date end_date <> []).
Proof.
  intros run. unfold run. clear run.
  pose proof (run_is_outcome env start_date end_date w) as Hout.
  destruct Hout as [Hw | table Hw Hb | table Hw Hne Ht
                   | table Hw Hne Ht Hm | table table' Hw Hne Ht Hm];
    cbn [fst snd with_events future_orders_table events dim_customers_scd_table].
  - exists []. rewrite app_nil_r. split; [reflexivity|]. split; [reflexivity|].
    split.
    + intros before after E. destruct before; discriminate.
    + split; [intros H; now destruct H|intros [H _]; discriminate].
  - eexists. split; [reflexivity|]. split; [reflexivity|]. split.
    + intros before after E.
      do 3 (destruct before as [|? before]; [cbn in E; discriminate E|]).
      cbn in E; discriminate E.
    + simpl. split; [intros H; now destruct H|intros [_ H]; now destruct H].
  - eexists. split; [reflexivity|]. split; [reflexivity|]. split.
    + intros before after E.
      do 2 (destruct before as [|? before]; [cbn in E; discriminate E|]).
      cbn in E; discriminate E.
    + simpl. split; [intros H; now destruct H|intros [H _]; discriminate].
  - eexists. split; [reflexivity|]. split; [reflexivity|]. split.
    + intros before after E.
      do 5 (destruct before as [|? before]; [cbn in E; discriminate E|]).
      cbn in E; discriminate E.
    + simpl. split; [intros H; now destruct H|intros [H _]; discriminate].
  - eexists. split; [reflexivity|].
    cbn [app filter is_merge is_start_crawler map].
    rewrite !filter_app, crawler_events_no_merge, crawler_events_one_start.
    split; [reflexivity|]. split.
    + intros before after E.
      exists (changeset (utc_today env) table
                        (collect_customer_data env start_date end_date)).
      do 6 (destruct before as [|? before]; [cbn in E; discriminate E|]).
      cbn in E. injection E as <- <- <- <- <- <- _. do 4 right. now left.
    + split; [intros _; now split|intros _; discriminate].
Qed.

(* ------------------------------------------------------------------ *)
(** *** What a merge leaves alone *)

(** Every row of a changeset carries the natural key of a batch record. *)
Lemma changeset_keys (today : Date) (table : Table) (new_data : list Customer)
    (r : Row) :
  In r (changeset today table new_data) ->
  exists c k, In c new_data /\ c_customer_id c = Some k /\ customer_id r = Some k.
Proof.
  intros Hr.
  apply (Permutation_in _ (changeset_by_records today table new_data)) in Hr.
  apply in_flat_map in Hr. destruct Hr as [c [Hc Hr]].
  destruct (record_rows_shape _ _ _ _ Hr) as (Hkey & Hs & _).
  destruct (customer_id (source_row c)) as [k|] eqn:Hk; [|contradiction].
  exists c, k. split; [assumption|]. split; [now apply source_row_key|exact Hkey].
Qed.

Lemma update_all_key (changes : Table) (t : Row) :
  customer_id (update_all changes t) = customer_id t.
Proof. apply identity_key, update_all_identity. Qed.

Lemma filter_none {X : Type} (p : X -> bool) (l : list X) :
  (forall x, In x l -> p x = false) -> filter p l = [].
Proof.
  induction l as [|x l IH]; simpl; intros Hall; [reflexivity|].
  rewrite (Hall x) by now left. apply IH. intros y Hy. apply Hall. now right.
Qed.

Lemma filter_map_same {X : Type} (p : X -> bool) (f : X -> X) (l : list X) :
  (forall x, In x l -> p (f x) = p x) ->
  (forall x, In x l -> p x = true -> f x = x) ->
  filter p (map f l) = filter p l.
Proof.
  induction l as [|x l IH]; simpl; intros Hp Hf; [reflexivity|].
  rewrite (Hp x) by now left.
  destruct (p x) eqn:E.
  - rewrite (Hf x) by (auto; now left). f_equal. apply IH; auto.
  - apply IH; auto.
Qed.

Lemma filter_map_length {X : Type} (p : X -> bool) (f : X -> X) (l : list X) :
  (forall x, p (f x) = p x) ->
  List.length (filter p (map f l)) = List.length (filter p l).
Proof.
  intros Hp. induction l as [|x l IH]; simpl; [reflexivity|].
  rewrite Hp. destruct (p x); simpl; now rewrite IH.
Qed.

Lemma has_key_update_all (k : Z) (changes : Table) (t : Row) :
  has_key k (update_all changes t) = has_key k t.
Proof. unfold has_key. now rewrite update_all_key. Qed.

(** A stored row without natural key is matched by no row. *)
Lemma keyless_unmatched (changes : Table) (t : Row) :
  customer_id t = None -> update_all changes t = t.
Proof.
  intros Hnull. destruct (update_all_cases changes t) as [[H _]|[_ Hm]]; [exact H|].
  apply matches_iff in Hm. destruct Hm as [[Hk _] _]. contradiction.
Qed.

Lemma merged_history (today : Date) (table table' : Table)
    (new_data : list Customer) (k : Z) :
  merge table (changeset today table new_data) = Some table' ->
  ~ In (Some k) (map c_customer_id new_data) ->
  history k table' = history k table.
Proof.
  intros Hm Hk. apply merge_Some in Hm. destruct Hm as [-> _].
  assert (Hfree : forall r, In r (changeset today table new_data) ->
                            has_key k r = false).
  { intros r Hr. destruct (has_key k r) eqn:E; [|reflexivity].
    apply has_key_iff in E.
    destruct (changeset_keys _ _ _ _ Hr) as (c & k' & Hc & Hck & Hrk).
    exfalso. apply Hk. apply in_map_iff. exists c. split; [congruence|assumption]. }
  unfold history. rewrite filter_app.
  rewrite (filter_none (has_key k) (inserted_rows _ _)), app_nil_r.
  - apply filter_map_same.
    + intros t _. apply has_key_update_all.
    + intros t _ Ht.
      destruct (update_all_cases (changeset today table new_data) t)
        as [[H _]|[Hin _]]; [exact H|].
      apply Hfree in Hin. rewrite has_key_update_all in Hin. congruence.
  - intros r Hr. apply In_inserted_rows in Hr. now apply Hfree.
Qed.

Lemma merged_keyless (today : Date) (table table' : Table)
    (new_data : list Customer) :
  merge table (changeset today table new_data) = Some table' ->
  keyless table' = keyless table.
Proof.
  intros Hm. apply merge_Some in Hm. destruct Hm as [-> _].
  unfold keyless. rewrite filter_app.
  rewrite (filter_none _ (inserted_rows _ _)), app_nil_r.
  - apply filter_map_same.
    + intros t _. now rewrite update_all_key.
    + intros t _ Ht. apply keyless_unmatched.
      destruct (customer_id t); [discriminate|reflexivity].
  - intros r Hr. apply In_inserted_rows in Hr. destruct Hr as [Hr _].
    destruct (changeset_keys _ _ _ _ Hr) as (c & k' & _ & _ & Hrk).
    now rewrite Hrk.
Qed.

(** X3: a run never inserts, updates or removes a row of a customer who
    is not in its batch: for a natural key that no batch record carries,
    the rows stored for the key after the run are the rows stored before,
    in the same order, whatever state the table is in and however the run
    ends. *)
Theorem customers_outside_the_batch_are_untouched (env : Env)
    (start_date end_date : string) (w : World) (table table' : Table) (k : Z) :
  dim_customers_scd_table w = Some table ->
  dim_customers_scd_table (snd (dim_customers_scd_etl_job env start_date end_date w))
  = Some table' ->
  ~ In (Some k) (map c_customer_id (collect_customer_data env start_date end_date)) ->
  history k table' = history k table.
Proof.
  intros Hw Hafter Hk.
  pose proof (run_is_outcome env start_date end_date w) as Hout.
  destruct Hout as [Hw' | t0 Hw' Hb | t0 Hw' Hne Ht
                   | t0 Hw' Hne Ht Hm | t0 t1 Hw' Hne Ht Hm];
    cbn [snd with_events dim_customers_scd_table] in Hafter;
    try (rewrite Hw in Hafter; injection Hafter as <-; reflexivity).
  injection Hafter as <-. rewrite Hw in Hw'. injection Hw' as <-.
  exact (merged_history _ _ _ _ _ Hm Hk).
Qed.

Lemma customers_outside_the_batch_are_untouched_witness :
  history 2 [ closed_version day_2024_06_01 (stored alice_2);
              stored bob_1;
              new_version day_2024_06_01 (source_row alice_3) ]
  = history 2 [stored alice_2; stored bob_1].
Proof.
  apply (customers_outside_the_batch_are_untouched
           (env_with day_2024_06_01 [alice_3]) may june
           (world_with [stored alice_2; stored bob_1])
           [stored alice_2; stored bob_1]
           [ closed_version day_2024_06_01 (stored alice_2);
             stored bob_1;
             new_version day_2024_06_01 (source_row alice_3) ]
           2 eq_refl eq_refl).
  simpl. intros [H|[]]. discriminate.
Defined.

(** X4: the Reconciler never deletes.  A run on an existing table leaves
    a table; for every natural key it stores at least as many rows as
    before, in all it stores at least as many rows as before, and the rows
    without natural key are exactly the ones stored before. *)
Theorem reconciler_never_deletes (env : Env) (start_date end_date : string)
    (w : World) (table : Table) :
  dim_customers_scd_table w = Some table ->
  exists table',
    dim_customers_scd_table (snd (dim_customers_scd_etl_job env start_date end_date w))
    = Some table' /\
    (forall k, List.length (history k table) <= List.length (history k table'))%nat /\
    (List.length table <= List.length table')%nat /\
    keyless table' = keyless table.
Proof.
  intros Hw.
  pose proof (run_is_outcome env start_date end_date w) as Hout.
  destruct Hout as [Hw' | t0 Hw' Hb | t0 Hw' Hne Ht
                   | t0 Hw' Hne Ht Hm | t0 t1 Hw' Hne Ht Hm];
    cbn [snd with_events dim_customers_scd_table];
    try (exists table; rewrite Hw; repeat split; auto).
  rewrite Hw in Hw'. injection Hw' as <-.
  exists t1. split; [reflexivity|].
  pose proof (merged_keyless _ _ _ _ Hm) as Hkeyless.
  apply merge_Some in Hm. destruct Hm as [-> _].
  split; [|split; [|exact Hkeyless]].
  - intros k. unfold history. rewrite filter_app, length_app.
    rewrite (filter_map_length (has_key k)); [lia|].
    intros t. apply has_key_update_all.
  - rewrite length_app, length_map. lia.
Qed.

Lemma reconciler_never_deletes_witness :
  exists table',
    dim_customers_scd_table
      (snd (dim_customers_scd_etl_job (env_with day_2024_06_01 [alice_3; bob_1])
                                      may june (world_with [stored alice_2])))
    = Some table' /\
    (List.length [stored alice_2] <= List.length table')%nat.
Proof.
  destruct (reconciler_never_deletes (env_with day_2024_06_01 [alice_3; bob_1])
              may june (world_with [stored alice_2]) [stored alice_2] eq_refl)
    as (table' & Htable & _ & Hlen & _).
  exists table'. split; [exact Htable | exact Hlen].
Defined.

(* ------------------------------------------------------------------ *)
(** *** The first run and duplicate records *)

Lemma left_join_empty (srcs : Table) :
  left_join srcs [] = map (fun s => {| src := s; tgt := None |}) srcs.
Proof.
  unfold left_join. induction srcs as [|s l IH]; simpl; [reflexivity|].
  now rewrite IH.
Qed.

Lemma changeset_on_empty_table (today : Date) (new_data : list Customer) :
  changeset today [] new_data
  = map (fun c => new_version today (source_row c)) (filter keyed new_data).
Proof.
  unfold changeset, final_changes. rewrite cast_new_df.
  change (delta_df []) with (@nil Row). rewrite left_join_empty, map_map.
  unfold updated_old_records, updated_new_records, new_records.
  induction new_data as [|c l IH]; [reflexivity|].
  cbn [map filter]. rewrite change_condition_unmatched, new_key_condition_unmatched.
  unfold keyed at 1. cbn [src].
  destruct (customer_id (source_row c)) eqn:Hk;
    cbn [Sql.holds Sql.isNotNull map app].
  - rewrite <- IH.
    rewrite (filter_none (fun j => Sql.holds (change_condition j))); [reflexivity|].
    intros j Hj. apply in_map_iff in Hj. destruct Hj as [x [<- _]].
    apply change_condition_unmatched.
  - exact IH.
Qed.

Lemma merge_into_empty_table (changes : Table) : merge [] changes = Some changes.
Proof.
  unfold merge, inserted_rows, matched. simpl. f_equal.
  induction changes as [|s l IH]; simpl; [reflexivity|]. now rewrite IH.
Qed.

(** X5: the first run, on the table as created (empty): when the batch
    gives every column a type, the run returns normally and the table then
    holds, as a bag, one active row, open from the run date, for each
    batch record that has a natural key, and nothing else.  A record has
    a natural key when its key is given and fits 64 bits; its row carries
    the values of the record as the job casts them ([number_of_orders]
    as a 32-bit integer).  Records with the same key are all stored;
    records without key are left out. *)
Theorem first_run_stores_every_keyed_record (env : Env)
    (start_date end_date : string) (w : World) :
  dim_customers_scd_table w = Some [] ->
  types_inferred (collect_customer_data env start_date end_date) = true ->
  fst (dim_customers_scd_etl_job env start_date end_date w) = Returned tt /\
  (exists table',
     dim_customers_scd_table (snd (dim_customers_scd_etl_job env start_date end_date w))
     = Some table' /\
     Permutation table'
       (map (fun c => new_version (utc_today env) (source_row c))
            (filter keyed (collect_customer_data env start_date end_date)))) /\
  (forall c, keyed c = true <->
             exists k, c_customer_id c = Some k /\ - 2 ^ 63 <= k < 2 ^ 63) /\
  (forall c, number_of_orders (source_row c)
             = match c_number_of_orders c with
               | Some n => if (- 2 ^ 63 <=? n) && (n <? 2 ^ 63)
                           then Some ((n + 2 ^ 31) mod 2 ^ 32 - 2 ^ 31)
                           else None
               | None => None
               end).
Proof.
  intros Hw Htypes.
  assert (Hkeyed : forall c, keyed c = true <->
             exists k, c_customer_id c = Some k /\ - 2 ^ 63 <= k < 2 ^ 63).
  { intros c. unfold keyed. cbn [source_row customer_id]. split.
    - destruct (long_column (c_customer_id c)) as [k|] eqn:Hk; [|discriminate].
      intros _. exists k. now apply long_column_Some.
    - intros [k Hk]. apply long_column_Some in Hk. now rewrite Hk. }
  assert (Horders : forall c, number_of_orders (source_row c)
             = match c_number_of_orders c with
               | Some n => if (- 2 ^ 63 <=? n) && (n <? 2 ^ 63)
                           then Some ((n + 2 ^ 31) mod 2 ^ 32 - 2 ^ 31)
                           else None
               | None => None
               end).
  { intros c. cbn [source_row number_of_orders]. unfold long_column, long_of_int.
    destruct (c_number_of_orders c) as [n|]; [|reflexivity].
    destruct ((- 2 ^ 63 <=? n) && (n <? 2 ^ 63)); reflexivity. }
  pose proof (run_is_outcome env start_date end_date w) as Hout.
  destruct Hout as [Hw' | t0 Hw' Hb | t0 Hw' Hne Ht
                   | t0 Hw' Hne Ht Hm | t0 t1 Hw' Hne Ht Hm];
    cbn [fst snd with_events dim_customers_scd_table]; try congruence.
  - rewrite Hb in Htypes. discriminate.
  - rewrite Hw in Hw'. injection Hw' as <-.
    rewrite merge_into_empty_table in Hm. discriminate.
  - rewrite Hw in Hw'. injection Hw' as <-.
    rewrite merge_into_empty_table, changeset_on_empty_table in Hm.
    injection Hm as <-. split; [reflexivity|].
    split; [|split; [exact Hkeyed|exact Horders]].
    eexists. split; [reflexivity|]. apply Permutation_refl.
Qed.

Lemma first_run_stores_every_keyed_record_witness :
  exists table',
    dim_customers_scd_table
      (snd (dim_customers_scd_etl_job
              (env_with day_2024_01_01
                        [alice_2; anonymous; customer (2 ^ 63) "Zed" None 1; bob_1])
              may june (world_with [])))
    = Some table' /\
    Permutation table' [stored alice_2; stored bob_1].
Proof.
  exact (proj1 (proj2 (first_run_stores_every_keyed_record
                  (env_with day_2024_01_01
                            [alice_2; anonymous; customer (2 ^ 63) "Zed" None 1; bob_1])
                  may june (world_with []) eq_refl eq_refl))).
Defined.

Lemma left_join_cons_app (before after tgts : Table) (s : Row) :
  left_join (before ++ s :: after) tgts
  = left_join before tgts ++ join_row tgts s ++ left_join after tgts.
Proof. unfold left_join. now rewrite flat_map_app. Qed.

Lemma filter_occurs {X : Type} (p : X -> bool) (l : list X) (x : X) :
  In x l -> p x = true -> (1 <= List.length (filter p l))%nat.
Proof.
  intros Hin Hp.
  assert (Hf : In x (filter p l)) by (apply filter_In; now split).
  destruct (filter p l); [destruct Hf|simpl; lia].
Qed.

(** The closed version of an active row occurs among the closed rows of a
    record that changed it, and it matches the row when the row is
    complete. *)
Lemma closed_row_occurs (today : Date) (table : Table) (c : Customer) (t : Row) :
  In t table -> is_active t = Some true -> complete t ->
  Sql.holds (change_condition {| src := source_row c; tgt := Some t |}) = true ->
  (1 <= List.length
          (filter (matches t)
             (map (select_closed_version today)
                (filter (fun j => Sql.holds (change_condition j))
                        (join_row (delta_df table) (source_row c))))))%nat.
Proof.
  intros Ht Ha Hc Hch.
  apply (filter_occurs _ _ (closed_version today t)).
  - change (closed_version today t)
      with (select_closed_version today {| src := source_row c; tgt := Some t |}).
    apply in_map. apply filter_In. split; [|exact Hch].
    apply In_join_row. simpl. split; [reflexivity|].
    split; [now apply In_delta_df|].
    apply change_condition_iff in Hch. destruct Hch as [Hk _].
    now apply holds_eq.
  - apply matches_iff. now split.
Qed.



Lemma filter_length_perm {X : Type} (p : X -> bool) (l l' : list X) :
  Permutation l l' -> List.length (filter p l) = List.length (filter p l').
Proof.
  induction 1 as [|x l l' _ IH|x y l|l l' l'' _ IH1 _ IH2]; simpl.
  - reflexivity.
  - destruct (p x); simpl; now rewrite IH.
  - destruct (p x), (p y); reflexivity.
  - now rewrite IH1.
Qed.

Lemma unknown_key_unmatched (table : Table) (r : Row) (k : Z) :
  (forall t, In t table -> customer_id t <> Some k) ->
  customer_id r = Some k -> matched table r = false.
Proof.
  intros Habsent Hk. unfold matched.
  destruct (existsb (fun t => matches t r) table) eqn:E; [|reflexivity].
  apply existsb_exists in E. destruct E as [t [Ht Hm]].
  apply matches_same_key in Hm. exfalso. apply (Habsent t Ht). congruence.
Qed.

(** The active rows a changeset holds for a key that is not stored: one
    per batch record with the key. *)
Lemma active_count_new_key (today : Date) (table : Table)
    (new_data : list Customer) (k : Z) :
  (forall t, In t table -> customer_id t <> Some k) ->
  active_count k (changeset today table new_data)
  = List.length (records_of k new_data).
Proof.
  intros Habsent. unfold active_count.
  rewrite (filter_length_perm _ _ _ (changeset_by_records today table new_data)).
  induction new_data as [|c l IH]; [reflexivity|].
  cbn [flat_map]. rewrite filter_app, length_app, IH. unfold records_of at 2.
  cbn [filter].
  destruct (has_key k (source_row c)) eqn:Hc.
  - apply has_key_iff in Hc.
    unfold record_rows. rewrite join_row_unmatched.
    + cbn [flat_map]. rewrite app_nil_r. unfold pair_rows.
      rewrite change_condition_unmatched, new_key_condition_unmatched.
      cbn [src]. rewrite Hc. cbn [app filter].
      replace (active (select_new_version today
                         {| src := source_row c; tgt := None |})) with true
        by reflexivity.
      replace (has_key k (select_new_version today
                            {| src := source_row c; tgt := None |})) with true
        by (symmetry; apply has_key_iff; exact Hc).
      reflexivity.
    + intros t Ht. apply In_delta_df in Ht. destruct Ht as [Ht _]. rewrite Hc.
      destruct (Sql.holds (customer_id t == Some k)%sql) eqn:E; [|reflexivity].
      apply has_key_iff in E. now destruct (Habsent t Ht).
  - rewrite (filter_none _ (record_rows _ _ _)); [reflexivity|].
    intros r Hr. destruct (record_rows_shape _ _ _ _ Hr) as (Hrk & _ & _).
    destruct (has_key k r) eqn:E; [|apply andb_false_r].
    apply has_key_iff in E. exfalso.
    assert (Hyes : has_key k (source_row c) = true)
      by (apply has_key_iff; congruence).
    congruence.
Qed.

(** X7: records with a natural key that is not stored are all inserted,
    duplicates included: after a run that returns normally, the number of
    active rows of such a key is the number of batch records that carry
    it as the job reads the keys; the batch is not deduplicated.  For a
    key of 64 bits these are the records whose own key it is; a key that
    does not fit 64 bits is read as NULL, so no record carries it and no
    row is stored for it. *)
Theorem new_keys_are_not_deduplicated (env : Env) (start_date end_date : string)
    (w : World) (table : Table) (k : Z) :
  dim_customers_scd_table w = Some table ->
  (forall t, In t table -> customer_id t <> Some k) ->
  fst (dim_customers_scd_etl_job env start_date end_date w) = Returned tt ->
  (exists table',
     dim_customers_scd_table (snd (dim_customers_scd_etl_job env start_date end_date w))
     = Some table' /\
     active_count k table'
     = List.length (records_of k (collect_customer_data env start_date end_date))) /\
  (forall new_data,
     records_of k new_data
     = if (- 2 ^ 63 <=? k) && (k <? 2 ^ 63)
       then filter (fun c => Sql.holds (c_customer_id c == Some k)%sql) new_data
       else []).
Proof.
  intros Hw Habsent Hret.
  assert (Hnone : forall l, (forall t, In t l -> customer_id t <> Some k) ->
                            active_count k l = 0%nat).
  { intros l Hl. unfold active_count. rewrite filter_none; [reflexivity|].
    intros t Ht. destruct (has_key k t) eqn:E; [|apply andb_false_r].
    apply has_key_iff in E. now destruct (Hl t Ht). }
  split.
  - pose proof (run_is_outcome env start_date end_date w) as Hout.
    destruct Hout as [Hw' | t0 Hw' Hb | t0 Hw' Hne Ht
                     | t0 Hw' Hne Ht Hm | t0 t1 Hw' Hne Ht Hm];
      cbn [fst snd with_events dim_customers_scd_table] in *; try discriminate.
    + rewrite Hw in Hw'. injection Hw' as <-. exists table. split; [assumption|].
      rewrite Hb. now apply Hnone.
    + rewrite Hw in Hw'. injection Hw' as <-. exists t1. split; [reflexivity|].
      apply merge_Some in Hm. destruct Hm as [-> _].
      unfold active_count. rewrite filter_app, length_app.
      fold (active_count k (map (update_all
              (changeset (utc_today env) table
                 (collect_customer_data env start_date end_date))) table)).
      rewrite Hnone.
      * unfold inserted_rows. rewrite filter_filter_andb.
        rewrite <- (active_count_new_key (utc_today env) table _ k Habsent).
        unfold active_count. simpl. f_equal. apply filter_ext. intros r.
        destruct (has_key k r) eqn:E.
        -- apply has_key_iff in E.
           now rewrite (unknown_key_unmatched table r k Habsent E).
        -- rewrite !andb_false_r. reflexivity.
      * intros r Hr. apply in_map_iff in Hr. destruct Hr as [t [<- Ht']].
        rewrite update_all_key. now apply Habsent.
  - intros new_data. unfold records_of.
    destruct ((- 2 ^ 63 <=? k) && (k <? 2 ^ 63)) eqn:Hrange.
    + apply filter_ext. intros c.
      destruct (has_key k (source_row c)) eqn:E.
      * apply has_key_iff, source_row_key in E. rewrite E. symmetry.
        apply holds_eq_refl. discriminate.
      * destruct (Sql.holds (c_customer_id c == Some k)%sql) eqn:E'; [|reflexivity].
        apply holds_eq in E'. destruct E' as [k' [Hck [= <-]]].
        assert (Hyes : has_key k (source_row c) = true).
        { apply has_key_iff. cbn [source_row customer_id].
          apply long_column_Some. split; [exact Hck|].
          apply andb_true_iff in Hrange. destruct Hrange as [H1 H2].
          apply Z.leb_le in H1. apply Z.ltb_lt in H2. lia. }
        congruence.
    + apply filter_none. intros c _.
      destruct (has_key k (source_row c)) eqn:E; [|reflexivity].
      apply has_key_iff in E. cbn [source_row customer_id] in E.
      apply long_column_Some in E. destruct E as [_ [H1 H2]].
      apply Z.leb_le in H1. apply Z.ltb_lt in H2. rewrite H1, H2 in Hrange.
      discriminate.
Qed.

Lemma new_keys_are_not_deduplicated_witness :
  exists table',
    dim_customers_scd_table
      (snd (dim_customers_scd_etl_job
              (env_with day_2024_06_01 [bob_1; alice_3; customer 2 "Bob" None 2])
              may june (world_with [stored alice_2])))
    = Some table' /\
    active_count 2 table' = 2%nat.
Proof.
  assert (Habsent : forall t, In t [stored alice_2] -> customer_id t <> Some 2)
    by (intros t [<-|[]]; discriminate).
  exact (proj1 (new_keys_are_not_deduplicated
           (env_with day_2024_06_01 [bob_1; alice_3; customer 2 "Bob" None 2])
           may june (world_with [stored alice_2]) [stored alice_2] 2
           eq_refl Habsent eq_refl)).
Defined.

(* ------------------------------------------------------------------ *)
(** *** Invariants of the stored rows *)

Lemma merged_rows_origin (table changes table' : Table) (r : Row) :
  merge table changes = Some table' -> In r table' ->
  In r table \/ In r changes.
Proof.
  intros Hm Hr. apply merge_Some in Hm. destruct Hm as [-> _].
  apply in_app_iff in Hr. destruct Hr as [Hr|Hr].
  - apply in_map_iff in Hr. destruct Hr as [t [<- Ht]].
    destruct (update_all_cases changes t) as [[-> _]|[Hin _]]; auto.
  - apply In_inserted_rows in Hr. now right.
Qed.

(** A row of a changeset is the closed version of an active stored row
    or the new version of a batch record. *)
Lemma changeset_rows_shape (today : Date) (table : Table)
    (new_data : list Customer) (r : Row) :
  In r (changeset today table new_data) ->
  (exists t, In t table /\ is_active t = Some true /\ r = closed_version today t) \/
  (exists c, In c new_data /\ r = new_version today (source_row c)).
Proof.
  intros Hr. apply In_changeset in Hr. destruct Hr as (c & j & Hc & Hj & Hr).
  apply In_join_row in Hj. destruct j as [s [t|]]; simpl in Hj.
  - destruct Hj as [-> [Ht _]]. apply In_delta_df in Ht. destruct Ht as [Ht Ha].
    unfold pair_rows in Hr. apply in_app_iff in Hr. destruct Hr as [Hr|Hr].
    + destruct (Sql.holds (change_condition _)); [|destruct Hr].
      destruct Hr as [<-|[<-|[]]]; [left; eauto|right; eauto].
    + destruct (Sql.holds (new_key_condition _)); [|destruct Hr].
      destruct Hr as [<-|[]]. right; eauto.
  - destruct Hj as [-> _]. unfold pair_rows in Hr.
    rewrite change_condition_unmatched in Hr. simpl in Hr.
    destruct (Sql.holds (new_key_condition _)); [|destruct Hr].
    destruct Hr as [<-|[]]. right; eauto.
Qed.

(** What a property of rows needs to survive a run. *)
Lemma run_preserves_rows (P : Row -> Prop) (env : Env)
    (start_date end_date : string) (w : World) (table : Table) :
  dim_customers_scd_table w = Some table -> Forall P table ->
  (forall t, In t table -> P t -> P (closed_version (utc_today env) t)) ->
  (forall c, P (new_version (utc_today env) (source_row c))) ->
  exists table',
    dim_customers_scd_table (snd (dim_customers_scd_etl_job env start_date end_date w))
    = Some table' /\ Forall P table'.
Proof.
  intros Hw Hall Hclosed Hnew.
  pose proof (run_is_outcome env start_date end_date w) as Hout.
  destruct Hout as [Hw' | t0 Hw' Hb | t0 Hw' Hne Ht
                   | t0 Hw' Hne Ht Hm | t0 t1 Hw' Hne Ht Hm];
    cbn [snd with_events dim_customers_scd_table];
    try (exists table; split; assumption).
  rewrite Hw in Hw'. injection Hw' as <-. exists t1. split; [reflexivity|].
  - rewrite Forall_forall in Hall. apply Forall_forall. intros r Hr.
    destruct (merged_rows_origin _ _ _ _ Hm Hr) as [Hold|Hch]; [auto|].
    destruct (changeset_rows_shape _ _ _ _ Hch) as [(t & Ht' & _ & ->)|(c & _ & ->)];
      auto.
Qed.

(** X8: [is_active] stays redundant with [effective_end_date].  When in
    every stored row [is_active] is true exactly if the end date is
    9999-12-31, and the run does not take place on 9999-12-31, the same
    holds for every row stored after the run. *)
Theorem active_flag_follows_the_end_date (env : Env)
    (start_date end_date : string) (w : World) (table : Table) :
  dim_customers_scd_table w = Some table ->
  Forall flag_agrees table ->
  utc_today env <> sentinel_end_date ->
  exists table',
    dim_customers_scd_table (snd (dim_customers_scd_etl_job env start_date end_date w))
    = Some table' /\ Forall flag_agrees table'.
Proof.
  intros Hw Hall Hday.
  apply (run_preserves_rows _ env start_date end_date w table); try assumption.
  - intros t _ _. unfold flag_agrees. simpl. split; [discriminate|].
    intros [= H]. contradiction.
  - intros c. unfold flag_agrees. simpl. tauto.
Qed.

Lemma active_flag_follows_the_end_date_witness :
  exists table',
    dim_customers_scd_table
      (snd (dim_customers_scd_etl_job (env_with day_2024_06_01 [alice_3; bob_1])
                                      may june (world_with [stored alice_2])))
    = Some table' /\ Forall flag_agrees table'.
Proof.
  apply (active_flag_follows_the_end_date
           (env_with day_2024_06_01 [alice_3; bob_1]) may june
           (world_with [stored alice_2]) [stored alice_2] eq_refl).
  - constructor; [|constructor]. unfold flag_agrees. simpl. tauto.
  - discriminate.
Defined.

(** X9: validity intervals stay well formed as long as the run dates do
    not go back.  When every stored row has a start date no later than its
    end date and no later than the day [day] of the latest run, a run on a
    day from [day] on, and no later than 9999-12-31, leaves a table whose
    rows again have a start date no later than their end date and no later
    than the run date. *)
Theorem validity_intervals_stay_well_formed (env : Env)
    (start_date end_date : string) (w : World) (table : Table) (day : Date) :
  dim_customers_scd_table w = Some table ->
  Forall (interval_until day) table ->
  day <= utc_today env -> utc_today env <= sentinel_end_date ->
  exists table',
    dim_customers_scd_table (snd (dim_customers_scd_etl_job env start_date end_date w))
    = Some table' /\ Forall (interval_until (utc_today env)) table'.
Proof.
  intros Hw Hall Hday Hend.
  assert (Hall' : Forall (interval_until (utc_today env)) table).
  { apply Forall_forall. intros r Hr. rewrite Forall_forall in Hall.
    destruct (Hall r Hr) as (a & b & Ha & Hb & Hab & Had).
    exists a, b. repeat split; try assumption. lia. }
  apply (run_preserves_rows _ env start_date end_date w table); try assumption.
  - intros t _ (a & b & Ha & Hb & Hab & Had).
    exists a, (utc_today env). simpl. repeat split; try assumption.
  - intros c. exists (utc_today env), sentinel_end_date. simpl.
    repeat split; try assumption. lia.
Qed.

Lemma validity_intervals_stay_well_formed_witness :
  exists table',
    dim_customers_scd_table
      (snd (dim_customers_scd_etl_job (env_with day_2024_06_01 [alice_3; bob_1])
                                      may june (world_with [stored alice_2])))
    = Some table' /\ Forall (interval_until day_2024_06_01) table'.
Proof.
  apply (validity_intervals_stay_well_formed
           (env_with day_2024_06_01 [alice_3; bob_1]) may june
           (world_with [stored alice_2]) [stored alice_2] day_2024_01_01 eq_refl).
  - constructor; [|constructor].
    exists day_2024_01_01, sentinel_end_date. simpl.
    repeat split; discriminate.
  - discriminate.
  - discriminate.
Defined.

(* ================================================================== *)
(** ** Further properties of the Extract Builder *)

Lemma join_length_swap {X Y W : Type} (m : X -> Y -> bool) (f : X -> Y -> W)
    (xs : list X) (ys : list Y) :
  List.length (flat_map (fun x => map (f x) (filter (m x) ys)) xs)
  = List.length (flat_map (fun y => filter (fun x => m x y) xs) ys).
Proof.
  induction ys as [|y ys IH]; simpl.
  - induction xs as [|x xs IHx]; simpl; [reflexivity|exact IHx].
  - rewrite length_app, <- IH. clear IH.
    induction xs as [|x xs IHx]; simpl; [reflexivity|].
    rewrite !length_app, IHx.
    destruct (m x y); simpl; rewrite ?length_map; lia.
Qed.

Lemma filter_at_most_one {X : Type} (q : X -> bool) (l : list X) :
  (List.length (filter q l) <= 1)%nat ->
  List.length (filter q l) = if existsb q l then 1%nat else 0%nat.
Proof.
  intros Hle. destruct (existsb q l) eqn:E.
  - apply existsb_exists in E. destruct E as [x [Hx Hq]].
    pose proof (filter_occurs q l x Hx Hq). lia.
  - rewrite filter_none; [reflexivity|]. intros x Hx.
    destruct (q x) eqn:Hq; [|reflexivity].
    assert (existsb q l = true) by (apply existsb_exists; eauto). congruence.
Qed.

Lemma flat_map_indicator_length {X Y : Type} (g : X -> list Y) (h : X -> bool)
    (l : list X) :
  (forall x, In x l -> List.length (g x) = if h x then 1%nat else 0%nat) ->
  List.length (flat_map g l) = List.length (filter h l).
Proof.
  induction l as [|x l IH]; simpl; intros Hall; [reflexivity|].
  rewrite length_app, (Hall x) by now left.
  rewrite IH by (intros y Hy; apply Hall; now right).
  now destruct (h x).
Qed.

(** The active dimension rows that carry the customer of an order. *)
Lemma customers_of_order (dim : Table) (o : Order) :
  filter (fun c => Sql.holds (customer_id c == o_customer_id o)%sql)
         (customers_cte dim)
  = filter (fun c => active c && Sql.holds (customer_id c == o_customer_id o)%sql) dim.
Proof. unfold customers_cte. now rewrite filter_filter_andb. Qed.

(** X10: the extract relies on the single-active invariant of the
    dimension.  When no natural key has more than one active dimension
    row, every future order gives at most one row of the extract: the
    extract holds exactly as many rows as there are future orders whose
    customer has an active dimension row, so never more rows than future
    orders. *)
Theorem each_future_order_is_listed_at_most_once (env : Env) (w : World) :
  (forall k, (active_count k (bmd_dim_customers_scd env) <= 1)%nat) ->
  exists rows,
    future_orders_table (snd (future_orders_etl_job env w)) = Some rows /\
    List.length rows
    = List.length (filter (has_active_customer (bmd_dim_customers_scd env))
                          (orders_cte (warehouse_current_date env) (bmd_orders env))) /\
    (List.length rows
     <= List.length (orders_cte (warehouse_current_date env) (bmd_orders env)))%nat.
Proof.
  intros Hone. eexists. split.
  { unfold future_orders_etl_job, bind, overwrite.
    rewrite run_glue_crawler_eq. reflexivity. }
  assert (Hlen :
    List.length (future_orders_query (warehouse_current_date env) (bmd_orders env)
                                     (bmd_dim_customers_scd env))
    = List.length (filter (has_active_customer (bmd_dim_customers_scd env))
                          (orders_cte (warehouse_current_date env) (bmd_orders env)))).
  { unfold future_orders_query.
    rewrite (Permutation_length (order_by_perm pickup_leb _)).
    unfold join_customers_orders.
    rewrite (join_length_swap
               (fun c o => Sql.holds (customer_id c == o_customer_id o)%sql)
               select_future_order).
    apply flat_map_indicator_length. intros o _.
    rewrite customers_of_order. unfold has_active_customer.
    apply filter_at_most_one.
    destruct (o_customer_id o) as [k|].
    - exact (Hone k).
    - rewrite filter_none; [simpl; lia|]. intros c _.
      rewrite holds_eq_null_r. apply andb_false_r. }
  split; [exact Hlen|]. rewrite Hlen. apply filter_length_le.
Qed.

Lemma extract_env_single_active (k : Z) :
  (active_count k (bmd_dim_customers_scd extract_env) <= 1)%nat.
Proof.
  unfold active_count, has_key. cbn -[Z.eqb].
  destruct (1 =? k); cbn; lia.
Defined.

Lemma each_future_order_is_listed_at_most_once_witness :
  exists rows,
    future_orders_table (snd (future_orders_etl_job extract_env (world_with [])))
    = Some rows /\ List.length rows = 1%nat.
Proof.
  destruct (each_future_order_is_listed_at_most_once
              extract_env (world_with []) extract_env_single_active)
    as (rows & Hrows & Hlen & _).
  exists rows. split; [exact Hrows | exact Hlen].
Defined.

(* ================================================================== *)
(** ** The Glue format of a schema *)

Lemma glue_columns_from (schema : StructType) (acc : list GlueColumn) :
  fold_left
    (fun glue_schema field =>
       let field_type := type_name (dataType field) in
       match dict_get type_mapping field_type with
       | Some glue_type =>
           glue_schema ++ [ {| col_Name := field_name field; col_Type := glue_type |} ]
       | None => glue_schema
       end)
    schema acc
  = acc ++ map (fun f => {| col_Name := field_name f;
                            col_Type := glue_type (dataType f) |})
               (filter supported schema).
Proof.
  revert acc. induction schema as [|f l IH]; intros acc; simpl.
  - now rewrite app_nil_r.
  - rewrite IH. destruct f as [n t b]. unfold supported.
    destruct t; simpl; rewrite <- ?app_assoc; reflexivity.
Qed.

(** X11: [convert_schema_to_glue_format] gives one Glue column for each
    field whose type is Long, String, Timestamp or Double, in the order
    of the schema, with the field's name and the type bigint, string,
    timestamp or double; a field of any other type (Integer, Date,
    Boolean, Decimal) is left out, without an error. *)
Theorem glue_format_keeps_the_mapped_fields (schema : StructType) :
  glue_columns schema
  = map (fun f => {| col_Name := field_name f; col_Type := glue_type (dataType f) |})
        (filter supported schema) /\
  (forall c, In c (glue_columns schema) <->
     exists f, In f schema /\ col_Name c = field_name f /\
               ((dataType f = LongType /\ col_Type c = "bigint") \/
                (dataType f = StringType /\ col_Type c = "string") \/
                (dataType f = TimestampType /\ col_Type c = "timestamp") \/
                (dataType f = DoubleType /\ col_Type c = "double"))) /\
  (forall f, In f schema ->
     match dataType f with
     | IntegerType | DateType | BooleanType | DecimalType _ _ =>
         forall c, In c (glue_columns schema) -> col_Name c = field_name f ->
                   exists f', In f' schema /\ f' <> f /\ field_name f' = field_name f
     | _ => In {| col_Name := field_name f; col_Type := glue_type (dataType f) |}
               (glue_columns schema)
     end).
Proof.
  assert (Heq : glue_columns schema
    = map (fun f => {| col_Name := field_name f; col_Type := glue_type (dataType f) |})
          (filter supported schema))
    by (unfold glue_columns; now rewrite glue_columns_from).
  assert (Hin : forall c, In c (glue_columns schema) <->
     exists f, In f schema /\ col_Name c = field_name f /\
               ((dataType f = LongType /\ col_Type c = "bigint") \/
                (dataType f = StringType /\ col_Type c = "string") \/
                (dataType f = TimestampType /\ col_Type c = "timestamp") \/
                (dataType f = DoubleType /\ col_Type c = "double"))).
  { intros c. rewrite Heq, in_map_iff. split.
    - intros [f [<- Hf]]. apply filter_In in Hf. destruct Hf as [Hf Hs].
      exists f. split; [assumption|]. split; [reflexivity|].
      unfold supported in Hs. simpl.
      destruct (dataType f); try discriminate; simpl; tauto.
    - intros (f & Hf & Hn & Ht). exists f. split.
      + destruct c as [n t]. simpl in *. subst n. f_equal.
        destruct Ht as [[-> ->]|[[-> ->]|[[-> ->]|[-> ->]]]]; reflexivity.
      + apply filter_In. split; [assumption|]. unfold supported.
        destruct Ht as [[-> _]|[[-> _]|[[-> _]|[-> _]]]]; reflexivity. }
  split; [exact Heq|]. split; [exact Hin|].
  intros f Hf.
  assert (Hkept : supported f = true ->
            In {| col_Name := field_name f; col_Type := glue_type (dataType f) |}
               (glue_columns schema)).
  { intros Hs. rewrite Heq.
    apply (in_map (fun f => {| col_Name := field_name f;
                               col_Type := glue_type (dataType f) |})).
    apply filter_In. now split. }
  assert (Hlost : supported f = false ->
            forall c, In c (glue_columns schema) -> col_Name c = field_name f ->
                      exists f', In f' schema /\ f' <> f /\ field_name f' = field_name f).
  { intros Hs c Hc Hn. apply Hin in Hc. destruct Hc as (f' & Hf' & Hn' & Ht).
    exists f'. split; [assumption|]. split; [|congruence].
    intros ->. unfold supported in Hs.
    destruct Ht as [[E _]|[[E _]|[[E _]|[E _]]]]; rewrite E in Hs; discriminate. }
  unfold supported in Hkept, Hlost. revert Hkept Hlost.
  destruct (dataType f); intros Hkept Hlost;
    first [exact (Hkept eq_refl) | exact (Hlost eq_refl)].
Qed.

Lemma filter_all_length {X : Type} (p : X -> bool) (l : list X) :
  List.length (filter p l) = List.length l <-> forall x, In x l -> p x = true.
Proof.
  split.
  - intros Hlen. apply filter_length_forallb in Hlen.
    intros x Hx. rewrite forallb_forall in Hlen. auto.
  - intros Hall. rewrite forallb_filter_id; [reflexivity|].
    now apply forallb_forall.
Qed.

(** X12: the conversion never invents a column and goes column by column:
    the Glue schema has at most as many columns as the schema has fields,
    it has as many exactly when every field has one of the four mapped
    types, and the Glue schema of two schemas put one after the other is
    the two Glue schemas put one after the other. *)
Theorem glue_format_is_lossless_on_mapped_types (schema schema' : StructType) :
  (List.length (glue_columns schema) <= List.length schema)%nat /\
  (List.length (glue_columns schema) = List.length schema <->
   forall f, In f schema ->
             dataType f = LongType \/ dataType f = StringType \/
             dataType f = TimestampType \/ dataType f = DoubleType) /\
  glue_columns (schema ++ schema') = glue_columns schema ++ glue_columns schema'.
Proof.
  unfold glue_columns. rewrite !glue_columns_from. simpl. rewrite !length_map.
  split; [apply filter_length_le|]. split.
  - rewrite filter_all_length. split; intros H f Hf; specialize (H f Hf).
    + unfold supported in H. destruct (dataType f); try discriminate; tauto.
    + unfold supported.
      destruct H as [-> | [-> | [-> | ->]]]; reflexivity.
  - now rewrite filter_app, map_app.
Qed.

(* ================================================================== *)
(** ** The metadata registry *)

Lemma get_metadata_cases (table_name : string) :
  (table_name = "dim_customers_scd" /\
   get_metadata table_name
   = Returned (mkMetadata dim_customers_scd_schema
                          "s3a://devbmdanalayticsdata/gold/dim_customers_scd")) \/
  (table_name = "orders" /\
   get_metadata table_name
   = Returned (mkMetadata orders_schema "s3a://devbmdanalayticsdata/silver/orders")) \/
  (table_name = "weekly_streamline_orders" /\
   get_metadata table_name
   = Returned (mkMetadata weekly_streamline_orders_schema
                          "s3a://devbmdanalayticsdata/gold/weekly_streamline_orders")) \/
  (table_name = "future_orders" /\
   get_metadata table_name
   = Returned (mkMetadata future_orders_schema
                          "s3a://devbmdanalayticsdata/gold/future_orders")) \/
  (~ In table_name ["dim_customers_scd"; "orders"; "weekly_streamline_orders";
                    "future_orders"] /\
   get_metadata table_name = Raised (Exception ("KeyError: " ++ table_name))).
Proof.
  unfold get_metadata, metadata, dict_get.
  destruct (String.eqb_spec "dim_customers_scd" table_name) as [<-|H1]; [now left|].
  destruct (String.eqb_spec "orders" table_name) as [<-|H2]; [right; now left|].
  destruct (String.eqb_spec "weekly_streamline_orders" table_name) as [<-|H3];
    [do 2 right; now left|].
  destruct (String.eqb_spec "future_orders" table_name) as [<-|H4];
    [do 3 right; now left|].
  do 4 right. split; [|reflexivity]. simpl. tauto.
Qed.

(** X13: [get_metadata] knows four tables, dim_customers_scd, orders,
    weekly_streamline_orders and future_orders, and raises a KeyError for
    every other name; the storage path of a table is the bucket, the
    layer gold or silver, and the table's own name, so two tables never
    share a path; and every field of every schema is nullable. *)
Theorem get_metadata_knows_four_tables (table_name other_name : string) :
  (In table_name ["dim_customers_scd"; "orders"; "weekly_streamline_orders";
                  "future_orders"] <->
   exists m, get_metadata table_name = Returned m) /\
  (~ In table_name ["dim_customers_scd"; "orders"; "weekly_streamline_orders";
                    "future_orders"] ->
   get_metadata table_name = Raised (Exception ("KeyError: " ++ table_name))) /\
  (forall m, get_metadata table_name = Returned m ->
     (exists layer, In layer ["gold"; "silver"] /\
        delta_table_path m
        = ("s3a://devbmdanalayticsdata/" ++ layer ++ "/" ++ table_name)%string) /\
     Forall (fun f => nullable f = true) (schema m) /\
     (forall m', get_metadata other_name = Returned m' ->
                 delta_table_path m' = delta_table_path m ->
                 other_name = table_name)).
Proof.
  split; [|split].
  - split.
    + intros [<-|[<-|[<-|[<-|[]]]]]; eexists; reflexivity.
    + intros [m Hm].
      destruct (get_metadata_cases table_name)
        as [[-> _]|[[-> _]|[[-> _]|[[-> _]|[_ H]]]]]; simpl; try tauto.
      rewrite H in Hm. discriminate.
  - intros Hno.
    destruct (get_metadata_cases table_name)
      as [[-> _]|[[-> _]|[[-> _]|[[-> _]|[_ H]]]]]; try exact H;
      exfalso; apply Hno; simpl; tauto.
  - intros m Hm.
    assert (Hpath : exists layer, In layer ["gold"; "silver"] /\
              delta_table_path m
              = ("s3a://devbmdanalayticsdata/" ++ layer ++ "/" ++ table_name)%string).
    { destruct (get_metadata_cases table_name)
        as [[-> H]|[[-> H]|[[-> H]|[[-> H]|[_ H]]]]];
        rewrite H in Hm; try discriminate; injection Hm as <-.
      - exists "gold". split; [now left|reflexivity].
      - exists "silver". split; [right; now left|reflexivity].
      - exists "gold". split; [now left|reflexivity].
      - exists "gold". split; [now left|reflexivity]. }
    split; [exact Hpath|]. split.
    + destruct (get_metadata_cases table_name)
        as [[-> H]|[[-> H]|[[-> H]|[[-> H]|[_ H]]]]];
        rewrite H in Hm; try discriminate; injection Hm as <-;
        repeat constructor.
    + intros m' Hm' Hsame.
      destruct (get_metadata_cases table_name)
        as [[-> H]|[[-> H]|[[-> H]|[[-> H]|[_ H]]]]];
        rewrite H in Hm; try discriminate; injection Hm as <-;
        destruct (get_metadata_cases other_name)
          as [[-> H']|[[-> H']|[[-> H']|[[-> H']|[_ H']]]]];
        rewrite H' in Hm'; try discriminate; injection Hm' as <-;
        first [reflexivity | discriminate Hsame].
Qed.

Lemma get_metadata_knows_four_tables_witness :
  get_metadata "customers" = Raised (Exception "KeyError: customers") /\
  (forall m, get_metadata "orders" = Returned m ->
     exists layer, In layer ["gold"; "silver"] /\
       delta_table_path m
       = ("s3a://devbmdanalayticsdata/" ++ layer ++ "/" ++ "orders")%string).
Proof.
  split.
  - apply (proj1 (proj2 (get_metadata_knows_four_tables "customers" "orders"))).
    simpl. intros H. repeat (destruct H as [H|H]; [discriminate H|]). exact H.
  - intros m Hm.
    exact (proj1 (proj2 (proj2 (get_metadata_knows_four_tables "orders" "customers"))
                    m Hm)).
Defined.

(** X14: the Glue format of the registered schemas.  For a table of
    [get_metadata], a field has a Glue column unless it is
    number_of_orders, effective_start_date, effective_end_date or
    is_active of dim_customers_scd, or total_price of orders: a Glue
    table built from the metadata of the dimension has no is_active
    column, while weekly_streamline_orders and future_orders keep every
    column. *)
Theorem glue_format_of_the_registered_schemas (table_name : string) (m : Metadata)
    (f : StructField) :
  get_metadata table_name = Returned m -> In f (schema m) ->
  (In (field_name f) (map col_Name (glue_columns (schema m))) <->
   ~ In (table_name, field_name f)
        [ ("dim_customers_scd", "number_of_orders");
          ("dim_customers_scd", "effective_start_date");
          ("dim_customers_scd", "effective_end_date");
          ("dim_customers_scd", "is_active");
          ("orders", "total_price") ]).
Proof.
  intros Hm Hf.
  destruct (get_metadata_cases table_name)
    as [[-> H]|[[-> H]|[[-> H]|[[-> H]|[_ H]]]]];
    rewrite H in Hm; try discriminate; injection Hm as <-;
    simpl in Hf; cbn;
    repeat (destruct Hf as [<-|Hf]; [cbn; split;
      [ intros Hin Hno; repeat (destruct Hno as [Hno|Hno]; [discriminate Hno|]);
        try destruct Hno;
        repeat (destruct Hin as [Hin|Hin]; [discriminate Hin|]); destruct Hin
      | intros Hno; try tauto; exfalso; apply Hno; tauto ] |]);
    destruct Hf.
Qed.

Lemma glue_format_of_the_registered_schemas_witness :
  ~ In "is_active" (map col_Name (glue_columns dim_customers_scd_schema)) /\
  In "customer_id" (map col_Name (glue_columns dim_customers_scd_schema)).
Proof.
  split.
  - intros Hin.
    apply (proj1 (glue_format_of_the_registered_schemas "dim_customers_scd"
                    (mkMetadata dim_customers_scd_schema
                       "s3a://devbmdanalayticsdata/gold/dim_customers_scd")
                    (mkStructField "is_active" BooleanType true) eq_refl
                    ltac:(simpl; tauto)) Hin).
    simpl. tauto.
  - apply (proj2 (glue_format_of_the_registered_schemas "dim_customers_scd"
                    (mkMetadata dim_customers_scd_schema
                       "s3a://devbmdanalayticsdata/gold/dim_customers_scd")
                    (mkStructField "customer_id" LongType true) eq_refl
                    ltac:(simpl; tauto))).
    simpl. intros H.
    repeat (destruct H as [H|H]; [discriminate H|]). exact H.
Defined.

(* ================================================================== *)
(** ** Creating, reading and dropping Delta tables *)

Lemma dict_get_remove_same {V} (d : Dict V) (key : string) :
  dict_get (dict_remove d key) key = None.
Proof.
  induction d as [|[k v] d IH]; [reflexivity|].
  unfold dict_remove in *. simpl.
  destruct (String.eqb_spec k key) as [->|Hk]; simpl; [exact IH|].
  destruct (String.eqb_spec k key) as [->|_]; [contradiction|exact IH].
Qed.

Lemma dict_get_remove_other {V} (d : Dict V) (key other : string) :
  other <> key -> dict_get (dict_remove d key) other = dict_get d other.
Proof.
  intros Hne. induction d as [|[k v] d IH]; [reflexivity|].
  unfold dict_remove in *. simpl.
  destruct (String.eqb_spec k key) as [->|Hk]; simpl.
  - destruct (String.eqb_spec key other) as [->|_]; [contradiction|exact IH].
  - destruct (String.eqb_spec k other); [reflexivity|exact IH].
Qed.

Lemma create_delta_table_free {R} (spark_session : Session)
    (delta_table_path table_name : string) (schema : StructType) (l : Lakehouse R) :
  dict_get (delta_paths l) delta_table_path = None ->
  create_delta_table spark_session delta_table_path table_name schema l
  = match sql_error spark_session
            (create_table_statement table_name delta_table_path) with
    | Some error =>
        (Raised (Exception error),
         {| delta_paths :=
              (delta_table_path, mkDeltaData schema []) :: delta_paths l;
            spark_catalog := spark_catalog l;
            statements := statements l;
            console :=
              ((console l
                ++ [SaySchema "Creating an empty DataFrame with the schema: " schema])
               ++ [Say ("Writing the empty DataFrame to Delta format at path: "
                        ++ delta_table_path)])
              ++ [Say ("Creating Delta table '" ++ table_name ++ "' at location '"
                       ++ delta_table_path ++ "'")] |})
    | None =>
        (Returned tt,
         {| delta_paths :=
              (delta_table_path, mkDeltaData schema []) :: delta_paths l;
            spark_catalog :=
              match dict_get (spark_catalog l) table_name with
              | Some _ => spark_catalog l
              | None => (table_name, delta_table_path) :: spark_catalog l
              end;
            statements :=
              statements l ++ [create_table_statement table_name delta_table_path];
            console :=
              (((console l
                 ++ [SaySchema "Creating an empty DataFrame with the schema: " schema])
                ++ [Say ("Writing the empty DataFrame to Delta format at path: "
                         ++ delta_table_path)])
               ++ [Say ("Creating Delta table '" ++ table_name ++ "' at location '"
                        ++ delta_table_path ++ "'")])
              ++ [Say ("Delta table '" ++ table_name ++ "' created successfully.")] |})
    end.
Proof.
  intros Hfree.
  unfold create_delta_table, eff_bind, say, save_delta, sql_create_table.
  cbn [delta_paths spark_catalog statements console].
  rewrite Hfree.
  cbn [delta_paths spark_catalog statements console].
  destruct (sql_error spark_session _); reflexivity.
Qed.

Lemma create_delta_table_occupied {R} (spark_session : Session)
    (delta_table_path table_name : string) (schema : StructType) (l : Lakehouse R)
    (data : DeltaData R) :
  dict_get (delta_paths l) delta_table_path = Some data ->
  create_delta_table spark_session delta_table_path table_name schema l
  = (Raised (Exception ("DELTA_PATH_EXISTS: " ++ delta_table_path)),
     {| delta_paths := delta_paths l;
        spark_catalog := spark_catalog l;
        statements := statements l;
        console :=
          (console l
           ++ [SaySchema "Creating an empty DataFrame with the schema: " schema])
          ++ [Say ("Writing the empty DataFrame to Delta format at path: "
                   ++ delta_table_path)] |}).
Proof.
  intros Hfull.
  unfold create_delta_table, eff_bind, say, save_delta.
  cbn [delta_paths spark_catalog statements console].
  rewrite Hfull. reflexivity.
Qed.

(** X15: [create_delta_table] on a path that holds no table, with a
    session that runs the CREATE TABLE statement: the call returns; the
    path then holds a table with the given schema and no rows, which
    [read_delta_table_by_path] returns; no other path changes; the
    statement that was run is the text [show_create_delta_table] prints;
    and the catalog knows the name, at the given path if the name was
    new, but still at its old location if the catalog knew the name
    already. *)
Theorem create_delta_table_on_a_free_path {R} (spark_session : Session)
    (delta_table_path table_name : string) (schema : StructType) (l : Lakehouse R) :
  dict_get (delta_paths l) delta_table_path = None ->
  sql_error spark_session (create_table_statement table_name delta_table_path) = None ->
  exists l',
    create_delta_table spark_session delta_table_path table_name schema l
    = (Returned tt, l') /\
    read_delta_table_by_path delta_table_path l'
    = (Returned (mkDeltaData schema []), l') /\
    (forall path, path <> delta_table_path ->
       dict_get (delta_paths l') path = dict_get (delta_paths l) path) /\
    (exists statement,
       statements l' = statements l ++ [statement] /\
       console (snd (show_create_delta_table delta_table_path table_name l))
       = console l ++ [Say statement]) /\
    dict_get (spark_catalog l') table_name
    = Some match dict_get (spark_catalog l) table_name with
           | Some location => location
           | None => delta_table_path
           end /\
    (forall name, name <> table_name ->
       dict_get (spark_catalog l') name = dict_get (spark_catalog l) name).
Proof.
  intros Hfree Hruns.
  rewrite (create_delta_table_free _ _ _ _ _ Hfree), Hruns.
  eexists. split; [reflexivity|].
  unfold read_delta_table_by_path.
  cbn [delta_paths spark_catalog statements console dict_get].
  rewrite String.eqb_refl.
  split; [reflexivity|]. split; [|split; [|split]].
  - intros path Hne. destruct (String.eqb_spec delta_table_path path) as [->|_];
      [contradiction|reflexivity].
  - eexists. split; reflexivity.
  - destruct (dict_get (spark_catalog l) table_name) as [location|] eqn:Hknown.
    + exact Hknown.
    + cbn [dict_get]. rewrite String.eqb_refl. reflexivity.
  - intros name Hne.
    destruct (dict_get (spark_catalog l) table_name); [reflexivity|].
    cbn [dict_get]. destruct (String.eqb_spec table_name name) as [->|_];
      [contradiction|reflexivity].
Qed.

Lemma create_delta_table_on_a_free_path_witness :
  exists l',
    create_delta_table willing_session
      "s3a://devbmdanalayticsdata/gold/dim_customers_scd" "dim_customers_scd"
      dim_customers_scd_schema empty_lakehouse
    = (Returned tt, l') /\
    read_delta_table_by_path "s3a://devbmdanalayticsdata/gold/dim_customers_scd" l'
    = (Returned (mkDeltaData dim_customers_scd_schema []), l') /\
    dict_get (spark_catalog l') "dim_customers_scd"
    = Some "s3a://devbmdanalayticsdata/gold/dim_customers_scd".
Proof.
  destruct (create_delta_table_on_a_free_path willing_session
              "s3a://devbmdanalayticsdata/gold/dim_customers_scd" "dim_customers_scd"
              dim_customers_scd_schema empty_lakehouse eq_refl eq_refl)
    as (l' & Hrun & Hread & _ & _ & Hname & _).
  exists l'. repeat split; assumption.
Defined.

(** X16: [create_delta_table] never overwrites.  On a path that holds a
    Delta table it raises, whatever the session, the name and the schema
    are: the table at the path keeps its schema and its rows, no
    statement is run and the catalog is unchanged.  So the call is not
    repeatable: whenever a call returns, the same call made again
    raises, although the statement it runs says IF NOT EXISTS. *)
Theorem create_delta_table_never_overwrites {R} (spark_session : Session)
    (delta_table_path table_name : string) (schema : StructType) (l : Lakehouse R) :
  (forall data, dict_get (delta_paths l) delta_table_path = Some data ->
     exists l',
       create_delta_table spark_session delta_table_path table_name schema l
       = (Raised (Exception ("DELTA_PATH_EXISTS: " ++ delta_table_path)), l') /\
       delta_paths l' = delta_paths l /\
       spark_catalog l' = spark_catalog l /\
       statements l' = statements l) /\
  (forall l1,
     create_delta_table spark_session delta_table_path table_name schema l
     = (Returned tt, l1) ->
     forall spark_session' table_name' schema',
     exists l2,
       create_delta_table spark_session' delta_table_path table_name' schema' l1
       = (Raised (Exception ("DELTA_PATH_EXISTS: " ++ delta_table_path)), l2) /\
       delta_paths l2 = delta_paths l1 /\
       spark_catalog l2 = spark_catalog l1 /\
       statements l2 = statements l1).
Proof.
  split.
  - intros data Hfull. rewrite (create_delta_table_occupied _ _ _ _ _ _ Hfull).
    eexists. repeat split; reflexivity.
  - intros l1 Hrun spark_session' table_name' schema'.
    destruct (dict_get (delta_paths l) delta_table_path) as [data|] eqn:Hpath.
    + rewrite (create_delta_table_occupied _ _ _ _ _ _ Hpath) in Hrun.
      discriminate Hrun.
    + rewrite (create_delta_table_free _ _ _ _ _ Hpath) in Hrun.
      destruct (sql_error spark_session _); [discriminate Hrun|].
      injection Hrun as <-.
      erewrite create_delta_table_occupied
        by (cbn [delta_paths dict_get]; rewrite String.eqb_refl; reflexivity).
      eexists. repeat split; reflexivity.
Qed.

Lemma create_delta_table_never_overwrites_witness :
  exists l1 l2,
    create_delta_table willing_session
      "s3a://devbmdanalayticsdata/gold/dim_customers_scd" "dim_customers_scd"
      dim_customers_scd_schema empty_lakehouse = (Returned tt, l1) /\
    create_delta_table willing_session
      "s3a://devbmdanalayticsdata/gold/dim_customers_scd" "dim_customers_scd"
      dim_customers_scd_schema l1
    = (Raised (Exception
                 "DELTA_PATH_EXISTS: s3a://devbmdanalayticsdata/gold/dim_customers_scd"),
       l2) /\
    delta_paths l2 = delta_paths l1.
Proof.
  exists (snd (create_delta_table willing_session
                 "s3a://devbmdanalayticsdata/gold/dim_customers_scd"
                 "dim_customers_scd" dim_customers_scd_schema empty_lakehouse)).
  destruct (proj2 (create_delta_table_never_overwrites willing_session
                     "s3a://devbmdanalayticsdata/gold/dim_customers_scd"
                     "dim_customers_scd" dim_customers_scd_schema empty_lakehouse)
                  _ eq_refl willing_session "dim_customers_scd"
                  dim_customers_scd_schema)
    as (l2 & Hagain & Hpaths & _).
  exists l2. split; [reflexivity|]. split; [exact Hagain|exact Hpaths].
Defined.

(** X17: [create_delta_table] is not atomic.  When the path is free and
    the session refuses the CREATE TABLE statement, the call raises the
    session's error after the empty table has been written: the path
    holds the table, the catalog is unchanged, and a second attempt
    fails on the path, so the table is never registered by this
    function. *)
Theorem create_delta_table_is_not_atomic {R} (spark_session : Session)
    (delta_table_path table_name error : string) (schema : StructType)
    (l : Lakehouse R) :
  dict_get (delta_paths l) delta_table_path = None ->
  sql_error spark_session (create_table_statement table_name delta_table_path)
  = Some error ->
  exists l',
    create_delta_table spark_session delta_table_path table_name schema l
    = (Raised (Exception error), l') /\
    dict_get (delta_paths l') delta_table_path = Some (mkDeltaData schema []) /\
    spark_catalog l' = spark_catalog l /\
    statements l' = statements l /\
    forall spark_session', exists l'',
      create_delta_table spark_session' delta_table_path table_name schema l'
      = (Raised (Exception ("DELTA_PATH_EXISTS: " ++ delta_table_path)), l'') /\
      spark_catalog l'' = spark_catalog l.
Proof.
  intros Hfree Hrefused.
  rewrite (create_delta_table_free _ _ _ _ _ Hfree), Hrefused.
  eexists. split; [reflexivity|].
  cbn [delta_paths spark_catalog statements console dict_get].
  rewrite String.eqb_refl. repeat split.
  intros spark_session'.
  erewrite create_delta_table_occupied
    by (cbn [delta_paths dict_get]; rewrite String.eqb_refl; reflexivity).
  eexists. split; reflexivity.
Qed.

Lemma create_delta_table_is_not_atomic_witness :
  exists l',
    create_delta_table refusing_session
      "s3a://devbmdanalayticsdata/gold/future_orders" "future_orders"
      future_orders_schema empty_lakehouse
    = (Raised (Exception "catalog is not reachable"), l') /\
    dict_get (delta_paths l') "s3a://devbmdanalayticsdata/gold/future_orders"
    = Some (mkDeltaData future_orders_schema []) /\
    spark_catalog l' = [].
Proof.
  destruct (create_delta_table_is_not_atomic refusing_session
              "s3a://devbmdanalayticsdata/gold/future_orders" "future_orders"
              "catalog is not reachable" future_orders_schema empty_lakehouse
              eq_refl eq_refl)
    as (l' & Hrun & Hpath & Hcatalog & _).
  exists l'. repeat split; assumption.
Defined.

Lemma drop_delta_table_cases {R} (spark_session : Session)
    (delta_table_path table_name : string) (l : Lakehouse R) :
  drop_delta_table spark_session delta_table_path table_name l
  = match sql_error spark_session (drop_table_statement table_name) with
    | Some error =>
        (Returned tt,
         {| delta_paths := delta_paths l;
            spark_catalog := spark_catalog l;
            statements := statements l;
            console :=
              console l
              ++ [Say ("An error occurred while dropping the Delta table: "
                       ++ error)] |})
    | None =>
        (Returned tt,
         {| delta_paths := delta_paths l;
            spark_catalog := dict_remove (spark_catalog l) table_name;
            statements := statements l ++ [drop_table_statement table_name];
            console :=
              console l
              ++ [Say ("Delta table '" ++ table_name ++ "' dropped successfully.")] |})
    end.
Proof.
  unfold drop_delta_table, eff_try, eff_bind, sql_drop_table, say.
  cbn [delta_paths spark_catalog statements console].
  destruct (sql_error spark_session _); reflexivity.
Qed.

(** X18: [drop_delta_table] never raises, whatever the session does with
    the DROP TABLE statement, and never touches the storage: every path
    holds after the call what it held before.  Its [delta_table_path]
    argument has no effect.  When the statement runs the catalog forgets
    the name and no other; when the session refuses it the catalog and
    the statements run are unchanged and the only trace of the failure
    is a line on the console. *)
Theorem drop_delta_table_never_raises {R} (spark_session : Session)
    (delta_table_path delta_table_path' table_name : string) (l : Lakehouse R) :
  exists l',
    drop_delta_table spark_session delta_table_path table_name l = (Returned tt, l') /\
    drop_delta_table spark_session delta_table_path' table_name l = (Returned tt, l') /\
    delta_paths l' = delta_paths l /\
    match sql_error spark_session (drop_table_statement table_name) with
    | None =>
        dict_get (spark_catalog l') table_name = None /\
        (forall name, name <> table_name ->
           dict_get (spark_catalog l') name = dict_get (spark_catalog l) name) /\
        statements l' = statements l ++ [drop_table_statement table_name]
    | Some error =>
        spark_catalog l' = spark_catalog l /\
        statements l' = statements l /\
        console l'
        = console l
          ++ [Say ("An error occurred while dropping the Delta table: " ++ error)]
    end.
Proof.
  rewrite !drop_delta_table_cases.
  destruct (sql_error spark_session _) as [error|];
    (eexists; split; [reflexivity|]; split; [reflexivity|]; split; [reflexivity|]);
    cbn [delta_paths spark_catalog statements console].
  - repeat split.
  - split; [apply dict_get_remove_same|]. split; [|reflexivity].
    intros name Hne. apply dict_get_remove_other. exact Hne.
Qed.

(** X19: dropping a table does not undo its creation.  After
    [create_delta_table] has returned and [drop_delta_table] has run its
    statement, the files are still at the path, so
    [read_delta_table_by_path] still returns the table, the catalog no
    longer knows the name, and [create_delta_table] for the same path
    raises: the three calls in a row leave a table that is stored but
    not registered. *)
Theorem drop_does_not_undo_create {R} (spark_session : Session)
    (delta_table_path table_name : string) (schema : StructType)
    (l l1 : Lakehouse R) :
  create_delta_table spark_session delta_table_path table_name schema l
  = (Returned tt, l1) ->
  sql_error spark_session (drop_table_statement table_name) = None ->
  exists l2 l3,
    drop_delta_table spark_session delta_table_path table_name l1 = (Returned tt, l2) /\
    read_delta_table_by_path delta_table_path l2
    = (Returned (mkDeltaData schema []), l2) /\
    dict_get (spark_catalog l2) table_name = None /\
    create_delta_table spark_session delta_table_path table_name schema l2
    = (Raised (Exception ("DELTA_PATH_EXISTS: " ++ delta_table_path)), l3) /\
    dict_get (spark_catalog l3) table_name = None /\
    delta_paths l3 = delta_paths l1.
Proof.
  intros Hrun Hdrop.
  destruct (dict_get (delta_paths l) delta_table_path) as [data|] eqn:Hpath.
  { rewrite (create_delta_table_occupied _ _ _ _ _ _ Hpath) in Hrun.
    discriminate Hrun. }
  rewrite (create_delta_table_free _ _ _ _ _ Hpath) in Hrun.
  destruct (sql_error spark_session (create_table_statement _ _));
    [discriminate Hrun|].
  injection Hrun as <-.
  rewrite drop_delta_table_cases, Hdrop.
  eexists. eexists. split; [reflexivity|].
  unfold read_delta_table_by_path.
  cbn [delta_paths spark_catalog statements console dict_get].
  rewrite String.eqb_refl. split; [reflexivity|].
  split; [apply dict_get_remove_same|].
  erewrite create_delta_table_occupied
    by (cbn [delta_paths dict_get]; rewrite String.eqb_refl; reflexivity).
  split; [reflexivity|].
  cbn [delta_paths spark_catalog statements console].
  split; [apply dict_get_remove_same|reflexivity].
Qed.

Lemma drop_does_not_undo_create_witness :
  exists l1 l2 l3,
    create_delta_table willing_session
      "s3a://devbmdanalayticsdata/gold/future_orders" "future_orders"
      future_orders_schema empty_lakehouse = (Returned tt, l1) /\
    drop_delta_table willing_session
      "s3a://devbmdanalayticsdata/gold/future_orders" "future_orders" l1
    = (Returned tt, l2) /\
    create_delta_table willing_session
      "s3a://devbmdanalayticsdata/gold/future_orders" "future_orders"
      future_orders_schema l2
    = (Raised (Exception
                 "DELTA_PATH_EXISTS: s3a://devbmdanalayticsdata/gold/future_orders"),
       l3) /\
    dict_get (spark_catalog l3) "future_orders" = None.
Proof.
  exists (snd (create_delta_table willing_session
                 "s3a://devbmdanalayticsdata/gold/future_orders" "future_orders"
                 future_orders_schema empty_lakehouse)).
  destruct (drop_does_not_undo_create willing_session
              "s3a://devbmdanalayticsdata/gold/future_orders" "future_orders"
              future_orders_schema empty_lakehouse
              (snd (create_delta_table willing_session
                      "s3a://devbmdanalayticsdata/gold/future_orders"
                      "future_orders" future_orders_schema empty_lakehouse))
              eq_refl eq_refl)
    as (l2 & l3 & Hdrop & _ & _ & Hagain & Hname & _).
  exists l2, l3. split; [reflexivity|].
  split; [exact Hdrop|]. split; [exact Hagain|exact Hname].
Defined.

(* ================================================================== *)
(** ** Registering a table in the Glue catalog *)

(** X20: [create_glue_delta_table] asks the Glue client for one table,
    with the given name and location, whose columns are the fields of
    the schema that have a Glue type, in the order of the schema; what
    the client returns or raises is what the call returns or raises (no
    exception is caught here); the line Glue table is ready. is printed
    only when the client returned; and no Delta table, catalog entry or
    statement of the session is touched. *)
Theorem create_glue_delta_table_sends_the_mapped_columns {R} (glue : GlueClient)
    (database_name table_name delta_table_path : string) (schema : StructType)
    (l : Lakehouse R) :
  let table_input :=
    {| ti_Name := table_name;
       ti_Columns :=
         map (fun f => {| col_Name := field_name f;
                          col_Type := glue_type (dataType f) |})
             (filter supported schema);
       ti_Location := delta_table_path |} in
  exists l',
    create_glue_delta_table glue database_name schema table_name delta_table_path l
    = (glue_create_table glue database_name table_input, l') /\
    delta_paths l' = delta_paths l /\
    spark_catalog l' = spark_catalog l /\
    statements l' = statements l /\
    console l'
    = console l
      ++ [ Say "Starting conversion of Spark StructType to Glue format...";
           Say "Conversion completed. Resulting Glue schema:";
           Say "Glue table is being created" ]
      ++ match glue_create_table glue database_name table_input with
         | Returned _ => [Say "Glue table is ready."]
         | Raised _ => []
         end.
Proof.
  intros table_input.
  unfold create_glue_delta_table, convert_schema_to_glue_format, eff_bind, eff_ret, say.
  cbn [delta_paths spark_catalog statements console].
  unfold glue_columns. rewrite glue_columns_from. cbn [app].
  fold table_input.
  destruct (glue_create_table glue database_name table_input) as [[]|e];
    eexists; (split; [reflexivity|]);
    cbn [delta_paths spark_catalog statements console];
    repeat split; rewrite <- ?app_assoc; reflexivity.
Qed.
